(** * ButterStick bring-up gateware: VCCIO PWM control and ECP5 clock domains

    A shallow embedding of [butterstick/02_pmod.py], [butterstick/03_button.py]
    and [butterstick/04_usb.py].

    The Python sources are Amaranth generators: running [elaborate] at
    configuration time either raises, or returns a hardware description
    (a [Module] with combinational and clocked assignments).  Both layers
    are modelled:

    - the configuration-time Python code is embedded in a small
      writer/exception monad [py] (log of warnings, result or raised
      exception);
    - the returned hardware description is a list of assignments over a
      small expression type, with the cycle semantics Amaranth gives it
      ([comb_value] for the combinational outputs of a tick, [sync_step]
      for the register update at the clock edge).

    Python floats are IEEE-754 binary64 numbers; they are modelled by Rocq's
    primitive floats, which are binary64 too, so that the arithmetic of
    [_pwm_timer_limit] is the arithmetic the interpreter performs. *)

From Stdlib Require Import ZArith Lia List.
From Stdlib Require Import Floats.
From Stdlib Require Import Reals Lra.
From stdpp Require Import gmap strings pretty.

Set Warnings "-inexact-float".

Local Open Scope Z_scope.

(** ** Python exceptions, results and the elaboration monad *)

Inductive exn : Type :=
  | ValueError (msg : string)
  | TypeError (msg : string)
  | OverflowError (msg : string)
  | KeyError (key : string)
  | ResourceError (msg : string).

Inductive result (A : Type) : Type :=
  | Ok (a : A)
  | Raise (e : exn).

Arguments Ok {A} a.
Arguments Raise {A} e.

(** A computation returns the warnings it logged (in order) and either a
    value or the exception that aborted it. *)
Definition py (A : Type) : Type := list string * result A.

Definition ret {A} (a : A) : py A := ([], Ok a).
Definition raise {A} (e : exn) : py A := ([], Raise e).
Definition logging_warning (msg : string) : py unit := ([msg], Ok tt).

Definition bind {A B} (c : py A) (k : A -> py B) : py B :=
  match c with
  | (l, Ok a) => let '(l', r) := k a in (l ++ l', r)
  | (l, Raise e) => (l, Raise e)
  end.

Definition lift {A} (r : result A) : py A := ([], r).

#[global] Instance py_ret : MRet py := @ret.
#[global] Instance py_bind : MBind py := fun A B k c => bind c k.

Definition raised {A} (c : py A) : option exn :=
  match snd c with Raise e => Some e | Ok _ => None end.

Definition returned {A} (c : py A) : option A :=
  match snd c with Ok a => Some a | Raise _ => None end.

(** ** Python numbers *)

(** [int(x)] for a float [x]: truncation toward zero; [nan] and the
    infinities raise. *)
Definition py_int (x : float) : result Z :=
  match Prim2SF x with
  | S754_zero _ => Ok 0
  | S754_finite s m e => Ok (cond_Zopp s (Z.shiftl (Z.pos m) e))
  | S754_infinity _ => Raise (OverflowError "cannot convert float infinity to integer")
  | S754_nan => Raise (ValueError "cannot convert float NaN to integer")
  end.

(** [math.floor(x)], used to state how [int] rounds. *)
Definition py_floor (x : float) : result Z :=
  match Prim2SF x with
  | S754_zero _ => Ok 0
  | S754_finite s m e =>
      Ok (Z.shiftl (cond_Zopp s (Z.pos m)) e)
  | S754_infinity _ => Raise (OverflowError "cannot convert float infinity to integer")
  | S754_nan => Raise (ValueError "cannot convert float NaN to integer")
  end.

(** [str(x)] for a float whose value is the integer [x], [|x| < 10^16]:
    the decimal digits followed by [".0"] (Python switches to exponent
    notation only from [1e16] on).  Clock frequencies in Hz are such floats. *)
Definition str_float (x : Z) : string := pretty x +:+ ".0".

(** ** Binary64 numbers as real numbers

    The value of a finite float is [m * 2^e]; the results of the primitive
    operations are specified by the functions of [SpecFloat] (through the
    axioms of [FloatAxioms]), which round to nearest, ties to even.  The
    definitions below state this rounding over the reals: [inbetween]
    is the position of a real number relative to a truncated mantissa,
    [fmt] the numbers of the format (53-bit mantissa, exponents from
    -1074), and [rounds_to y r] says that [r] is a number of the format
    nearest to [y]. *)

Definition bpow (e : Z) : R := powerRZ 2 e.
Arguments bpow : simpl never.

Definition F2R (m e : Z) : R := (IZR m * bpow e)%R.

Definition SF2R (x : spec_float) : R :=
  match x with
  | S754_finite s m e => F2R (cond_Zopp s (Z.pos m)) e
  | _ => 0%R
  end.

(** The real value of a float (0 for the non-finite ones). *)
Definition val (x : float) : R := SF2R (Prim2SF x).

Definition cmp_R (c : comparison) (a b : R) : Prop :=
  match c with Lt => (a < b)%R | Eq => a = b | Gt => (b < a)%R end.

Definition inbetween (m e : Z) (l : location) (y : R) : Prop :=
  match l with
  | loc_Exact => y = F2R m e
  | loc_Inexact c =>
      (F2R m e < y < F2R (m + 1) e)%R /\ cmp_R c y (F2R m e + bpow e / 2)%R
  end.

Definition fmt (f : R) : Prop :=
  exists m e, f = F2R m e /\ 0 <= m < 2 ^ 53 /\ -1074 <= e.

Definition rounds_to (y r : R) : Prop :=
  fmt r /\ forall f, fmt f -> (Rabs (r - y) <= Rabs (f - y))%R.

Definition inb (mrs : shr_record) (e : Z) (y : R) : Prop :=
  0 <= shr_m mrs /\ inbetween (shr_m mrs) e (loc_of_shr_record mrs) y.

Abbreviation fexp := (SpecFloat.fexp prec emax).

(** The value a finished rounding denotes: mantissa [m3] at exponent [e3],
    or an overflow. *)
Definition SF_of (sx : bool) (m3 e3 : Z) : spec_float :=
  match m3 with
  | Z0 => S754_zero sx
  | Zpos p => if e3 <=? emax - prec then S754_finite sx p e3 else S754_infinity sx
  | Zneg _ => S754_nan
  end.

(** Zero or a positive finite number. *)
Definition nonneg_finite (r : spec_float) : Prop :=
  r = S754_zero false \/ exists p e, r = S754_finite false p e.

(** ** Amaranth values, statements and modules *)

Inductive signal : Type :=
  | Signal (name : string) (width : N)
  | ResetSignal (domain : string)
  | ClockSignal (domain : string).

Inductive value : Type :=
  | Sig (s : signal)
  | Const (z : Z)
  | Add (a b : value)           (* a + b *)
  | Less (a b : value)          (* a < b *)
  | Inv (a : value)             (* ~a *)
  | Bit (a : value) (i : N).    (* a[i] *)

#[global] Instance signal_eq_dec : EqDecision signal.
Proof. solve_decision. Defined.

#[global] Instance value_eq_dec : EqDecision value.
Proof. solve_decision. Defined.

(** [lhs.eq(rhs)] *)
Definition statement : Type := value * value.

(** [Instance(type, p_..=.., i_..=.., o_..=..)]: integer parameters and port
    connections.  The string-valued PLL attributes (trim, enable and mux
    settings, synthesis attributes) and the constant-zero control inputs
    carry no behaviour that is modelled here and are left out. *)
Record Instance : Type := {
  inst_type : string;
  inst_params : list (string * Z);
  inst_inputs : list (string * value);
  inst_outputs : list (string * signal)
}.

Record Module : Type := {
  d_comb : list statement;
  d_sync : list statement;
  submodules : list Instance
}.

Definition Module_new : Module :=
  {| d_comb := []; d_sync := []; submodules := [] |}.

Definition add_comb (m : Module) (s : list statement) : Module :=
  {| d_comb := d_comb m ++ s; d_sync := d_sync m; submodules := submodules m |}.

Definition add_sync (m : Module) (s : list statement) : Module :=
  {| d_comb := d_comb m; d_sync := d_sync m ++ s; submodules := submodules m |}.

Definition add_submodule (m : Module) (i : Instance) : Module :=
  {| d_comb := d_comb m; d_sync := d_sync m; submodules := submodules m ++ [i] |}.

(** *** Cycle semantics

    All signals of these designs are unsigned.  Operators compute on the
    mathematical values of their operands (Amaranth widens the operands
    of [+] and [<] so that nothing is lost); only an assignment truncates,
    to the width of its target. *)

Definition signal_width (s : signal) : N :=
  match s with
  | Signal _ w => w
  | ResetSignal _ | ClockSignal _ => 1%N
  end.

Definition bits_for (z : Z) : N :=
  if z =? 0 then 1%N else Z.to_N (Z.log2 (Z.abs z) + 1).

Fixpoint width (v : value) : N :=
  match v with
  | Sig s => signal_width s
  | Const z => bits_for z
  | Add a b => N.max (width a) (width b) + 1
  | Less _ _ => 1
  | Inv a => width a
  | Bit _ _ => 1
  end%N.

Definition env : Type := signal -> Z.

Fixpoint eval (rho : env) (v : value) : Z :=
  match v with
  | Sig s => rho s
  | Const z => z
  | Add a b => eval rho a + eval rho b
  | Less a b => if eval rho a <? eval rho b then 1 else 0
  | Inv a => 2 ^ Z.of_N (width a) - 1 - eval rho a
  | Bit a i => if Z.testbit (eval rho a) (Z.of_N i) then 1 else 0
  end.

(** The statement driving [lhs], if any.  No target is assigned twice in
    these designs, so the first match is the only one. *)
Fixpoint driver (stmts : list statement) (lhs : value) : option value :=
  match stmts with
  | [] => None
  | (l, r) :: rest => if decide (l = lhs) then Some r else driver rest lhs
  end.

(** Value of a combinationally driven target during a tick, as a function
    of the registers and inputs [rho] of that tick.  The right-hand sides of
    these designs read registers and primitive outputs only. *)
Definition comb_value (m : Module) (rho : env) (lhs : value) : option Z :=
  match driver (d_comb m) lhs with
  | Some rhs => Some (eval rho rhs mod 2 ^ Z.of_N (width lhs))
  | None => None
  end.

(** Register update at the clock edge. *)
Definition sync_step (m : Module) (rho : env) : env :=
  fun s =>
    match driver (d_sync m) (Sig s) with
    | Some rhs => eval rho rhs mod 2 ^ Z.of_N (signal_width s)
    | None => rho s
    end.

Fixpoint run (m : Module) (n : nat) (rho : env) : env :=
  match n with
  | O => rho
  | S n' => run m n' (sync_step m rho)
  end.

(** Number of ticks, among the [n] ticks that start in state [rho], on which
    the combinational target [lhs] is 1. *)
Fixpoint high_ticks (m : Module) (lhs : value) (n : nat) (rho : env) : Z :=
  match n with
  | O => 0
  | S n' =>
      (if decide (comb_value m rho lhs = Some 1) then 1 else 0)
      + high_ticks m lhs n' (sync_step m rho)
  end.

(** ** The platform, as far as the sources use it

    [ButterStickPlatform] itself comes from [amaranth_boards]; the sources
    read the fields below from it. *)

Record VccioPins : Type := {
  pdm : signal;    (* three PDM outputs, [pdm[0]] .. [pdm[2]] *)
  en : signal
}.

Module Platform.

Record t : Type := {
  DEFAULT_CLOCK_FREQUENCIES_MHZ : gmap string Z;
  default_clk : string;
  (* [platform.default_clk_frequency]: a float holding a whole number of Hz *)
  default_clk_frequency : Z;
  (* [platform.request(name)] *)
  request : string -> result signal;
  (* [platform.vccio_voltage(instance)]: volts, or [None] *)
  vccio_voltage : nat -> option float
}.

End Platform.

Definition pwm_timer : signal := Signal "pwm_timer" 14.

(** ** butterstick/02_pmod.py *)

Module Pmod02.
Module VccioCtrl.

Definition elaborate (vccio_pins : VccioPins) (platform : Platform.t) : py Module :=
  let m := Module_new in
  let m := add_sync m [(Sig pwm_timer, Add (Sig pwm_timer) (Const 1))] in
  l0 ← lift (py_int (16384 * 0.10)%float);
  let m := add_comb m [(Bit (Sig (pdm vccio_pins)) 0, Less (Sig pwm_timer) (Const l0))] in
  l1 ← lift (py_int (16384 * 0.10)%float);
  let m := add_comb m [(Bit (Sig (pdm vccio_pins)) 1, Less (Sig pwm_timer) (Const l1))] in
  l2 ← lift (py_int (16384 * 0.70)%float);
  let m := add_comb m [(Bit (Sig (pdm vccio_pins)) 2, Less (Sig pwm_timer) (Const l2))] in
  let m := add_comb m [(Sig (en vccio_pins), Const 1)] in
  mret m.

End VccioCtrl.
End Pmod02.

(** ** butterstick/03_button.py

    Its [VccioCtrl] is the one of [02_pmod.py], statement for statement. *)

Module Button03.
Module VccioCtrl.

Definition elaborate (vccio_pins : VccioPins) (platform : Platform.t) : py Module :=
  let m := Module_new in
  let m := add_sync m [(Sig pwm_timer, Add (Sig pwm_timer) (Const 1))] in
  l0 ← lift (py_int (16384 * 0.10)%float);
  let m := add_comb m [(Bit (Sig (pdm vccio_pins)) 0, Less (Sig pwm_timer) (Const l0))] in
  l1 ← lift (py_int (16384 * 0.10)%float);
  let m := add_comb m [(Bit (Sig (pdm vccio_pins)) 1, Less (Sig pwm_timer) (Const l1))] in
  l2 ← lift (py_int (16384 * 0.70)%float);
  let m := add_comb m [(Bit (Sig (pdm vccio_pins)) 2, Less (Sig pwm_timer) (Const l2))] in
  let m := add_comb m [(Sig (en vccio_pins), Const 1)] in
  mret m.

End VccioCtrl.
End Button03.

(** ** butterstick/04_usb.py *)

Module Usb04.

Module VccioCtrl.

(** [limit_float = (3.546 - voltage) / 2.601] *)
Definition limit_float (voltage : float) : float :=
  ((3.546 - voltage) / 2.601)%float.

(** [int(limit_float * 2**14)] for a voltage that is set. *)
Definition timer_limit_of_voltage (voltage : float) : result Z :=
  py_int (limit_float voltage * 16384)%float.

(** With no voltage set, [3.546 - None] raises. *)
Definition _pwm_timer_limit (platform : Platform.t) (instance : nat) : py Z :=
  match Platform.vccio_voltage platform instance with
  | None =>
      raise (TypeError "unsupported operand type(s) for -: 'float' and 'NoneType'")
  | Some voltage => lift (timer_limit_of_voltage voltage)
  end.

Definition elaborate (vccio_pins : VccioPins) (platform : Platform.t) : py Module :=
  let m := Module_new in
  match Platform.vccio_voltage platform 0 with
  | None =>
      logging_warning "VCCIO configuration is required for ULPI USB to function.";;
      mret m
  | Some _ =>
      let m := add_sync m [(Sig pwm_timer, Add (Sig pwm_timer) (Const 1))] in
      (* SYGYZY 0 *)
      l0 ← _pwm_timer_limit platform 0;
      let m := add_comb m [(Bit (Sig (pdm vccio_pins)) 0, Less (Sig pwm_timer) (Const l0))] in
      (* SYGYZY 1 *)
      l1 ← _pwm_timer_limit platform 1;
      let m := add_comb m [(Bit (Sig (pdm vccio_pins)) 1, Less (Sig pwm_timer) (Const l1))] in
      (* SYGYZY 2 & ULPI USB *)
      l2 ← _pwm_timer_limit platform 2;
      let m := add_comb m [(Bit (Sig (pdm vccio_pins)) 2, Less (Sig pwm_timer) (Const l2))] in
      let m := add_comb m [(Sig (en vccio_pins), Const 1)] in
      mret m
  end.

End VccioCtrl.

Module LunaECP5DomainGenerator.

Definition OSCG_DIV : Z := 5.

Definition DEFAULT_CLOCK_FREQUENCIES_MHZ : gmap string Z :=
  {[ "fast" := 240; "sync" := 120; "usb" := 60 ]}.

(** The object's attributes.  [clock_name] and [clock_frequency] are set by
    the constructor of the base class; [clock_frequencies] is the caller's
    override dictionary until [create_submodules] replaces it by the merged
    one; [_pll_lock], the three PLL outputs and [_clock_options] exist once
    [create_submodules] has run. *)
Record t : Type := {
  clock_name : option string;
  (* a float holding a whole number of Hz, or [None] *)
  clock_frequency : option Z;
  clock_frequencies : option (gmap string Z);
  _clock_options : gmap Z signal
}.

(** [__init__(clock_frequencies=None, clock_signal_name=None)] *)
Definition __init__ (clock_frequencies : option (gmap string Z))
    (clock_signal_name : option string) : t :=
  {| clock_name := clock_signal_name;
     clock_frequency := None;
     clock_frequencies := clock_frequencies;
     _clock_options := ∅ |}.

Definition _pll_lock : signal := Signal "_pll_lock" 1.
Definition _clk_240MHz : signal := Signal "_clk_240MHz" 1.
Definition _clk_120MHz : signal := Signal "_clk_120MHz" 1.
Definition _clk_60MHz : signal := Signal "_clk_60MHz" 1.

(** Truth value of an optional string or dictionary. *)
Definition truthy_str (s : option string) : bool :=
  match s with Some s => negb (String.eqb s "") | None => false end.

Definition truthy_dict (d : option (gmap string Z)) : bool :=
  match d with Some d => negb (bool_decide (d = ∅)) | None => false end.

(** [new = platform.DEFAULT_CLOCK_FREQUENCIES_MHZ.copy();
     if self.clock_frequencies: new.update(self.clock_frequencies)] *)
Definition merge_clock_frequencies (defaults : gmap string Z)
    (overrides : option (gmap string Z)) : gmap string Z :=
  if truthy_dict overrides then default ∅ overrides ∪ defaults else defaults.

Definition pll_params_per_freq : gmap string (gmap string Z) :=
  {[ "62000000.0" := {[ "CLKFB_DIV" := 4 ]};
     "60000000.0" := {[ "CLKFB_DIV" := 4 ]};
     "30000000.0" := {[ "CLKFB_DIV" := 8 ]} ]}.

(** [str(clock_frequency)] *)
Definition str_frequency (clock_frequency : option Z) : string :=
  match clock_frequency with
  | Some f => str_float f
  | None => "None"
  end.

(** [if not str(clock_frequency) in pll_params_per_freq: raise ValueError(..)]
    followed by [pll_params = pll_params_per_freq[str(clock_frequency)]].
    Building the message divides by [1e6], which itself raises on [None]. *)
Definition lookup_pll_params (clock_frequency : option Z) : py (gmap string Z) :=
  match pll_params_per_freq !! str_frequency clock_frequency with
  | None =>
      match clock_frequency with
      | Some _ => raise (ValueError "Unsupported clock frequency")
      | None =>
          raise (TypeError "unsupported operand type(s) for /: 'NoneType' and 'float'")
      end
  | Some pll_params => mret pll_params
  end.

(** [d[key]] on a dictionary with string keys. *)
Definition getitem {V} (d : gmap string V) (key : string) : py V :=
  match d !! key with
  | Some v => mret v
  | None => raise (KeyError key)
  end.

Definition EHXPLLL (input_clock : signal) (clkfb_div : Z) : Instance :=
  {| inst_type := "EHXPLLL";
     inst_params :=
       [("CLKOS3_DIV", 1); ("CLKOS2_DIV", 8); ("CLKOS_DIV", 4); ("CLKOP_DIV", 2);
        ("CLKFB_DIV", clkfb_div); ("CLKI_DIV", 1)];
     inst_inputs := [("CLKI", Sig input_clock); ("CLKFB", Sig _clk_240MHz)];
     inst_outputs :=
       [("CLKOP", _clk_240MHz); ("CLKOS", _clk_120MHz); ("CLKOS2", _clk_60MHz);
        ("LOCK", _pll_lock)] |}.

Definition OSCG (input_clock : signal) : Instance :=
  {| inst_type := "OSCG";
     inst_params := [("DIV", OSCG_DIV)];
     inst_inputs := [];
     inst_outputs := [("OSC", input_clock)] |}.

Definition create_submodules (self : t) (m : Module) (platform : Platform.t)
    : py (t * Module) :=
  (* platform defaults, overridden by the caller-provided copies *)
  let new_clock_frequencies :=
    merge_clock_frequencies (Platform.DEFAULT_CLOCK_FREQUENCIES_MHZ platform)
      (clock_frequencies self) in
  let use_own := truthy_str (clock_name self) in
  let clock_name' :=
    if use_own then default "" (clock_name self) else Platform.default_clk platform in
  let clock_frequency' :=
    if use_own then clock_frequency self else Some (Platform.default_clk_frequency platform) in
  let self :=
    {| clock_name := clock_name self;
       clock_frequency := clock_frequency self;
       clock_frequencies := Some new_clock_frequencies;
       _clock_options :=
         {[ 60 := _clk_60MHz; 120 := _clk_120MHz; 240 := _clk_240MHz ]} |} in
  '(input_clock, clock_frequency', m) ←
    (if String.eqb clock_name' "OSCG" then
       logging_warning "Using FPGA-internal oscillator for an approximately 62MHz.";;
       logging_warning "USB communication won't work for f_OSC != 60MHz.";;
       let input_clock := Signal "input_clock" 1 in
       mret (input_clock, Some 62, add_submodule m (OSCG input_clock))
     else
       input_clock ← lift (Platform.request platform clock_name');
       mret (input_clock, clock_frequency', m));
  pll_params ← lookup_pll_params clock_frequency';
  clkfb_div ← getitem pll_params "CLKFB_DIV";
  let m := add_submodule m (EHXPLLL input_clock clkfb_div) in
  (* keep the system in reset until the PLL is stable *)
  let m := add_comb m
    [ (Sig (ResetSignal "sync"), Inv (Sig _pll_lock));
      (Sig (ResetSignal "fast"), Inv (Sig _pll_lock)) ] in
  mret (self, m).

(** [self._clock_options[key]] *)
Definition clock_option (self : t) (key : Z) : py signal :=
  match _clock_options self !! key with
  | Some clk => mret clk
  | None => raise (KeyError (pretty key))
  end.

(** [self.clock_frequencies[domain]] *)
Definition clock_frequency_of (self : t) (domain : string) : py Z :=
  match clock_frequencies self with
  | Some d => getitem d domain
  | None => raise (TypeError "'NoneType' object is not subscriptable")
  end.

Definition generate_usb_clock (self : t) (m : Module) (platform : Platform.t) : py signal :=
  f ← clock_frequency_of self "usb"; clock_option self f.

Definition generate_sync_clock (self : t) (m : Module) (platform : Platform.t) : py signal :=
  f ← clock_frequency_of self "sync"; clock_option self f.

Definition generate_fast_clock (self : t) (m : Module) (platform : Platform.t) : py signal :=
  f ← clock_frequency_of self "fast"; clock_option self f.

End LunaECP5DomainGenerator.

End Usb04.

(** ** Derived descriptions used in the statements *)

(** The hardware [VccioCtrl.elaborate] describes when it gets as far as
    its last statement: one 14-bit counter, three comparators, the enable. *)
Definition pwm_module (pins : VccioPins) (l0 l1 l2 : Z) : Module :=
  {| d_comb :=
       [ (Bit (Sig (pdm pins)) 0, Less (Sig pwm_timer) (Const l0));
         (Bit (Sig (pdm pins)) 1, Less (Sig pwm_timer) (Const l1));
         (Bit (Sig (pdm pins)) 2, Less (Sig pwm_timer) (Const l2));
         (Sig (en pins), Const 1) ];
     d_sync := [ (Sig pwm_timer, Add (Sig pwm_timer) (Const 1)) ];
     submodules := [] |}.

(** The [i]-th of three thresholds. *)
Definition nth_limit (l0 l1 l2 : Z) (i : N) : Z :=
  match i with 0%N => l0 | 1%N => l1 | _ => l2 end.

(** A 14-bit register holds a value below [2^14]. *)
Definition timer_in_range (rho : env) : Prop := 0 <= rho pwm_timer < 2 ^ 14.

(** Duty count in closed form: how many of the counter values
    [c, c+1, .., c+n-1] (no wrap) lie below [t]. *)
Definition below (t c n : Z) : Z := Z.max 0 (Z.min (c + n) t - c).

(** The clock [create_submodules] takes as the PLL input, and the
    frequency it then looks up in the table: the generator's own clock if it
    was given a name, the platform's default clock otherwise, and [62.0] for
    the internal oscillator. *)
Definition selected_clock_name (self : Usb04.LunaECP5DomainGenerator.t)
    (platform : Platform.t) : string :=
  if Usb04.LunaECP5DomainGenerator.truthy_str
       (Usb04.LunaECP5DomainGenerator.clock_name self)
  then default "" (Usb04.LunaECP5DomainGenerator.clock_name self)
  else Platform.default_clk platform.

Definition validated_frequency (self : Usb04.LunaECP5DomainGenerator.t)
    (platform : Platform.t) : option Z :=
  if String.eqb (selected_clock_name self platform) "OSCG" then Some 62
  else if Usb04.LunaECP5DomainGenerator.truthy_str
            (Usb04.LunaECP5DomainGenerator.clock_name self)
  then Usb04.LunaECP5DomainGenerator.clock_frequency self
  else Some (Platform.default_clk_frequency platform).

(** The two reset assignments of [create_submodules]. *)
Definition pll_resets : list statement :=
  [ (Sig (ResetSignal "sync"), Inv (Sig Usb04.LunaECP5DomainGenerator._pll_lock));
    (Sig (ResetSignal "fast"), Inv (Sig Usb04.LunaECP5DomainGenerator._pll_lock)) ].

(** Reference frequencies (Hz) with an entry in the table, and the feedback
    divider of the entry. *)
Definition supported_frequency (f : Z) : bool :=
  bool_decide (f = 30000000 \/ f = 60000000 \/ f = 62000000).

Definition expected_clkfb_div (f : Z) : Z := if decide (f = 30000000) then 8 else 4.

(** The domain's reset is the negation of the PLL lock on every tick. *)
Definition reset_follows_lock (m : Module) (domain : string) : Prop :=
  forall (rho : env) (lock : bool),
    rho Usb04.LunaECP5DomainGenerator._pll_lock = Z.b2z lock ->
    comb_value m rho (Sig (ResetSignal domain)) = Some (Z.b2z (negb lock)).

(** [ButterStickPlatform] of [04_usb.py]: the attributes the class sets,
    over the inherited board definition (a 30 MHz [clk30]; resources are
    requested by name; the VCCIO voltages are the board's configuration). *)
Definition ButterStickPlatform (vccio_voltage : nat -> option float) : Platform.t :=
  {| Platform.DEFAULT_CLOCK_FREQUENCIES_MHZ :=
       {[ "fast" := 240; "sync" := 120; "usb" := 60 ]};
     Platform.default_clk := "clk30";
     Platform.default_clk_frequency := 30000000;
     Platform.request := fun name => Ok (Signal name 1);
     Platform.vccio_voltage := vccio_voltage |}.

(** The three [generate_*_clock] methods, by domain name. *)
Definition generate_clock (domain : string) :
    Usb04.LunaECP5DomainGenerator.t -> Module -> Platform.t -> py signal :=
  if decide (domain = "usb") then Usb04.LunaECP5DomainGenerator.generate_usb_clock
  else if decide (domain = "sync") then Usb04.LunaECP5DomainGenerator.generate_sync_clock
  else Usb04.LunaECP5DomainGenerator.generate_fast_clock.

(** The PLL output tap of a frequency in MHz, if there is one. *)
Definition tap (f : Z) : option signal :=
  if decide (f = 60) then Some Usb04.LunaECP5DomainGenerator._clk_60MHz
  else if decide (f = 120) then Some Usb04.LunaECP5DomainGenerator._clk_120MHz
  else if decide (f = 240) then Some Usb04.LunaECP5DomainGenerator._clk_240MHz
  else None.

(** Zero, a negative number, or a result on which [int] raises. *)
Definition nonpos_SF (r : spec_float) : Prop :=
  match r with
  | S754_zero _ | S754_finite true _ _ | S754_infinity true | S754_nan => True
  | S754_finite false _ _ | S754_infinity false => False
  end.

(** The calibrated linear range of the regulator: the voltages at which
    the duty [(3.546 - v) / 2.601] lies between 0 and 1. *)
Definition calibrated (v : float) : Prop :=
  (0.945 <=? v)%float = true /\ (v <=? 3.546)%float = true.

(** ** butterstick/02_pmod.py and 03_button.py: the adapter, the LED
       chaser and the button design *)

(** [for a in l: s = body(a, s)] *)
Fixpoint for_each {A S} (l : list A) (body : A -> S -> py S) (s : S) : py S :=
  match l with
  | [] => mret s
  | a :: l => s ← body a s; for_each l body s
  end.

(** [str.split()], on the characters of ASCII: maximal runs of characters
    that are not whitespace. *)
Definition is_space (a : Ascii.ascii) : bool :=
  let n := Ascii.nat_of_ascii a in
  ((9 <=? n)%nat && (n <=? 13)%nat) || ((28 <=? n)%nat && (n <=? 32)%nat).

Fixpoint split_from (cur : string) (s : string) : list string :=
  match s with
  | EmptyString => if decide (cur = "") then [] else [cur]
  | String a s' =>
      if is_space a
      then (if decide (cur = "") then split_from "" s' else cur :: split_from "" s')
      else split_from (cur +:+ String a "") s'
  end.

Definition split (s : string) : list string := split_from "" s.

Module SygyzyPmodAdapter.

Record t : Type := { syzygy_name : string }.

(** [Connector(name, number, io)] *)
Record Connector : Type := {
  conn_name : string;
  conn_number : Z;
  conn_io : string
}.

(** The dictionary of [connectors], in the order of its keys. *)
Definition pmod_pins : list (string * list string) :=
  [ ("pmod_1a", ["S12"; "S8"; "S4"; "S0"; "-"; "-"; "S14"; "S10"; "S6"; "S2"; "-"; "-"]);
    ("pmod_1b", ["S13"; "S9"; "S5"; "S1"; "-"; "-"; "S15"; "S11"; "S7"; "S3"; "-"; "-"]);
    ("pmod_2a", ["S28"; "S24"; "S20"; "S16"; "-"; "-"; "S30"; "S26"; "S22"; "S18"; "-"; "-"]);
    ("pmod_2b", ["S29"; "S25"; "S21"; "S17"; "-"; "-"; "S31"; "S27"; "S23"; "S19"; "-"; "-"]) ].

Definition connectors (self : t) : list Connector :=
  fold_left
    (fun connectors '(pmod, pins) =>
       let pin_str :=
         fold_left
           (fun pin_str pin => pin_str +:+ (syzygy_name self +:+ ":" +:+ pin +:+ " "))
           pins "" in
       connectors ++ [ {| conn_name := pmod; conn_number := 0; conn_io := pin_str |} ])
    pmod_pins [].

End SygyzyPmodAdapter.

(** [_pmod]: the arguments of the four [LEDResources], which numbers the
    pins of its [pins] string from 0. *)
Definition _pmod : list (string * string) :=
  [ ("led_1a", "pmod_1a_0:1 pmod_1a_0:2 pmod_1a_0:3 pmod_1a_0:4 pmod_1a_0:7 pmod_1a_0:8 pmod_1a_0:9 pmod_1a_0:10");
    ("led_1b", "pmod_1b_0:1 pmod_1b_0:2 pmod_1b_0:3 pmod_1b_0:4 pmod_1b_0:7 pmod_1b_0:8 pmod_1b_0:9 pmod_1b_0:10");
    ("led_2a", "pmod_2a_0:1 pmod_2a_0:2 pmod_2a_0:3 pmod_2a_0:4 pmod_2a_0:7 pmod_2a_0:8 pmod_2a_0:9 pmod_2a_0:10");
    ("led_2b", "pmod_2b_0:1 pmod_2b_0:2 pmod_2b_0:3 pmod_2b_0:4 pmod_2b_0:7 pmod_2b_0:8 pmod_2b_0:9 pmod_2b_0:10") ].

(** [platform.request(name, number)] for the resources these two designs
    ask for: single pins (the signal is the pin's [o], or its [i] for a
    button), the RGB LED (the [o] of its [r], [g] and [b]) and the VCCIO
    control pins. *)
Module Board.

Record RGB : Type := { r : signal; g : signal; b : signal }.

Record t : Type := {
  request_pin : string -> Z -> result signal;
  request_rgb_led : Z -> result RGB;
  request_vccio_ctrl : Z -> result VccioPins
}.

End Board.

Module Shifty.

(** What [elaborate] puts together: the LEDs in the order of their index
    and the pins handed to the [VccioCtrl] submodule.  The two registers,
    [counter = Signal(23)] and [shifter = Signal(len(leds), reset=1)], have
    the cycle semantics of [step] below. *)
Record Design : Type := {
  leds : list signal;
  vccio_ctrl : VccioPins
}.

Definition elaborate (platform : Board.t) : py Design :=
  leds ←
    for_each ["led_1a"; "led_1b"; "led_2a"; "led_2b"]
      (fun pmod leds =>
         for_each (seqZ 0 8)
           (fun pin leds =>
              led ← lift (Board.request_pin platform pmod pin);
              mret (leds ++ [led]))
           leds)
      [];
  vccio_ctrl ← lift (Board.request_vccio_ctrl platform 0);
  mret {| leds := leds; vccio_ctrl := vccio_ctrl |}.

Record state : Type := { counter : Z; shifter : Z }.

Definition reset (d : Design) : state := {| counter := 0; shifter := 1 |}.

(** One clock edge: [counter.eq(counter + 1)] always; [shifter.eq(1)] if
    [shifter == 0], else [shifter.eq(shifter << 1)] if [counter == 0], else
    the shifter keeps its value.  An assignment truncates to the width of
    its target. *)
Definition step (d : Design) (s : state) : state :=
  let n := Z.of_nat (length (leds d)) in
  {| counter := (counter s + 1) mod 2 ^ 23;
     shifter :=
       if shifter s =? 0 then 1 mod 2 ^ n
       else if counter s =? 0 then Z.shiftl (shifter s) 1 mod 2 ^ n
       else shifter s |}.

(** [led.o.eq(shifter[index])] *)
Definition led_o (d : Design) (s : state) (index : nat) : bool :=
  Z.testbit (shifter s) (Z.of_nat index).

Definition after (d : Design) (ticks : nat) : state :=
  Nat.iter ticks (step d) (reset d).

End Shifty.

Module Button.

Definition elaborate (platform : Board.t) : py Module :=
  btn0 ← lift (Board.request_pin platform "button" 0);
  btn1 ← lift (Board.request_pin platform "button" 1);
  prog ← lift (Board.request_pin platform "program" 0);
  led0 ← lift (Board.request_pin platform "led" 0);
  rgb ← lift (Board.request_rgb_led platform 0);
  let m := Module_new in
  let m := add_comb m [(Sig prog, Sig btn0)] in
  let m := add_comb m [(Sig led0, Sig btn1)] in
  let m := add_comb m [(Sig (Board.b rgb), Const 1)] in
  mret m.

End Button.

(** The requests of [Shifty.elaborate] in program order: LED [k] is pin
    [k mod 8] of the [k / 8]-th PMOD. *)
Definition led_request (k : nat) : string * Z :=
  (nth (k / 8) ["led_1a"; "led_1b"; "led_2a"; "led_2b"] "", Z.of_nat (k mod 8)).

(** The LED that is lit [ticks] clock edges after reset, if any: LED 0
    at reset; then each of the LEDs 1 to 31 for [2^23] ticks; then one tick
    with no LED; then LED 0 for the rest of its [2^23] ticks; and again. *)
Definition lit_led (ticks : Z) : option Z :=
  if ticks =? 0 then Some 0
  else
    let q := ((ticks - 1) / 2 ^ 23) mod 32 in
    let r := (ticks - 1) mod 2 ^ 23 in
    if q <? 31 then Some (q + 1)
    else if r =? 0 then None
    else Some 0.

(** The value of the 32-bit shifter [t + 1] clock edges after reset. *)
Definition shifter_after (t : Z) : Z :=
  let q := (t / 2 ^ 23) mod 32 in
  let r := t mod 2 ^ 23 in
  if q <? 31 then 2 ^ (q + 1) else if r =? 0 then 0 else 1.

(** Characters that are printed and are no space. *)
Definition printable (s : string) : Prop :=
  Forall (fun a => (33 <= Ascii.nat_of_ascii a <= 126)%nat)
    (String.list_ascii_of_string s).

(** * Facts *)

(** ** Binary64 rounding *)

(** *** Binary64: bpow *)
Lemma bpow_gt_0 e : (0 < bpow e)%R.
Proof. apply powerRZ_lt. lra. Qed.

Lemma bpow_plus a b : bpow (a + b) = (bpow a * bpow b)%R.
Proof. apply powerRZ_add. lra. Qed.

Lemma bpow_1 : bpow 1 = 2%R.
Proof. unfold bpow. simpl. lra. Qed.

Lemma bpow_0 : bpow 0 = 1%R.
Proof. reflexivity. Qed.

Lemma bpow_succ e : bpow (e + 1) = (2 * bpow e)%R.
Proof. rewrite bpow_plus, bpow_1. lra. Qed.

Lemma IZR_pow2 k : 0 <= k -> IZR (2 ^ k) = bpow k.
Proof.
  intros H. unfold bpow. rewrite <- (Z2Nat.id k H) at 2.
  rewrite <- pow_powerRZ. rewrite <- (Z2Nat.id k H) at 1.
  rewrite <- Zpower_nat_Z. induction (Z.to_nat k) as [|n IH].
  - reflexivity.
  - rewrite Zpower_nat_succ_r, mult_IZR, IH. simpl. reflexivity.
Qed.

Lemma bpow_ge_1 k : 0 <= k -> (1 <= bpow k)%R.
Proof.
  intros H. rewrite <- IZR_pow2 by exact H. apply IZR_le.
  pose proof (Z.pow_pos_nonneg 2 k). lia.
Qed.

Lemma bpow_le a b : a <= b -> (bpow a <= bpow b)%R.
Proof.
  intros H. replace b with (a + (b - a)) by lia. rewrite bpow_plus.
  pose proof (bpow_ge_1 (b - a) ltac:(lia)). pose proof (bpow_gt_0 a). nra.
Qed.

Lemma bpow_lt a b : a < b -> (bpow a < bpow b)%R.
Proof.
  intros H. replace b with (a + 1 + (b - a - 1)) by lia.
  rewrite bpow_plus, bpow_succ.
  pose proof (bpow_ge_1 (b - a - 1) ltac:(lia)). pose proof (bpow_gt_0 a). nra.
Qed.

Lemma F2R_shift m e k : 0 <= k -> F2R (m * 2 ^ k) e = F2R m (e + k).
Proof.
  intros H. unfold F2R. rewrite mult_IZR, IZR_pow2 by exact H.
  rewrite (Z.add_comm e k), bpow_plus. ring.
Qed.

Lemma F2R_le m1 m2 e : m1 <= m2 -> (F2R m1 e <= F2R m2 e)%R.
Proof.
  intros H. unfold F2R. apply Rmult_le_compat_r.
  - apply Rlt_le, bpow_gt_0.
  - apply IZR_le, H.
Qed.

Lemma F2R_lt m1 m2 e : m1 < m2 -> (F2R m1 e < F2R m2 e)%R.
Proof.
  intros H. unfold F2R. apply Rmult_lt_compat_r.
  - apply bpow_gt_0.
  - apply IZR_lt, H.
Qed.

Lemma F2R_lt_inv m1 m2 e : (F2R m1 e < F2R m2 e)%R -> m1 < m2.
Proof.
  intros H. destruct (Z_lt_le_dec m1 m2) as [|Hle]; [assumption|].
  apply (F2R_le _ _ e) in Hle. lra.
Qed.

Lemma F2R_succ m e : F2R (m + 1) e = (F2R m e + bpow e)%R.
Proof. unfold F2R. rewrite plus_IZR. ring. Qed.

Lemma F2R_bpow k e : 0 <= k -> F2R (2 ^ k) e = bpow (k + e).
Proof. intros H. unfold F2R. rewrite IZR_pow2, bpow_plus by exact H. ring. Qed.

(** *** Binary64: digits *)
Lemma digits2_pos_spec p :
  2 ^ (Z.pos (digits2_pos p) - 1) <= Z.pos p < 2 ^ Z.pos (digits2_pos p).
Proof.
  induction p as [p IH|p IH|]; cbn [digits2_pos].
  - rewrite Pos2Z.inj_succ.
    replace (Z.succ (Z.pos (digits2_pos p)) - 1) with (Z.pos (digits2_pos p) - 1 + 1) by lia.
    rewrite !Z.pow_succ_r, Z.pow_add_r by lia. lia.
  - rewrite Pos2Z.inj_succ.
    replace (Z.succ (Z.pos (digits2_pos p)) - 1) with (Z.pos (digits2_pos p) - 1 + 1) by lia.
    rewrite !Z.pow_succ_r, Z.pow_add_r by lia. lia.
  - simpl. lia.
Qed.

Lemma Zdigits2_spec m : 0 < m -> 2 ^ (Zdigits2 m - 1) <= m < 2 ^ Zdigits2 m.
Proof. destruct m as [|p|p]; try lia. intros _. apply digits2_pos_spec. Qed.

Lemma Zdigits2_pos m : 0 < m -> 0 < Zdigits2 m.
Proof. destruct m; simpl; lia. Qed.

Lemma Zdigits2_unique m d : 0 < d -> 2 ^ (d - 1) <= m < 2 ^ d -> Zdigits2 m = d.
Proof.
  intros Hd H. assert (Hm : 0 < m) by (pose proof (Z.pow_pos_nonneg 2 (d - 1)); lia).
  pose proof (Zdigits2_spec m Hm) as H'. pose proof (Zdigits2_pos m Hm) as Hp.
  destruct (Z.lt_trichotomy (Zdigits2 m) d) as [Hlt | [Heq | Hgt]]; [|exact Heq|].
  - assert (2 ^ Zdigits2 m <= 2 ^ (d - 1)) by (apply Z.pow_le_mono_r; lia). lia.
  - assert (2 ^ d <= 2 ^ (Zdigits2 m - 1)) by (apply Z.pow_le_mono_r; lia). lia.
Qed.

Lemma Zdigits2_shift m k : 0 < m -> 0 <= k -> Zdigits2 (m * 2 ^ k) = Zdigits2 m + k.
Proof.
  intros Hm Hk. pose proof (Zdigits2_spec m Hm) as H. pose proof (Zdigits2_pos m Hm).
  apply Zdigits2_unique; [lia|].
  replace (Zdigits2 m + k - 1) with (Zdigits2 m - 1 + k) by lia.
  rewrite !Z.pow_add_r by lia.
  assert (0 < 2 ^ k) by (apply Z.pow_pos_nonneg; lia). nia.
Qed.

(** *** Binary64: shifting right *)

Lemma IZR_xO p : IZR (Z.pos p~0) = (2 * IZR (Z.pos p))%R.
Proof. rewrite Pos2Z.inj_xO, mult_IZR. reflexivity. Qed.

Lemma IZR_xI p : IZR (Z.pos p~1) = (2 * IZR (Z.pos p) + 1)%R.
Proof. rewrite Pos2Z.inj_xI, plus_IZR, mult_IZR. reflexivity. Qed.

Lemma shr_1_inb mrs e y : inb mrs e y -> inb (shr_1 mrs) (e + 1) y.
Proof.
  destruct mrs as [m r s]. unfold inb. cbn [shr_m]. intros [Hm H].
  pose proof (bpow_gt_0 e) as Hb.
  destruct m as [|p|p]; [| |lia].
  - split; [destruct r, s; simpl; lia|].
    destruct r, s; cbn [shr_1 shr_m loc_of_shr_record orb] in *;
      unfold inbetween, cmp_R in *; rewrite ?F2R_succ in *; unfold F2R in *;
      rewrite ?bpow_succ; lra.
  - destruct p as [p|p|]; (split; [destruct r, s; simpl; lia|]);
      destruct r, s; cbn [shr_1 shr_m loc_of_shr_record orb] in *;
      unfold inbetween, cmp_R in *; rewrite ?F2R_succ in *; unfold F2R in *;
      rewrite ?bpow_succ, ?(IZR_xO p), ?(IZR_xI p) in *;
      try (set (x := IZR (Z.pos p)) in *); set (b := bpow e) in *;
      try lra; nra.
Qed.

Lemma iter_shr_1_inb n : forall mrs e y,
  inb mrs e y -> inb (SpecFloat.iter_pos shr_1 n mrs) (e + Z.pos n) y.
Proof.
  induction n as [n IH|n IH|]; intros mrs e y H; cbn [SpecFloat.iter_pos].
  - replace (e + Z.pos n~1) with (e + 1 + Z.pos n + Z.pos n) by lia.
    apply IH, IH, shr_1_inb, H.
  - replace (e + Z.pos n~0) with (e + Z.pos n + Z.pos n) by lia.
    apply IH, IH, H.
  - apply shr_1_inb, H.
Qed.

Lemma shr_inb mrs e n y :
  inb mrs e y ->
  inb (fst (shr mrs e n)) (snd (shr mrs e n)) y /\
  snd (shr mrs e n) = e + Z.max 0 n /\
  (n <= 0 -> fst (shr mrs e n) = mrs).
Proof.
  intros H. destruct n as [|p|p]; cbn [shr fst snd].
  - rewrite Z.add_0_r. auto.
  - split; [apply iter_shr_1_inb, H|]. split; lia.
  - rewrite Z.add_0_r. auto.
Qed.

Lemma inb_of_loc m e l y :
  0 <= m -> inbetween m e l y -> inb (shr_record_of_loc m l) e y.
Proof.
  intros Hm H. split; [destruct l as [|[]]; exact Hm|].
  destruct l as [|[]]; exact H.
Qed.

Lemma shr_m_of_loc m l : shr_m (shr_record_of_loc m l) = m.
Proof. destruct l as [|[]]; reflexivity. Qed.

Lemma loc_of_shr_of_loc m l : loc_of_shr_record (shr_record_of_loc m l) = l.
Proof. destruct l as [|[]]; reflexivity. Qed.


Lemma fexp_spec z : fexp z = Z.max (z - 53) (-1074).
Proof. reflexivity. Qed.

Lemma inbetween_bounds m e l y :
  inbetween m e l y -> (F2R m e <= y < F2R (m + 1) e)%R.
Proof.
  destruct l; simpl.
  - intros ->. pose proof (F2R_lt m (m + 1) e ltac:(lia)). lra.
  - intros [H _]. lra.
Qed.

(** After [shr_fexp] the mantissa fits the precision and, when the input
    exponent was not above the canonical one, the exponent is canonical. *)
Lemma shr_fexp_inb m e l y :
  0 <= m -> inbetween m e l y -> e <= fexp (Zdigits2 m + e) ->
  let r := shr_fexp prec emax m e l in
  let m1 := shr_m (fst r) in
  let e1 := snd r in
  0 <= m1 /\ inbetween m1 e1 (loc_of_shr_record (fst r)) y /\
  e1 = fexp (Zdigits2 m + e) /\
  (y < bpow (53 + e1))%R /\
  ((bpow (52 + e1) <= y)%R \/ e1 = -1074).
Proof.
  intros Hm H Hn r m1 e1. subst r m1 e1. unfold shr_fexp.
  set (n := fexp (Zdigits2 m + e) - e).
  destruct (shr_inb (shr_record_of_loc m l) e n y (inb_of_loc m e l y Hm H))
    as ([Hm1 H1] & He1 & _).
  split; [exact Hm1|]. split; [exact H1|].
  assert (He : snd (shr (shr_record_of_loc m l) e n) = fexp (Zdigits2 m + e)).
  { rewrite He1. unfold n. lia. }
  split; [exact He|]. rewrite He. clear He1 H1 Hm1 He.
  apply inbetween_bounds in H. destruct H as [Hlo Hhi].
  rewrite fexp_spec in *.
  destruct (Z.eq_dec m 0) as [->|Hne].
  - simpl Zdigits2 in *. 
    assert (Z.max (0 + e - 53) (-1074) = -1074) as -> by lia.
    split; [|right; reflexivity].
    eapply Rlt_le_trans; [exact Hhi|]. change (0 + 1) with 1.
    unfold F2R. rewrite Rmult_1_l. apply bpow_le. lia.
  - assert (Hpos : 0 < m) by lia.
    pose proof (Zdigits2_spec m Hpos) as [Hd1 Hd2].
    pose proof (Zdigits2_pos m Hpos) as Hd.
    set (d := Zdigits2 m) in *.
    assert (Hy1 : (bpow (d - 1 + e) <= y)%R).
    { eapply Rle_trans; [|exact Hlo]. rewrite <- F2R_bpow by lia.
      apply F2R_le, Hd1. }
    assert (Hy2 : (y < bpow (d + e))%R).
    { eapply Rlt_le_trans; [exact Hhi|]. rewrite <- F2R_bpow by lia.
      apply F2R_le. lia. }
    split.
    + eapply Rlt_le_trans; [exact Hy2|]. apply bpow_le. lia.
    + destruct (Z_le_gt_dec (d + e - 53) (-1074)) as [Hs|Hs].
      * right. lia.
      * left. eapply Rle_trans; [|exact Hy1]. apply bpow_le. lia.
Qed.

(** *** Binary64: rounding to nearest *)
Ltac rabs := unfold Rabs; repeat destruct Rcase_abs; try lra.

Lemma rne_spec m1 e1 l1 y :
  inbetween m1 e1 l1 y ->
  let m2 := round_nearest_even m1 l1 in
  (m2 = m1 \/ m2 = m1 + 1) /\
  (l1 = loc_Exact -> m2 = m1) /\
  forall k, (Rabs (F2R m2 e1 - y) <= Rabs (F2R k e1 - y))%R.
Proof.
  intros H m2.
  assert (Hk : forall k, (F2R k e1 <= F2R m1 e1 \/ F2R m1 e1 + bpow e1 <= F2R k e1)%R).
  { intros k. destruct (Z_le_gt_dec k m1) as [Hle|Hgt].
    - left. apply F2R_le, Hle.
    - right. rewrite <- F2R_succ. apply F2R_le. lia. }
  pose proof (bpow_gt_0 e1) as Hb.
  destruct l1 as [|[]]; cbn [inbetween cmp_R] in H; subst m2; cbn [round_nearest_even].
  - split; [left; reflexivity|]. split; [reflexivity|].
    intros k. subst y. replace (F2R m1 e1 - F2R m1 e1)%R with 0%R by ring.
    rewrite Rabs_R0. apply Rabs_pos.
  - destruct H as [[H1 H2] H3]. rewrite F2R_succ in H2.
    split; [destruct (Z.even m1); auto|]. split; [discriminate|].
    intros k. destruct (Hk k); destruct (Z.even m1); rewrite ?F2R_succ; rabs.
  - destruct H as [[H1 H2] H3]. rewrite F2R_succ in H2.
    split; [auto|]. split; [discriminate|].
    intros k. destruct (Hk k); rabs.
  - destruct H as [[H1 H2] H3]. rewrite F2R_succ in H2.
    split; [auto|]. split; [discriminate|].
    intros k. destruct (Hk k); rewrite ?F2R_succ; rabs.
Qed.

Lemma Zdigits2_le m k : 0 < m < 2 ^ k -> Zdigits2 m <= k.
Proof.
  intros [Hm Hk]. pose proof (Zdigits2_spec m Hm) as [H1 _].
  destruct (Z_le_gt_dec (Zdigits2 m) k) as [|Hgt]; [assumption|].
  assert (2 ^ k <= 2 ^ (Zdigits2 m - 1)).
  { apply Z.pow_le_mono_r; [lia|]. lia. }
  lia.
Qed.


Lemma shr_fexp_exact_small m2 e1 :
  0 <= m2 < 2 ^ 53 -> -1074 <= e1 ->
  shr_fexp prec emax m2 e1 loc_Exact = (shr_record_of_loc m2 loc_Exact, e1).
Proof.
  intros Hm He. unfold shr_fexp.
  assert (Hn : fexp (Zdigits2 m2 + e1) - e1 <= 0).
  { rewrite fexp_spec. destruct (Z.eq_dec m2 0) as [->|Hne].
    - simpl Zdigits2. lia.
    - pose proof (Zdigits2_le m2 53 ltac:(lia)). lia. }
  destruct (fexp (Zdigits2 m2 + e1) - e1) as [|p|p]; [reflexivity|lia|reflexivity].
Qed.

Lemma shr_fexp_exact_carry e1 :
  -1074 <= e1 ->
  shr_fexp prec emax (2 ^ 53) e1 loc_Exact
  = (shr_record_of_loc (2 ^ 52) loc_Exact, e1 + 1).
Proof.
  intros He. unfold shr_fexp.
  change (Zdigits2 (2 ^ 53)) with 54.
  replace (fexp (54 + e1) - e1) with 1 by (rewrite fexp_spec; lia).
  reflexivity.
Qed.

Lemma binary_round_aux_correct sx m e l y :
  0 <= m -> inbetween m e l y -> e <= fexp (Zdigits2 m + e) ->
  exists m3 e3,
    binary_round_aux prec emax sx m e l = SF_of sx m3 e3 /\
    0 <= m3 < 2 ^ 53 /\ -1074 <= e3 /\
    (e3 <> -1074 -> 2 ^ 52 <= m3) /\
    rounds_to y (F2R m3 e3).
Proof.
  intros Hm H Hn. unfold binary_round_aux.
  destruct (shr_fexp_inb m e l y Hm H Hn) as (Hm1 & H1 & He1 & Hy & Ht).
  destruct (shr_fexp prec emax m e l) as [mrs' e1] eqn:E1. cbn [fst snd] in *.
  set (m1 := shr_m mrs') in *. set (l1 := loc_of_shr_record mrs') in *.
  destruct (rne_spec m1 e1 l1 y H1) as (Hm2 & _ & Hnear).
  set (m2 := round_nearest_even m1 l1) in *.
  assert (He1' : -1074 <= e1) by (rewrite He1, fexp_spec; lia).
  pose proof (inbetween_bounds _ _ _ _ H1) as [Hlo Hhi].
  assert (Hm1' : m1 < 2 ^ 53).
  { apply (F2R_lt_inv _ _ e1). rewrite F2R_bpow by lia.
    eapply Rle_lt_trans; [exact Hlo|exact Hy]. }
  assert (Htight : e1 <> -1074 -> 2 ^ 52 <= m1).
  { intros Hne. destruct Ht as [Ht|Ht]; [|contradiction].
    assert (2 ^ 52 < m1 + 1); [|lia].
    apply (F2R_lt_inv _ _ e1). rewrite F2R_bpow by lia.
    eapply Rle_lt_trans; [exact Ht|exact Hhi]. }
  (* nearest among all numbers of the format *)
  assert (Hfmt : forall f, fmt f -> (Rabs (F2R m2 e1 - y) <= Rabs (f - y))%R).
  { intros f (mf & ef & -> & Hmf & Hef).
    destruct (Z_le_gt_dec e1 ef) as [Hle|Hgt].
    - replace ef with (e1 + (ef - e1)) by lia.
      rewrite <- F2R_shift by lia. apply Hnear.
    - assert (Hf : (F2R mf ef < F2R m1 e1)%R).
      { apply Rlt_le_trans with (bpow (53 + ef)).
        - rewrite <- F2R_bpow by lia. apply F2R_lt. lia.
        - apply Rle_trans with (bpow (52 + e1)); [apply bpow_le; lia|].
          rewrite <- F2R_bpow by lia. apply F2R_le, Htight. lia. }
      specialize (Hnear m1). revert Hnear. rabs. }
  destruct (Z.eq_dec m2 (2 ^ 53)) as [Hc|Hc].
  - rewrite Hc, shr_fexp_exact_carry by exact He1'.
    exists (2 ^ 52), (e1 + 1). split; [reflexivity|].
    split; [lia|]. split; [lia|]. split; [lia|].
    assert (Hv : F2R (2 ^ 52) (e1 + 1) = F2R m2 e1).
    { rewrite Hc, !F2R_bpow by lia. f_equal. lia. }
    split.
    + exists (2 ^ 52), (e1 + 1). split; [reflexivity|lia].
    + rewrite Hv. exact Hfmt.
  - assert (Hm2' : 0 <= m2 < 2 ^ 53) by lia.
    rewrite shr_fexp_exact_small by assumption.
    exists m2, e1. split; [reflexivity|].
    split; [exact Hm2'|]. split; [exact He1'|].
    split; [intros Hne; specialize (Htight Hne); lia|].
    split; [|exact Hfmt].
    exists m2, e1. split; [reflexivity|lia].
Qed.

(** *** Binary64: consequences of nearest rounding *)
Lemma rounds_to_le_fmt y r B : rounds_to y r -> fmt B -> (y <= B)%R -> (r <= B)%R.
Proof. intros [_ H] HB Hy. specialize (H B HB). revert H. rabs. Qed.

Lemma rounds_to_ge_fmt y r B : rounds_to y r -> fmt B -> (B <= y)%R -> (B <= r)%R.
Proof. intros [_ H] HB Hy. specialize (H B HB). revert H. rabs. Qed.

Lemma rounds_to_mono y1 y2 r1 r2 :
  rounds_to y1 r1 -> rounds_to y2 r2 -> (y1 < y2)%R -> (r1 <= r2)%R.
Proof.
  intros [F1 H1] [F2 H2] Hy. specialize (H1 r2 F2). specialize (H2 r1 F1).
  revert H1 H2. rabs.
Qed.

Lemma rounds_to_exact y : fmt y -> rounds_to y y.
Proof.
  intros H. split; [exact H|]. intros f _.
  replace (y - y)%R with 0%R by ring. rewrite Rabs_R0. apply Rabs_pos.
Qed.

Lemma fmt_0 : fmt 0%R.
Proof. exists 0, 0. unfold F2R. split; [ring|lia]. Qed.

Lemma fmt_bpow k : -1074 <= k -> fmt (bpow k).
Proof. intros H. exists 1, k. unfold F2R. split; [ring|lia]. Qed.

Lemma rounds_to_nonneg y r : rounds_to y r -> (0 <= y)%R -> (0 <= r)%R.
Proof. intros H. apply rounds_to_ge_fmt; [exact H|apply fmt_0]. Qed.

Lemma SF_of_finite sx m3 e3 :
  0 <= m3 -> (e3 <> -1074 -> 2 ^ 52 <= m3) -> (F2R m3 e3 < bpow 1024)%R ->
  (m3 = 0 /\ SF_of sx m3 e3 = S754_zero sx) \/
  (exists p, m3 = Z.pos p /\ SF_of sx m3 e3 = S754_finite sx p e3 /\ e3 <= 971).
Proof.
  intros Hm Ht Hv. destruct m3 as [|p|p]; [left; auto| |lia].
  right. exists p. split; [reflexivity|].
  assert (He : e3 <= 971).
  { destruct (Z_le_gt_dec e3 971) as [|Hgt]; [assumption|exfalso].
    assert (H52 : 2 ^ 52 <= Z.pos p) by (apply Ht; lia).
    apply (F2R_le _ _ e3) in H52. rewrite F2R_bpow in H52 by lia.
    assert (bpow 1024 <= bpow (52 + e3))%R by (apply bpow_le; lia). lra. }
  split; [|exact He]. unfold SF_of.
  change (emax - prec) with 971. destruct (Z.leb_spec e3 971); [reflexivity|lia].
Qed.

(** *** Binary64: valid binary64 numbers *)
Lemma valid_finite s m e :
  valid_binary (S754_finite s m e) = true ->
  0 < Z.pos m < 2 ^ 53 /\ -1074 <= e <= 971 /\ (e <> -1074 -> 2 ^ 52 <= Z.pos m).
Proof.
  cbn [SpecFloat.valid_binary].
  unfold SpecFloat.bounded, SpecFloat.canonical_mantissa.
  rewrite andb_true_iff, Z.eqb_eq, Z.leb_le, fexp_spec.
  change (emax - prec) with 971. intros [Hc He].
  pose proof (digits2_pos_spec m) as [H1 H2].
  set (d := Z.pos (digits2_pos m)) in *.
  assert (Hd : d <= 53) by lia.
  split; [|split; [lia|]].
  - split; [lia|]. assert (2 ^ d <= 2 ^ 53) by (apply Z.pow_le_mono_r; lia). lia.
  - intros Hne. assert (d = 53) as Hd53 by lia. rewrite Hd53 in H1. exact H1.
Qed.

Lemma valid_fmt m e :
  valid_binary (S754_finite false m e) = true -> fmt (SF2R (S754_finite false m e)).
Proof.
  intros H. apply valid_finite in H as (Hm & He & _).
  exists (Z.pos m), e. split; [reflexivity|lia].
Qed.

Lemma valid_lt_bpow m e :
  valid_binary (S754_finite false m e) = true ->
  (SF2R (S754_finite false m e) < bpow 1024)%R.
Proof.
  intros H. apply valid_finite in H as (Hm & He & _). cbn [SF2R cond_Zopp].
  apply Rlt_le_trans with (bpow (53 + e)).
  - rewrite <- F2R_bpow by lia. apply F2R_lt. lia.
  - apply bpow_le. lia.
Qed.

Lemma SF2R_pos m e : (0 < SF2R (S754_finite false m e))%R.
Proof.
  cbn [SF2R cond_Zopp]. unfold F2R. apply Rmult_lt_0_compat.
  - apply IZR_lt. lia.
  - apply bpow_gt_0.
Qed.

(** Canonical representations are ordered by exponent first. *)
Lemma valid_exponent_le m1 e1 m2 e2 :
  valid_binary (S754_finite false m1 e1) = true ->
  valid_binary (S754_finite false m2 e2) = true ->
  e1 < e2 -> (F2R (Z.pos m1) e1 < F2R (Z.pos m2) e2)%R.
Proof.
  intros H1 H2 He.
  apply valid_finite in H1 as (Hm1 & He1 & _).
  apply valid_finite in H2 as (Hm2 & He2 & Ht2).
  apply Rlt_le_trans with (bpow (53 + e1)).
  - rewrite <- F2R_bpow by lia. apply F2R_lt. lia.
  - apply Rle_trans with (bpow (52 + e2)); [apply bpow_le; lia|].
    rewrite <- F2R_bpow by lia. apply F2R_le, Ht2. lia.
Qed.

Lemma valid_unique m1 e1 m2 e2 :
  valid_binary (S754_finite false m1 e1) = true ->
  valid_binary (S754_finite false m2 e2) = true ->
  F2R (Z.pos m1) e1 = F2R (Z.pos m2) e2 -> m1 = m2 /\ e1 = e2.
Proof.
  intros H1 H2 Hv.
  destruct (Z.lt_trichotomy e1 e2) as [Hlt|[Heq|Hgt]].
  - pose proof (valid_exponent_le _ _ _ _ H1 H2 Hlt). lra.
  - subst e2. split; [|reflexivity].
    destruct (Z.lt_trichotomy (Z.pos m1) (Z.pos m2)) as [Hl|[He|Hg]].
    + apply (F2R_lt _ _ e1) in Hl. lra.
    + congruence.
    + apply (F2R_lt _ _ e1) in Hg. lra.
  - pose proof (valid_exponent_le _ _ _ _ H2 H1 ltac:(lia)). lra.
Qed.

(** *** Binary64: rounding a located value, without overflow *)

Lemma binary_round_aux_finite m e l y B :
  0 <= m -> inbetween m e l y -> e <= fexp (Zdigits2 m + e) ->
  fmt B -> (y <= B)%R -> (B < bpow 1024)%R ->
  let r := binary_round_aux prec emax false m e l in
  nonneg_finite r /\ rounds_to y (SF2R r).
Proof.
  intros Hm H Hn HB HyB HB' r. subst r.
  destruct (binary_round_aux_correct false m e l y Hm H Hn)
    as (m3 & e3 & -> & Hm3 & He3 & Ht & Hr).
  pose proof (rounds_to_le_fmt _ _ _ Hr HB HyB) as Hle.
  destruct (SF_of_finite false m3 e3 ltac:(lia) Ht ltac:(lra))
    as [[-> ->] | (p & -> & -> & _)].
  - split; [left; reflexivity|]. cbn [SF2R].
    replace (F2R 0 e3) with 0%R in Hr by (unfold F2R; ring). exact Hr.
  - split; [right; eauto|]. exact Hr.
Qed.

(** *** Binary64: alignment *)
Lemma iter_xO m d : Z.pos (Pos.iter xO m d) = Z.pos m * 2 ^ Z.pos d.
Proof.
  induction d as [|d IH] using Pos.peano_ind.
  - cbn [Pos.iter]. lia.
  - rewrite Pos.iter_succ, Pos2Z.inj_xO, IH, Pos2Z.inj_succ, Z.pow_succ_r by lia. ring.
Qed.

Lemma shl_align_spec mx ex e' :
  let r := shl_align mx ex e' in
  snd r = Z.min ex e' /\ Z.pos (fst r) = Z.pos mx * 2 ^ (ex - snd r).
Proof.
  unfold shl_align. destruct (e' - ex) as [|d|d] eqn:E; cbn [fst snd].
  - split; [lia|]. rewrite Z.sub_diag. lia.
  - split; [lia|]. rewrite Z.sub_diag. lia.
  - split; [lia|]. rewrite iter_xO. f_equal. f_equal. lia.
Qed.

Lemma F2R_align m ex e : e <= ex -> F2R (m * 2 ^ (ex - e)) e = F2R m ex.
Proof. intros H. rewrite F2R_shift by lia. f_equal. lia. Qed.

(** *** Binary64: the operations on positive numbers *)
Lemma binary_round_pos m e B :
  fmt B -> (F2R (Z.pos m) e <= B)%R -> (B < bpow 1024)%R ->
  let r := binary_round prec emax false m e in
  nonneg_finite r /\ rounds_to (F2R (Z.pos m) e) (SF2R r).
Proof.
  intros HB Hy HB'. unfold binary_round.
  pose proof (shl_align_spec m e (fexp (Z.pos (digits2_pos m) + e))) as [He Hm].
  destruct (shl_align m e _) as [mz ez]. cbn [fst snd] in *.
  assert (Hv : F2R (Z.pos mz) ez = F2R (Z.pos m) e).
  { rewrite Hm. apply F2R_align. lia. }
  rewrite <- Hv in *.
  apply binary_round_aux_finite with (B := B); try assumption; [lia|reflexivity|].
  rewrite Hm, Zdigits2_shift by lia. cbn [Zdigits2].
  replace (Z.pos (digits2_pos m) + (e - ez) + ez) with (Z.pos (digits2_pos m) + e) by lia.
  lia.
Qed.

Lemma SFsub_pos mx ex my ey :
  valid_binary (S754_finite false mx ex) = true ->
  (F2R (Z.pos my) ey <= F2R (Z.pos mx) ex)%R ->
  let r := SFsub prec emax (S754_finite false mx ex) (S754_finite false my ey) in
  nonneg_finite r /\ rounds_to (F2R (Z.pos mx) ex - F2R (Z.pos my) ey) (SF2R r).
Proof.
  intros Hx Hle. cbn [SFsub cond_Zopp].
  pose proof (shl_align_spec mx ex (Z.min ex ey)) as [Hex Hmx].
  pose proof (shl_align_spec my ey (Z.min ex ey)) as [Hey Hmy].
  destruct (shl_align mx ex _) as [mx' ex']. destruct (shl_align my ey _) as [my' ey'].
  cbn [fst snd] in *.
  set (ez := Z.min ex ey) in *.
  assert (Hv : F2R (Z.pos mx' - Z.pos my') ez = (F2R (Z.pos mx) ex - F2R (Z.pos my) ey)%R).
  { rewrite <- (F2R_align (Z.pos mx) ex ez), <- (F2R_align (Z.pos my) ey ez) by lia.
    rewrite Hmx, Hmy. replace ex' with ez by lia. replace ey' with ez by lia.
    unfold F2R. rewrite minus_IZR. ring. }
  rewrite <- Hv.
  destruct (Z.pos mx' - Z.pos my') as [|m|m] eqn:EM; cbn [binary_normalize].
  - split; [left; reflexivity|].
    replace (F2R 0 ez) with 0%R by (unfold F2R; ring).
    cbn [SF2R]. apply rounds_to_exact, fmt_0.
  - apply binary_round_pos with (B := F2R (Z.pos mx) ex).
    + apply (valid_fmt mx ex Hx).
    + rewrite Hv. pose proof (SF2R_pos my ey) as Hp. cbn [SF2R cond_Zopp] in Hp. lra.
    + apply (valid_lt_bpow mx ex Hx).
  - exfalso. assert (F2R (Z.neg m) ez < 0)%R.
    { unfold F2R. pose proof (bpow_gt_0 ez).
      assert (IZR (Z.neg m) < 0)%R by (apply IZR_lt; lia). nra. }
    lra.
Qed.

Lemma SFmul_pos mx ex my ey B :
  ex + ey <= fexp (Zdigits2 (Z.pos (mx * my)) + (ex + ey)) ->
  fmt B -> (F2R (Z.pos mx) ex * F2R (Z.pos my) ey <= B)%R -> (B < bpow 1024)%R ->
  let r := SFmul prec emax (S754_finite false mx ex) (S754_finite false my ey) in
  nonneg_finite r /\ rounds_to (F2R (Z.pos mx) ex * F2R (Z.pos my) ey) (SF2R r).
Proof.
  intros Hn HB Hy HB'. cbn [SFmul xorb].
  assert (Hv : F2R (Z.pos (mx * my)) (ex + ey)
               = (F2R (Z.pos mx) ex * F2R (Z.pos my) ey)%R).
  { unfold F2R. rewrite Pos2Z.inj_mul, mult_IZR, bpow_plus. ring. }
  rewrite <- Hv in *.
  apply binary_round_aux_finite with (B := B); try assumption; [lia|reflexivity].
Qed.

(** Multiplication by [2**14 = 16384.0], whose mantissa is [2^52] at
    exponent [-38]. *)
Lemma SFmul_16384_pos mx ex B :
  fmt B -> (F2R (Z.pos mx) ex * 16384 <= B)%R -> (B < bpow 1024)%R ->
  let r := SFmul prec emax (S754_finite false mx ex) (Prim2SF 16384) in
  nonneg_finite r /\ rounds_to (F2R (Z.pos mx) ex * 16384) (SF2R r).
Proof.
  intros HB Hy HB'.
  change (Prim2SF 16384) with (S754_finite false 4503599627370496 (-38)).
  assert (H14 : F2R (Z.pos 4503599627370496) (-38) = 16384%R).
  { change (Z.pos 4503599627370496) with (2 ^ 52). rewrite F2R_bpow by lia.
    change (52 + -38) with 14. rewrite <- IZR_pow2 by lia. reflexivity. }
  rewrite <- H14 in *.
  apply SFmul_pos with (B := B); try assumption.
  rewrite Pos2Z.inj_mul. change (Z.pos 4503599627370496) with (2 ^ 52).
  rewrite Zdigits2_shift by lia. cbn [Zdigits2]. rewrite fexp_spec. lia.
Qed.

(** *** Binary64: division *)
Lemma new_location_spec my r q e' :
  0 < my -> 0 <= r < my ->
  inbetween q e' (new_location my r)
    (F2R q e' + IZR r / IZR my * bpow e')%R.
Proof.
  intros Hmy Hr. pose proof (bpow_gt_0 e') as Hb.
  assert (Hmy' : (0 < IZR my)%R) by (apply IZR_lt; lia).
  set (t := (IZR r / IZR my)%R).
  assert (Ht : (t * IZR my = IZR r)%R) by (unfold t; field; lra).
  assert (Ht1 : (t < 1)%R).
  { apply Rmult_lt_reg_r with (IZR my); [exact Hmy'|].
    rewrite Ht, Rmult_1_l. apply IZR_lt. lia. }
  assert (Hcmp : forall c, (2 * r ?= my) = c -> cmp_R c t (1 / 2)%R).
  { intros c Hc. destruct c; cbn [cmp_R].
    - apply Z.compare_eq in Hc. apply (f_equal IZR) in Hc.
      rewrite mult_IZR in Hc. nra.
    - apply Z.compare_lt_iff, IZR_lt in Hc. rewrite mult_IZR in Hc. nra.
    - apply Z.compare_gt_iff, IZR_lt in Hc. rewrite mult_IZR in Hc. nra. }
  assert (Hex : r = 0 -> (F2R q e' + t * bpow e')%R = F2R q e').
  { intros ->. assert (t = 0%R) as -> by (unfold t; field; lra). ring. }
  assert (Hin : r <> 0 -> (F2R q e' < F2R q e' + t * bpow e' < F2R (q + 1) e')%R).
  { intros Hne. rewrite F2R_succ.
    assert (Ht0 : (0 < t)%R); [|nra].
    apply Rmult_lt_reg_r with (IZR my); [exact Hmy'|].
    rewrite Ht, Rmult_0_l. apply IZR_lt. lia. }
  unfold new_location.
  destruct (Z.even my) eqn:Even; unfold new_location_even, new_location_odd;
    (destruct (Z.eqb_spec r 0) as [E|Hne]; cbn [inbetween];
     [exact (Hex E) | split; [exact (Hin Hne)|]]).
  - specialize (Hcmp _ eq_refl).
    destruct (2 * r ?= my); cbn [cmp_R] in *; nra.
  - assert (Hodd : 2 * r <> my).
    { intros <-. rewrite Z.even_mul in Even. discriminate. }
    destruct (2 * r + 1 ?= my) eqn:C.
    + apply Z.compare_eq in C.
      specialize (Hcmp Lt ltac:(apply Z.compare_lt_iff; lia)). cbn [cmp_R] in *. nra.
    + rewrite Z.compare_lt_iff in C.
      specialize (Hcmp Lt ltac:(apply Z.compare_lt_iff; lia)). cbn [cmp_R] in *. nra.
    + rewrite Z.compare_gt_iff in C.
      specialize (Hcmp Gt ltac:(apply Z.compare_gt_iff; lia)). cbn [cmp_R] in *. nra.
Qed.

Lemma pow2_lt_inv a b : 0 <= b -> 2 ^ a < 2 ^ b -> a < b.
Proof.
  intros Hb H. destruct (Z_lt_le_dec a b) as [|Hle]; [assumption|].
  assert (2 ^ b <= 2 ^ a) by (apply Z.pow_le_mono_r; lia). lia.
Qed.

Lemma SFdiv_core_spec mx ex my ey :
  let r := SFdiv_core_binary prec emax (Z.pos mx) ex (Z.pos my) ey in
  let q := fst (fst r) in
  let e' := snd (fst r) in
  0 <= q /\
  inbetween q e' (snd r) (F2R (Z.pos mx) ex / F2R (Z.pos my) ey) /\
  e' <= fexp (Zdigits2 q + e').
Proof.
  unfold SFdiv_core_binary.
  set (d1 := Zdigits2 (Z.pos mx)). set (d2 := Zdigits2 (Z.pos my)).
  set (g := d1 + ex - (d2 + ey)).
  set (e' := Z.min (fexp g) (ex - ey)).
  set (s := ex - ey - e').
  assert (Hs : 0 <= s) by (unfold s, e'; lia).
  set (m' := match s with Z.pos _ => Z.shiftl (Z.pos mx) s | Z0 => Z.pos mx | Z.neg _ => 0 end).
  assert (Hm' : m' = Z.pos mx * 2 ^ s).
  { unfold m'. destruct s as [|p|p]; [lia| |lia]. apply Z.shiftl_mul_pow2. lia. }
  pose proof (Z_div_mod m' (Z.pos my) ltac:(lia)) as Hdiv.
  destruct (Z.div_eucl m' (Z.pos my)) as [q r]. destruct Hdiv as [Hq Hr].
  cbn [fst snd].
  assert (H2s : 0 < 2 ^ s) by (apply Z.pow_pos_nonneg; lia).
  assert (Hq0 : 0 <= q) by nia.
  split; [exact Hq0|].
  pose proof (bpow_gt_0 ey) as Hbey. pose proof (bpow_gt_0 e') as Hbe'.
  assert (Hmy : (0 < IZR (Z.pos my))%R) by (apply IZR_lt; lia).
  split.
  - assert (Hy : (F2R (Z.pos mx) ex / F2R (Z.pos my) ey
                  = F2R q e' + IZR r / IZR (Z.pos my) * bpow e')%R).
    { assert (Hm'' : (IZR (Z.pos mx) * bpow s = IZR (Z.pos my) * IZR q + IZR r)%R).
      { rewrite <- IZR_pow2, <- !mult_IZR, <- plus_IZR by lia. f_equal. lia. }
      unfold F2R. replace ex with (s + e' + ey) by (unfold s; lia).
      rewrite !bpow_plus. field_simplify; [|lra|lra].
      replace (IZR (Z.pos mx) * bpow s * bpow e')%R
        with ((IZR (Z.pos mx) * bpow s) * bpow e')%R by ring.
      rewrite Hm''. field. lra. }
    rewrite Hy. apply new_location_spec; lia.
  - pose proof (Zdigits2_spec (Z.pos mx) ltac:(lia)) as [Hd1 Hd1'].
    pose proof (Zdigits2_spec (Z.pos my) ltac:(lia)) as [Hd2 Hd2'].
    pose proof (Zdigits2_pos (Z.pos mx) ltac:(lia)) as Hd1p.
    pose proof (Zdigits2_pos (Z.pos my) ltac:(lia)) as Hd2p.
    fold d1 in Hd1, Hd1', Hd1p. fold d2 in Hd2, Hd2', Hd2p.
    assert (Hlow : 2 ^ (d1 - 1 + s) <= m').
    { rewrite Hm', Z.pow_add_r by lia. nia. }
    assert (He' : e' <= fexp g) by (unfold e'; lia).
    rewrite fexp_spec in *.
    destruct (Z.eq_dec q 0) as [->|Hqne].
    + cbn [Zdigits2].
      assert (d1 - 1 + s < d2); [|unfold s, g in *; lia].
      apply pow2_lt_inv; lia.
    + destruct (Z_le_gt_dec e' (-1074)) as [|Hgt]; [lia|].
      assert (Hs' : d2 - d1 + 53 <= s) by (unfold s, g in *; lia).
      assert (H52 : 2 ^ 52 < q + 1).
      { assert (2 ^ (d2 + 52) <= 2 ^ (d1 - 1 + s)) by (apply Z.pow_le_mono_r; lia).
        assert (Z.pos my * 2 ^ 52 < 2 ^ (d2 + 52)).
        { rewrite Z.pow_add_r by lia. nia. }
        nia. }
      pose proof (Zdigits2_spec q ltac:(lia)) as [_ Hdq].
      assert (52 < Zdigits2 q); [|lia].
      apply pow2_lt_inv; [|lia].
      pose proof (Zdigits2_pos q ltac:(lia)). lia.
Qed.

Lemma SFdiv_pos mx ex my ey B :
  fmt B -> (F2R (Z.pos mx) ex / F2R (Z.pos my) ey <= B)%R -> (B < bpow 1024)%R ->
  let r := SFdiv prec emax (S754_finite false mx ex) (S754_finite false my ey) in
  nonneg_finite r /\ rounds_to (F2R (Z.pos mx) ex / F2R (Z.pos my) ey) (SF2R r).
Proof.
  intros HB Hy HB'. cbn [SFdiv xorb].
  pose proof (SFdiv_core_spec mx ex my ey) as (Hq & Hin & Hn).
  destruct (SFdiv_core_binary prec emax (Z.pos mx) ex (Z.pos my) ey) as [[q e'] l].
  cbn [fst snd] in *.
  apply binary_round_aux_finite with (B := B); assumption.
Qed.

(** *** Binary64: comparisons *)

Lemma SFleb_finite_le m1 e1 m2 e2 :
  valid_binary (S754_finite false m1 e1) = true ->
  valid_binary (S754_finite false m2 e2) = true ->
  SFleb (S754_finite false m1 e1) (S754_finite false m2 e2) = true ->
  (F2R (Z.pos m1) e1 <= F2R (Z.pos m2) e2)%R.
Proof.
  intros H1 H2. unfold SFleb, SFcompare.
  destruct (Z.compare_spec e1 e2) as [->|Hlt|Hgt].
  - change (Pos.compare_cont Eq m1 m2) with (Pos.compare m1 m2).
    destruct (Pos.compare_spec m1 m2) as [->|Hl|Hg]; intros H; try discriminate H.
    + lra.
    + apply F2R_le. lia.
  - intros _. apply Rlt_le, valid_exponent_le; assumption.
  - discriminate.
Qed.

Lemma SFltb_zero b :
  SFltb (S754_zero false) b = true ->
  b = S754_infinity false \/ exists m e, b = S754_finite false m e.
Proof.
  unfold SFltb, SFcompare. destruct b as [s|s| |s m e]; try destruct s; try discriminate.
  - auto.
  - eauto.
Qed.

Lemma SFleb_from_finite m e b :
  SFleb (S754_finite false m e) b = true ->
  b = S754_infinity false \/ exists m' e', b = S754_finite false m' e'.
Proof.
  unfold SFleb, SFcompare. destruct b as [s|s| |s m' e']; try destruct s; try discriminate.
  - auto.
  - eauto.
Qed.

Lemma SFleb_from_infinity b :
  SFleb (S754_infinity false) b = true -> b = S754_infinity false.
Proof.
  unfold SFleb, SFcompare. destruct b as [s|s| |s m' e']; try destruct s; try discriminate.
  reflexivity.
Qed.

Lemma Prim2SF_valid_finite x m e :
  Prim2SF x = S754_finite false m e -> valid_binary (S754_finite false m e) = true.
Proof. intros <-. apply Prim2SF_valid. Qed.

(** [0 < v1 <= v2 <= c] for a finite positive [c] makes [v1] and [v2]
    finite and positive, in the same order as real numbers. *)
Lemma float_range v1 v2 c mc ec :
  Prim2SF c = S754_finite false mc ec ->
  (0 <? v1)%float = true -> (v1 <=? v2)%float = true -> (v2 <=? c)%float = true ->
  exists m1 e1 m2 e2,
    Prim2SF v1 = S754_finite false m1 e1 /\
    Prim2SF v2 = S754_finite false m2 e2 /\
    (F2R (Z.pos m1) e1 <= F2R (Z.pos m2) e2 <= F2R (Z.pos mc) ec)%R.
Proof.
  intros Hc. rewrite ltb_spec, !leb_spec, Hc.
  change (Prim2SF 0) with (S754_zero false).
  intros H0 H12 H2c.
  assert (Hfin2 : exists m2 e2, Prim2SF v2 = S754_finite false m2 e2).
  { apply SFltb_zero in H0 as [E1|(m1 & e1 & E1)]; rewrite E1 in H12.
    - apply SFleb_from_infinity in H12. rewrite H12 in H2c. discriminate H2c.
    - apply SFleb_from_finite in H12 as [E2|E2]; [|exact E2].
      rewrite E2 in H2c. discriminate H2c. }
  destruct Hfin2 as (m2 & e2 & E2). rewrite E2 in H12, H2c.
  apply SFltb_zero in H0 as [E1|(m1 & e1 & E1)]; rewrite E1 in H12.
  - discriminate H12.
  - exists m1, e1, m2, e2. split; [exact E1|]. split; [exact E2|].
    pose proof (Prim2SF_valid_finite _ _ _ E1). pose proof (Prim2SF_valid_finite _ _ _ E2).
    pose proof (Prim2SF_valid_finite _ _ _ Hc).
    split; apply SFleb_finite_le; assumption.
Qed.

(** *** Binary64: values of floats *)
Lemma nonneg_finite_val a :
  nonneg_finite (Prim2SF a) -> fmt (val a) /\ (0 <= val a < bpow 1024)%R.
Proof.
  unfold val. intros [E|(m & e & E)]; rewrite E.
  - cbn [SF2R]. split; [apply fmt_0|]. pose proof (bpow_gt_0 1024). lra.
  - pose proof (Prim2SF_valid_finite _ _ _ E) as Hv.
    split; [apply valid_fmt, Hv|].
    pose proof (SF2R_pos m e). pose proof (valid_lt_bpow m e Hv). lra.
Qed.

Lemma nonneg_finite_val_eq a b :
  nonneg_finite (Prim2SF a) -> nonneg_finite (Prim2SF b) -> val a = val b -> a = b.
Proof.
  unfold val. intros [Ea|(ma & ea & Ea)] [Eb|(mb & eb & Eb)] H;
    apply Prim2SF_inj; rewrite Ea, Eb in *.
  - reflexivity.
  - pose proof (SF2R_pos mb eb). change (SF2R (S754_zero false)) with 0%R in H. lra.
  - pose proof (SF2R_pos ma ea). change (SF2R (S754_zero false)) with 0%R in H. lra.
  - destruct (valid_unique ma ea mb eb) as [-> ->].
    + rewrite <- Ea. apply Prim2SF_valid.
    + rewrite <- Eb. apply Prim2SF_valid.
    + exact H.
    + reflexivity.
Qed.

(** *** Binary64: the three operations of the formula *)
Lemma val_3_546 : val 3.546 = F2R 7984882139327889 (-51).
Proof. reflexivity. Qed.

Lemma val_2_601 : val 2.601 = F2R 5856931315395330 (-51).
Proof. reflexivity. Qed.

Lemma val_2_601_ge_1 : (1 <= val 2.601)%R.
Proof.
  rewrite val_2_601. rewrite <- bpow_0. change 0 with (51 + -51).
  rewrite <- F2R_bpow by lia. apply F2R_le. lia.
Qed.

Lemma val_3_546_le_4 : (val 3.546 <= 4)%R.
Proof.
  rewrite val_3_546. replace 4%R with (bpow (53 + -51)).
  - rewrite <- F2R_bpow by lia. apply F2R_le. lia.
  - change (53 + -51) with 2. rewrite <- IZR_pow2 by lia. reflexivity.
Qed.

Lemma sub_step v mv ev :
  Prim2SF v = S754_finite false mv ev -> (val v <= val 3.546)%R ->
  nonneg_finite (Prim2SF (3.546 - v)) /\
  rounds_to (val 3.546 - val v) (val (3.546 - v)).
Proof.
  intros Hv Hle. unfold val in *. rewrite sub_spec, Hv in *.
  change (Prim2SF 3.546) with (S754_finite false 7984882139327889 (-51)) in *.
  apply SFsub_pos; [reflexivity|exact Hle].
Qed.

Lemma div_step x :
  nonneg_finite (Prim2SF x) ->
  nonneg_finite (Prim2SF (x / 2.601)) /\
  rounds_to (val x / val 2.601) (val (x / 2.601)).
Proof.
  intros Hx. pose proof (nonneg_finite_val x Hx) as (Hf & H0 & H1).
  pose proof val_2_601_ge_1 as Hd.
  unfold val in *. rewrite div_spec.
  change (Prim2SF 2.601) with (S754_finite false 5856931315395330 (-51)) in *.
  destruct Hx as [E|(m & e & E)]; rewrite E in *.
  - cbn [SFdiv xorb SF2R]. split; [left; reflexivity|].
    replace (0 / _)%R with 0%R by (unfold Rdiv; ring).
    apply rounds_to_exact, fmt_0.
  - apply SFdiv_pos with (B := SF2R (S754_finite false m e)); [exact Hf| |exact H1].
    cbn [SF2R cond_Zopp] in *.
    assert (/ F2R 5856931315395330 (-51) <= 1)%R.
    { rewrite <- Rinv_1. apply Rinv_le_contravar; lra. }
    unfold Rdiv. nra.
Qed.

Lemma mul_step q :
  nonneg_finite (Prim2SF q) -> (val q <= 4)%R ->
  nonneg_finite (Prim2SF (q * 16384)) /\
  rounds_to (val q * 16384) (val (q * 16384)).
Proof.
  intros Hq Hle. unfold val in *. rewrite mul_spec.
  destruct Hq as [E|(m & e & E)]; rewrite E in *.
  - change (Prim2SF 16384) with (S754_finite false 4503599627370496 (-38)).
    cbn [SFmul xorb SF2R]. split; [left; reflexivity|].
    rewrite Rmult_0_l. apply rounds_to_exact, fmt_0.
  - apply SFmul_16384_pos with (B := bpow 16).
    + apply fmt_bpow. lia.
    + cbn [SF2R cond_Zopp] in Hle. rewrite <- IZR_pow2 by lia.
      change (2 ^ 16) with 65536. lra.
    + apply bpow_lt. lia.
Qed.

(** A step that rounds a strictly increasing function of its argument is
    monotone on floats. *)
Lemma step_mono (F : float -> float) (phi : R -> R) (P : float -> Prop) :
  (forall a, nonneg_finite (Prim2SF a) -> P a ->
     nonneg_finite (Prim2SF (F a)) /\ rounds_to (phi (val a)) (val (F a))) ->
  (forall s t, (s < t)%R -> (phi s < phi t)%R) ->
  forall a b, nonneg_finite (Prim2SF a) -> nonneg_finite (Prim2SF b) -> P a -> P b ->
    (val a <= val b)%R -> (val (F a) <= val (F b))%R.
Proof.
  intros HF Hphi a b Ha Hb Pa Pb Hle.
  destruct (Rle_lt_or_eq_dec _ _ Hle) as [Hlt|Heq].
  - destruct (HF a Ha Pa) as [_ Ra]. destruct (HF b Hb Pb) as [_ Rb].
    eapply rounds_to_mono; [exact Ra|exact Rb|]. apply Hphi, Hlt.
  - rewrite (nonneg_finite_val_eq a b Ha Hb Heq). lra.
Qed.

(** *** Binary64: int() of a non-negative float *)
Lemma floor_shiftl (M e : Z) :
  (IZR (Z.shiftl M e) <= F2R M e < IZR (Z.shiftl M e) + 1)%R.
Proof.
  destruct (Z_le_gt_dec 0 e) as [He|He].
  - rewrite Z.shiftl_mul_pow2 by lia.
    replace (F2R M e) with (IZR (M * 2 ^ e)).
    + lra.
    + rewrite <- (Z.add_0_l e) at 2. rewrite <- F2R_shift by lia.
      unfold F2R. rewrite bpow_0. ring.
  - rewrite Z.shiftl_div_pow2 by lia.
    set (k := - e). assert (Hk : 0 < k) by (unfold k; lia).
    assert (H2k : 0 < 2 ^ k) by (apply Z.pow_pos_nonneg; lia).
    pose proof (Z_div_mod_eq_full M (2 ^ k)) as Hdm.
    pose proof (Z.mod_pos_bound M (2 ^ k) H2k) as Hr.
    set (q := M / 2 ^ k) in *. set (r := M mod 2 ^ k) in *.
    assert (Hv : F2R M e = (IZR q + IZR r * bpow e)%R).
    { unfold F2R. rewrite Hdm, plus_IZR, mult_IZR, IZR_pow2 by lia.
      assert (Hke : (bpow k * bpow e = 1)%R).
      { rewrite <- bpow_plus. replace (k + e) with 0 by (unfold k; lia). apply bpow_0. }
      replace ((bpow k * IZR q + IZR r) * bpow e)%R
        with (IZR q * (bpow k * bpow e) + IZR r * bpow e)%R by ring.
      rewrite Hke. ring. }
    rewrite Hv. pose proof (bpow_gt_0 e) as Hb.
    assert (0 <= IZR r * bpow e < 1)%R; [|lra].
    split.
    + apply Rmult_le_pos; [apply IZR_le; lia|lra].
    + assert (IZR r < bpow k)%R.
      { rewrite <- IZR_pow2 by lia. apply IZR_lt. lia. }
      assert (bpow k * bpow e = 1)%R.
      { rewrite <- bpow_plus. replace (k + e) with 0 by (unfold k; lia). apply bpow_0. }
      nra.
Qed.

(** ** The elaboration monad *)

Lemma bind_ok {A B} (a : A) (k : A -> py B) : (mret a ≫= k) = k a.
Proof. unfold mbind, py_bind, bind, mret, py_ret, ret. destruct (k a). reflexivity. Qed.

Lemma bind_lift_ok {A B} (a : A) (k : A -> py B) : (lift (Ok a) ≫= k) = k a.
Proof. apply bind_ok. Qed.

Lemma bind_raise {A B} (e : exn) (k : A -> py B) : (raise e ≫= k) = raise e.
Proof. reflexivity. Qed.

Lemma bind_lift_raise {A B} (e : exn) (k : A -> py B) : (lift (Raise e) ≫= k) = raise e.
Proof. reflexivity. Qed.

Lemma bind_returned {A B} (c : py A) (k : A -> py B) (l : list string) (b : B) :
  (c ≫= k) = (l, Ok b) ->
  exists l1 a l2, c = (l1, Ok a) /\ k a = (l2, Ok b) /\ l = l1 ++ l2.
Proof.
  unfold mbind, py_bind, bind. destruct c as [l1 [a|e]]; [|discriminate].
  destruct (k a) as [l2 r] eqn:Hk. intros H. injection H as <- ->.
  exists l1, a, l2. auto.
Qed.

(** ** The PWM hardware *)

Section Pwm.
Variables (pins : VccioPins) (l0 l1 l2 : Z).

Let m := pwm_module pins l0 l1 l2.

Lemma pwm_pdm_value (rho : env) (i : N) :
  (i < 3)%N ->
  comb_value m rho (Bit (Sig (pdm pins)) i)
  = Some (if rho pwm_timer <? nth_limit l0 l1 l2 i then 1 else 0).
Proof.
  intros Hi. unfold comb_value, m, pwm_module, d_comb, driver.
  assert (i = 0 \/ i = 1 \/ i = 2)%N as [-> | [-> | ->]] by lia;
    repeat (case_decide; simplify_eq); simpl;
    destruct (rho pwm_timer <? _); reflexivity.
Qed.

Lemma pwm_en_value (rho : env) :
  (0 < signal_width (en pins))%N -> comb_value m rho (Sig (en pins)) = Some 1.
Proof.
  intros Hw. unfold comb_value, m, pwm_module, d_comb, driver.
  repeat (case_decide; simplify_eq). simpl. f_equal.
  apply Z.mod_small. split; [lia|].
  apply (Z.pow_gt_1 2); lia.
Qed.

Lemma pwm_timer_step (rho : env) :
  sync_step m rho pwm_timer = (rho pwm_timer + 1) mod 2 ^ 14.
Proof.
  unfold sync_step, m, pwm_module, d_sync, driver.
  case_decide; [|congruence]. reflexivity.
Qed.

Lemma pwm_timer_step_in_range (rho : env) : timer_in_range (sync_step m rho).
Proof. unfold timer_in_range. rewrite pwm_timer_step. apply Z.mod_pos_bound. lia. Qed.

Lemma pwm_run_timer (n : nat) (rho : env) :
  run m n rho pwm_timer = (rho pwm_timer + Z.of_nat n) mod 2 ^ 14 \/ n = O.
Proof.
  destruct n as [|n]; [right; reflexivity|left].
  revert rho. induction n as [|n IH]; intros rho.
  - simpl run. rewrite pwm_timer_step. reflexivity.
  - change (run m (S (S n)) rho) with (run m (S n) (sync_step m rho)).
    rewrite IH, pwm_timer_step, Zplus_mod_idemp_l. f_equal. lia.
Qed.

End Pwm.

Lemma high_ticks_app (m : Module) (lhs : value) (n1 n2 : nat) (rho : env) :
  high_ticks m lhs (n1 + n2) rho
  = high_ticks m lhs n1 rho + high_ticks m lhs n2 (run m n1 rho).
Proof.
  revert rho. induction n1 as [|n1 IH]; intros rho; simpl.
  - reflexivity.
  - rewrite IH. lia.
Qed.

Lemma below_step (t c n : Z) :
  0 <= n -> below t c (n + 1) = (if c <? t then 1 else 0) + below t (c + 1) n.
Proof. intros Hn. unfold below. destruct (Z.ltb_spec c t); lia. Qed.

Section PwmDuty.
Variables (pins : VccioPins) (l0 l1 l2 : Z) (i : N).
Hypothesis Hi : (i < 3)%N.

Let m := pwm_module pins l0 l1 l2.
Let out := Bit (Sig (pdm pins)) i.
Let t := nth_limit l0 l1 l2 i.

Lemma pwm_tick_count (rho : env) :
  (if decide (comb_value m rho out = Some 1) then 1 else 0)
  = (if rho pwm_timer <? t then 1 else 0).
Proof.
  unfold m, out, t. rewrite pwm_pdm_value by exact Hi.
  destruct (rho pwm_timer <? _); case_decide; congruence.
Qed.

(** Within one counter period, before the wrap. *)
Lemma high_ticks_nowrap (n : nat) (rho : env) :
  0 <= rho pwm_timer -> rho pwm_timer + Z.of_nat n <= 2 ^ 14 ->
  high_ticks m out n rho = below t (rho pwm_timer) (Z.of_nat n).
Proof.
  revert rho. induction n as [|n IH]; intros rho Hlo Hhi.
  - simpl. unfold below. lia.
  - cbn [high_ticks]. rewrite pwm_tick_count.
    replace (Z.of_nat (S n)) with (Z.of_nat n + 1) by lia.
    rewrite below_step by lia. f_equal.
    destruct n as [|n'].
    + simpl. unfold below. lia.
    + assert (Hs : sync_step m rho pwm_timer = rho pwm_timer + 1).
      { unfold m. rewrite pwm_timer_step. apply Z.mod_small.
        change (2 ^ 14) with 16384 in *. lia. }
      rewrite IH; rewrite Hs; [reflexivity|lia|lia].
Qed.

(** Over the [2^14] ticks of any full period the output is high on
    [t] ticks, saturating at [0] and at [2^14]. *)
Lemma high_ticks_period (rho : env) :
  timer_in_range rho ->
  high_ticks m out (Z.to_nat (2 ^ 14)) rho = Z.max 0 (Z.min (2 ^ 14) t).
Proof.
  intros Hr. unfold timer_in_range in Hr.
  set (c := rho pwm_timer) in *.
  replace (Z.to_nat (2 ^ 14)) with (Z.to_nat (2 ^ 14 - c) + Z.to_nat c)%nat by lia.
  rewrite high_ticks_app.
  rewrite high_ticks_nowrap by (fold c; lia).
  assert (H0 : run m (Z.to_nat (2 ^ 14 - c)) rho pwm_timer = 0).
  { destruct (pwm_run_timer pins l0 l1 l2 (Z.to_nat (2 ^ 14 - c)) rho) as [H|H].
    - unfold m. rewrite H. fold c. rewrite Z2Nat.id by lia.
      replace (c + (2 ^ 14 - c)) with (2 ^ 14) by lia. apply Z_mod_same_full.
    - lia. }
  rewrite high_ticks_nowrap by (rewrite H0; lia).
  rewrite H0. fold c. unfold below. rewrite !Z2Nat.id by lia.
  change (2 ^ 14) with 16384 in *. lia.
Qed.

End PwmDuty.

(** ** What [VccioCtrl.elaborate] returns *)

Lemma pmod_elaborate (pins : VccioPins) (platform : Platform.t) :
  Pmod02.VccioCtrl.elaborate pins platform = ([], Ok (pwm_module pins 1638 1638 11468)).
Proof. reflexivity. Qed.

Lemma button_elaborate (pins : VccioPins) (platform : Platform.t) :
  Button03.VccioCtrl.elaborate pins platform = ([], Ok (pwm_module pins 1638 1638 11468)).
Proof. reflexivity. Qed.

Section UsbElaborate.
Import Usb04.VccioCtrl.
Variables (pins : VccioPins) (platform : Platform.t).

Lemma usb_elaborate_unconfigured :
  Platform.vccio_voltage platform 0 = None ->
  elaborate pins platform
  = (["VCCIO configuration is required for ULPI USB to function."], Ok Module_new).
Proof. intros H. unfold elaborate. rewrite H. reflexivity. Qed.

Lemma usb_elaborate_configured (v0 v1 v2 : float) (l0 l1 l2 : Z) :
  Platform.vccio_voltage platform 0 = Some v0 ->
  Platform.vccio_voltage platform 1 = Some v1 ->
  Platform.vccio_voltage platform 2 = Some v2 ->
  timer_limit_of_voltage v0 = Ok l0 ->
  timer_limit_of_voltage v1 = Ok l1 ->
  timer_limit_of_voltage v2 = Ok l2 ->
  elaborate pins platform = ([], Ok (pwm_module pins l0 l1 l2)).
Proof.
  intros H0 H1 H2 L0 L1 L2. unfold elaborate, _pwm_timer_limit.
  rewrite H0, H1, H2, L0, L1, L2. reflexivity.
Qed.

Lemma usb_elaborate_missing (v0 : float) (i : nat) :
  Platform.vccio_voltage platform 0 = Some v0 ->
  (i = 1 \/ i = 2)%nat ->
  Platform.vccio_voltage platform i = None ->
  exists e, snd (elaborate pins platform) = Raise e.
Proof.
  intros H0 Hi Hn. unfold elaborate, _pwm_timer_limit. rewrite H0.
  destruct (timer_limit_of_voltage v0) as [l0|e0]; [|eexists; reflexivity].
  rewrite bind_lift_ok.
  destruct Hi as [-> | ->]; rewrite Hn.
  - eexists. reflexivity.
  - destruct (Platform.vccio_voltage platform 1) as [v1|]; [|eexists; reflexivity].
    destruct (timer_limit_of_voltage v1) as [l1|e1]; eexists; reflexivity.
Qed.

End UsbElaborate.

(** ** Strings of frequencies *)

Lemma string_length_app (s t : string) :
  String.length (s +:+ t) = (String.length s + String.length t)%nat.
Proof. induction s as [|a s IH]; simpl; [reflexivity|]. rewrite IH. reflexivity. Qed.

Lemma string_app_inj_r (s1 s2 t : string) : s1 +:+ t = s2 +:+ t -> s1 = s2.
Proof.
  revert s2. induction s1 as [|a s1 IH]; intros s2 H.
  - destruct s2 as [|b s2]; [reflexivity|].
    apply (f_equal String.length) in H.
    rewrite !string_length_app in H. simpl in H. lia.
  - destruct s2 as [|b s2].
    + apply (f_equal String.length) in H.
      rewrite !string_length_app in H. simpl in H. lia.
    + simpl in H. injection H as -> H. f_equal. apply IH, H.
Qed.

Lemma str_float_inj (x y : Z) : str_float x = str_float y -> x = y.
Proof. unfold str_float. intros H. apply string_app_inj_r in H. apply (inj pretty), H. Qed.

Section Lookup.
Import Usb04.LunaECP5DomainGenerator.

Lemma pll_params_lookup (f : Z) :
  pll_params_per_freq !! str_float f
  = if supported_frequency f
    then Some {[ "CLKFB_DIV" := expected_clkfb_div f ]}
    else None.
Proof.
  unfold pll_params_per_freq, supported_frequency, expected_clkfb_div.
  case_bool_decide as Hs.
  - destruct Hs as [-> | [-> | ->]]; reflexivity.
  - rewrite lookup_insert_ne.
    2:{ change "62000000.0" with (str_float 62000000).
        intros H%str_float_inj. auto. }
    rewrite lookup_insert_ne.
    2:{ change "60000000.0" with (str_float 60000000).
        intros H%str_float_inj. auto. }
    rewrite lookup_singleton_ne; [reflexivity|].
    change "30000000.0" with (str_float 30000000).
    intros H%str_float_inj. auto.
Qed.

Lemma lookup_pll_params_spec (f : Z) :
  lookup_pll_params (Some f)
  = if supported_frequency f
    then mret {[ "CLKFB_DIV" := expected_clkfb_div f ]}
    else raise (ValueError "Unsupported clock frequency").
Proof.
  unfold lookup_pll_params, str_frequency. rewrite pll_params_lookup.
  destruct (supported_frequency f); reflexivity.
Qed.

Lemma lookup_pll_params_none :
  exists msg, lookup_pll_params None = raise (TypeError msg).
Proof. eexists. reflexivity. Qed.

End Lookup.

(** ** What [create_submodules] returns *)

Section Create.
Import Usb04.LunaECP5DomainGenerator.

Lemma create_submodules_returned self m0 platform log self' m :
  create_submodules self m0 platform = (log, Ok (self', m)) ->
  exists input_clock pll_params clkfb_div pre,
    pll_params_per_freq !! str_frequency (validated_frequency self platform)
      = Some pll_params /\
    pll_params !! "CLKFB_DIV" = Some clkfb_div /\
    m = add_comb (add_submodule pre (EHXPLLL input_clock clkfb_div)) pll_resets /\
    d_comb pre = d_comb m0 /\
    clock_frequencies self'
      = Some (merge_clock_frequencies
                (Platform.DEFAULT_CLOCK_FREQUENCIES_MHZ platform)
                (clock_frequencies self)) /\
    _clock_options self'
      = {[ 60 := _clk_60MHz; 120 := _clk_120MHz; 240 := _clk_240MHz ]}.
Proof.
  unfold create_submodules. intros H.
  apply bind_returned in H as (l1 & [[input_clock f] m1] & l2 & H1 & H2 & ->).
  apply bind_returned in H2 as (l3 & pll_params & l4 & H3 & H4 & ->).
  apply bind_returned in H4 as (l5 & clkfb_div & l6 & H5 & H6 & ->).
  injection H6 as <- <- <-.
  assert (Hf : f = validated_frequency self platform /\ d_comb m1 = d_comb m0).
  { unfold validated_frequency, selected_clock_name.
    destruct (String.eqb _ "OSCG").
    - injection H1 as <- <- <- <-. split; reflexivity.
    - destruct (Platform.request platform _) as [clk|e]; [|discriminate H1].
      rewrite bind_lift_ok in H1. injection H1 as <- <- <- <-.
      split; reflexivity. }
  destruct Hf as [-> Hm1].
  exists input_clock, pll_params, clkfb_div, m1.
  unfold lookup_pll_params in H3.
  destruct (pll_params_per_freq !! _) as [p|] eqn:Hp.
  - injection H3 as <- <-. unfold getitem in H5.
    destruct (p !! "CLKFB_DIV") as [d|]; [|discriminate H5].
    injection H5 as <- <-. repeat split; try reflexivity; assumption.
  - destruct (validated_frequency self platform); discriminate H3.
Qed.

Lemma create_submodules_supported self m0 platform log self' m :
  create_submodules self m0 platform = (log, Ok (self', m)) ->
  exists f input_clock pre,
    validated_frequency self platform = Some f /\
    supported_frequency f = true /\
    m = add_comb (add_submodule pre (EHXPLLL input_clock (expected_clkfb_div f)))
          pll_resets /\
    d_comb pre = d_comb m0.
Proof.
  intros H.
  apply create_submodules_returned in H
    as (clk & params & d & pre & Hp & Hd & -> & Hpre & _ & _).
  destruct (validated_frequency self platform) as [f|]; [|discriminate Hp].
  simpl in Hp. rewrite pll_params_lookup in Hp.
  destruct (supported_frequency f) eqn:Hs; [|discriminate Hp].
  injection Hp as <-. rewrite lookup_singleton_eq in Hd. injection Hd as <-.
  exists f, clk, pre. auto.
Qed.

(** On the platform's default clock. *)
Lemma create_submodules_default self m0 platform clk :
  truthy_str (clock_name self) = false ->
  String.eqb (Platform.default_clk platform) "OSCG" = false ->
  Platform.request platform (Platform.default_clk platform) = Ok clk ->
  create_submodules self m0 platform
  = let f := Platform.default_clk_frequency platform in
    if supported_frequency f
    then ([], Ok ({| clock_name := clock_name self;
                     clock_frequency := clock_frequency self;
                     clock_frequencies :=
                       Some (merge_clock_frequencies
                               (Platform.DEFAULT_CLOCK_FREQUENCIES_MHZ platform)
                               (clock_frequencies self));
                     _clock_options :=
                       {[ 60 := _clk_60MHz; 120 := _clk_120MHz; 240 := _clk_240MHz ]} |},
                  add_comb (add_submodule m0 (EHXPLLL clk (expected_clkfb_div f)))
                    pll_resets))
    else ([], Raise (ValueError "Unsupported clock frequency")).
Proof.
  intros Hn Ho Hr. unfold create_submodules. rewrite Hn, Ho, Hr.
  rewrite bind_lift_ok, bind_ok, lookup_pll_params_spec. cbv zeta.
  destruct (supported_frequency _); [|reflexivity].
  rewrite bind_ok. unfold getitem. rewrite lookup_singleton_eq, bind_ok.
  reflexivity.
Qed.

(** With the internal oscillator the frequency looked up is [62.0], which
    has no entry: the table is keyed in Hz. *)
Lemma create_submodules_oscg self m0 platform :
  clock_name self = Some "OSCG" ->
  snd (create_submodules self m0 platform)
  = Raise (ValueError "Unsupported clock frequency").
Proof. intros H. unfold create_submodules. rewrite H. reflexivity. Qed.

Lemma merge_clock_frequencies_lookup (defaults : gmap string Z)
    (overrides : option (gmap string Z)) (k : string) :
  merge_clock_frequencies defaults overrides !! k
  = match overrides ≫= (fun o => o !! k) with
    | Some v => Some v
    | None => defaults !! k
    end.
Proof.
  unfold merge_clock_frequencies, truthy_dict.
  destruct overrides as [o|]; simpl; [|reflexivity].
  case_bool_decide as He; simpl.
  - subst o. rewrite lookup_empty. reflexivity.
  - rewrite lookup_union. destruct (o !! k), (defaults !! k); reflexivity.
Qed.

Lemma clock_option_spec self (f : Z) :
  _clock_options self = {[ 60 := _clk_60MHz; 120 := _clk_120MHz; 240 := _clk_240MHz ]} ->
  clock_option self f
  = if decide (f = 60) then mret _clk_60MHz
    else if decide (f = 120) then mret _clk_120MHz
    else if decide (f = 240) then mret _clk_240MHz
    else raise (KeyError (pretty f)).
Proof.
  intros H. unfold clock_option. rewrite H.
  repeat case_decide; subst; try reflexivity.
  rewrite !lookup_insert_ne, lookup_singleton_ne by congruence. reflexivity.
Qed.

End Create.

Lemma pll_resets_value (pre : Module) (clk : Instance) (domain : string) :
  d_comb pre = [] -> domain = "sync" \/ domain = "fast" ->
  reset_follows_lock (add_comb (add_submodule pre clk) pll_resets) domain.
Proof.
  intros Hpre Hd rho lock Hlock.
  unfold comb_value, add_comb, add_submodule, d_comb at 1. fold (d_comb pre).
  rewrite Hpre. simpl app. unfold pll_resets, driver.
  destruct Hd as [-> | ->]; repeat (case_decide; simplify_eq);
    simpl; rewrite Hlock; destruct lock; reflexivity.
Qed.

Lemma pll_resets_usb (pre : Module) (clk : Instance) (rho : env) :
  d_comb pre = [] ->
  comb_value (add_comb (add_submodule pre clk) pll_resets) rho (Sig (ResetSignal "usb"))
  = None.
Proof.
  intros Hpre.
  unfold comb_value, add_comb, add_submodule, d_comb at 1. fold (d_comb pre).
  rewrite Hpre. reflexivity.
Qed.

(** ** Clock domains and resets *)

Section Domains.
Import Usb04.LunaECP5DomainGenerator.

(** C1, amended: [create_submodules] drives the resets of the "sync" and
    "fast" domains, each with the negation of the PLL lock, combinationally:
    during every tick the reset is 1 exactly when the lock is 0.  It assigns
    no reset to the "usb" domain. *)
Theorem C1_sync_fast_reset_is_not_lock self platform log self' m :
  create_submodules self Module_new platform = (log, Ok (self', m)) ->
  reset_follows_lock m "sync" /\
  reset_follows_lock m "fast" /\
  (forall rho, comb_value m rho (Sig (ResetSignal "usb")) = None).
Proof.
  intros H.
  apply create_submodules_returned in H
    as (clk & params & d & pre & _ & _ & -> & Hpre & _ & _).
  simpl in Hpre. split; [|split].
  - apply pll_resets_value; auto.
  - apply pll_resets_value; auto.
  - intros rho. apply pll_resets_usb, Hpre.
Qed.

Lemma C1_sync_fast_reset_is_not_lock_witness :
  exists self' m,
    create_submodules (__init__ None None) Module_new (ButterStickPlatform (fun _ => None))
      = ([], Ok (self', m)) /\
    reset_follows_lock m "sync" /\
    reset_follows_lock m "fast" /\
    (forall rho, comb_value m rho (Sig (ResetSignal "usb")) = None).
Proof.
  eexists _, _. split; [reflexivity|].
  exact (C1_sync_fast_reset_is_not_lock (__init__ None None)
           (ButterStickPlatform (fun _ => None)) [] _ _ eq_refl).
Defined.

(** C1 as stated (all of "fast", "sync" and "usb") fails on the board's own
    configuration: the "usb" reset has no driver in the generated module. *)
Lemma C1_usb_reset_counterexample :
  exists self' m,
    create_submodules (__init__ None None) Module_new (ButterStickPlatform (fun _ => None))
      = ([], Ok (self', m)) /\
    ~ (forall domain, domain ∈ ["fast"; "sync"; "usb"] -> reset_follows_lock m domain).
Proof.
  eexists _, _. split; [reflexivity|].
  intros H. specialize (H "usb" ltac:(set_solver) (fun _ => 0) false eq_refl).
  discriminate H.
Qed.

End Domains.

Section Selector.
Import Usb04.LunaECP5DomainGenerator.

(** The internal oscillator is a special case: on that path the frequency
    handed to the lookup is [62.0] and not [62000000.0], so that it is
    rejected like any other value without an entry. *)
Lemma oscillator_frequency_rejected :
  validated_frequency (__init__ None (Some "OSCG")) (ButterStickPlatform (fun _ => None))
    = Some 62 /\
  create_submodules (__init__ None (Some "OSCG")) Module_new
      (ButterStickPlatform (fun _ => None))
    = ([ "Using FPGA-internal oscillator for an approximately 62MHz.";
         "USB communication won't work for f_OSC != 60MHz." ],
       Raise (ValueError "Unsupported clock frequency")).
Proof. split; reflexivity. Qed.

(** The table lookup itself, on a frequency given in Hz: the record of the
    matching entry, [ValueError] exactly when there is none. *)
Lemma lookup_pll_params_raises_iff (f : Z) :
  raised (lookup_pll_params (Some f)) = Some (ValueError "Unsupported clock frequency")
  <-> supported_frequency f = false.
Proof.
  rewrite lookup_pll_params_spec. destruct (supported_frequency f); simpl.
  - split; discriminate.
  - split; reflexivity.
Qed.

(** No PLL is instantiated for a frequency without an entry. *)
Lemma create_submodules_unsupported self m0 platform f :
  validated_frequency self platform = Some f ->
  supported_frequency f = false ->
  returned (create_submodules self m0 platform) = None.
Proof.
  intros Hf Hs. destruct (create_submodules self m0 platform) as [log [[self' m]|e]] eqn:H;
    [|reflexivity].
  apply create_submodules_supported in H as (f' & _ & _ & Hf' & Hs' & _).
  congruence.
Qed.

(** C2: for a reference frequency of 30, 60 or 62 MHz (given in Hz) the
    lookup returns the record of the matching table entry, with feedback
    divider 8, 4 and 4; for every other frequency it raises [ValueError],
    and it raises only then.  [create_submodules] performs the lookup before
    it instantiates the PLL: for an unsupported frequency no module is
    returned, and a returned module has the PLL with the divider of the
    entry. *)
Theorem C2_frequency_validation (f : Z) :
  lookup_pll_params (Some f)
    = (if supported_frequency f
       then mret {[ "CLKFB_DIV" := expected_clkfb_div f ]}
       else raise (ValueError "Unsupported clock frequency")) /\
  (supported_frequency f = true <-> f = 30000000 \/ f = 60000000 \/ f = 62000000) /\
  (expected_clkfb_div 30000000 = 8 /\ expected_clkfb_div 60000000 = 4 /\
   expected_clkfb_div 62000000 = 4) /\
  (raised (lookup_pll_params (Some f)) = Some (ValueError "Unsupported clock frequency")
   <-> supported_frequency f = false) /\
  (forall self m0 platform,
     validated_frequency self platform = Some f ->
     supported_frequency f = false ->
     returned (create_submodules self m0 platform) = None) /\
  (forall self m0 platform log self' m,
     validated_frequency self platform = Some f ->
     create_submodules self m0 platform = (log, Ok (self', m)) ->
     supported_frequency f = true /\
     exists input_clock pre,
       m = add_comb (add_submodule pre (EHXPLLL input_clock (expected_clkfb_div f)))
             pll_resets).
Proof.
  split; [apply lookup_pll_params_spec|].
  split; [unfold supported_frequency; apply bool_decide_eq_true|].
  split; [repeat split|].
  split; [apply lookup_pll_params_raises_iff|].
  split.
  - intros self m0 platform. apply create_submodules_unsupported.
  - intros self m0 platform log self' m Hf H.
    apply create_submodules_supported in H as (f' & clk & pre & Hf' & Hs & -> & _).
    assert (f' = f) as -> by congruence. eauto.
Qed.

Lemma C2_frequency_validation_witness :
  let self := __init__ None None in
  let platform := ButterStickPlatform (fun _ => None) in
  let slow : Platform.t :=
    {| Platform.DEFAULT_CLOCK_FREQUENCIES_MHZ := ∅;
       Platform.default_clk := "clk25";
       Platform.default_clk_frequency := 25000000;
       Platform.request := fun name => Ok (Signal name 1);
       Platform.vccio_voltage := fun _ => None |} in
  (exists self' m input_clock pre,
     create_submodules self Module_new platform = ([], Ok (self', m)) /\
     m = add_comb (add_submodule pre (EHXPLLL input_clock (expected_clkfb_div 30000000)))
           pll_resets) /\
  returned (create_submodules self Module_new slow) = None /\
  raised (lookup_pll_params (Some 25000000))
    = Some (ValueError "Unsupported clock frequency").
Proof.
  intros self platform slow. split; [|split].
  - destruct (proj2 (proj2 (proj2 (proj2 (proj2 (C2_frequency_validation 30000000)))))
                self Module_new platform [] _ _ eq_refl eq_refl)
      as (_ & clk & pre & E).
    eexists _, _, clk, pre. split; [reflexivity|exact E].
  - exact (proj1 (proj2 (proj2 (proj2 (proj2 (C2_frequency_validation 25000000)))))
             self Module_new slow eq_refl eq_refl).
  - exact (proj2 (proj1 (proj2 (proj2 (proj2 (C2_frequency_validation 25000000)))))
             eq_refl).
Defined.

(** C5: once [create_submodules] has run, each of [generate_usb_clock],
    [generate_sync_clock] and [generate_fast_clock] returns the PLL tap of
    the frequency selected for its domain when that frequency is 60, 120 or
    240 (MHz), and raises (a [KeyError]) for any other frequency. *)
Theorem C5_domain_frequency_must_be_a_tap self m0 platform log self' m domain f :
  create_submodules self m0 platform = (log, Ok (self', m)) ->
  domain ∈ ["fast"; "sync"; "usb"] ->
  merge_clock_frequencies (Platform.DEFAULT_CLOCK_FREQUENCIES_MHZ platform)
    (clock_frequencies self) !! domain = Some f ->
  (generate_clock domain self' m platform
   = match tap f with
     | Some clk => mret clk
     | None => raise (KeyError (pretty f))
     end) /\
  (tap f = None <-> f <> 60 /\ f <> 120 /\ f <> 240) /\
  tap 60 = Some _clk_60MHz /\ tap 120 = Some _clk_120MHz /\ tap 240 = Some _clk_240MHz.
Proof.
  intros H Hd Hf.
  apply create_submodules_returned in H
    as (_ & _ & _ & _ & _ & _ & _ & _ & Hfs & Hopt).
  split; [|split; [|repeat split]].
  - assert (Hg : generate_clock domain self' m platform
                 = (f' ← clock_frequency_of self' domain; clock_option self' f')).
    { unfold generate_clock. rewrite !elem_of_cons, elem_of_nil in Hd.
      destruct Hd as [-> | [-> | [-> | []]]]; reflexivity. }
    rewrite Hg. unfold clock_frequency_of, getitem. rewrite Hfs, Hf, bind_ok.
    rewrite clock_option_spec by exact Hopt.
    unfold tap. repeat case_decide; reflexivity.
  - unfold tap. repeat case_decide;
      (split; [ intros H'; try discriminate H'; lia
              | intros (Ha & Hb & Hc); first [reflexivity | exfalso; lia] ]).
Qed.

Lemma C5_domain_frequency_must_be_a_tap_witness :
  let self := __init__ (Some {[ "sync" := 100 ]}) None in
  let platform := ButterStickPlatform (fun _ => None) in
  exists self' m,
    create_submodules self Module_new platform = ([], Ok (self', m)) /\
    generate_clock "sync" self' m platform = raise (KeyError "100") /\
    generate_clock "usb" self' m platform = mret _clk_60MHz /\
    generate_clock "fast" self' m platform = mret _clk_240MHz.
Proof.
  intros self platform. eexists _, _. split; [reflexivity|].
  split; [|split].
  - exact (proj1 (C5_domain_frequency_must_be_a_tap self Module_new platform
                    [] _ _ "sync" 100 eq_refl ltac:(set_solver) eq_refl)).
  - exact (proj1 (C5_domain_frequency_must_be_a_tap self Module_new platform
                    [] _ _ "usb" 60 eq_refl ltac:(set_solver) eq_refl)).
  - exact (proj1 (C5_domain_frequency_must_be_a_tap self Module_new platform
                    [] _ _ "fast" 240 eq_refl ltac:(set_solver) eq_refl)).
Defined.

(** C8: the frequencies [create_submodules] stores are the platform's
    defaults overridden key by key: a domain present in the caller's
    mapping gets the caller's value, any other domain keeps the default. *)
Theorem C8_overrides_take_precedence self m0 platform log self' m :
  create_submodules self m0 platform = (log, Ok (self', m)) ->
  exists merged,
    clock_frequencies self' = Some merged /\
    forall domain,
      merged !! domain
      = match clock_frequencies self ≫= (fun o => o !! domain) with
        | Some v => Some v
        | None => Platform.DEFAULT_CLOCK_FREQUENCIES_MHZ platform !! domain
        end.
Proof.
  intros H.
  apply create_submodules_returned in H
    as (_ & _ & _ & _ & _ & _ & _ & _ & Hfs & _).
  eexists. split; [exact Hfs|]. intros domain.
  apply merge_clock_frequencies_lookup.
Qed.

Lemma C8_overrides_take_precedence_witness :
  let self := __init__ (Some {[ "sync" := 60 ]}) None in
  let platform := ButterStickPlatform (fun _ => None) in
  exists merged,
    clock_frequencies
      (fst (default (self, Module_new)
              (returned (create_submodules self Module_new platform))))
      = Some merged /\
    merged !! "sync" = Some 60 /\ merged !! "fast" = Some 240 /\ merged !! "usb" = Some 60.
Proof.
  intros self platform.
  destruct (C8_overrides_take_precedence self Module_new platform [] _ _ eq_refl)
    as (merged & Hm & Hl).
  exists merged. split; [exact Hm|].
  rewrite !Hl. repeat split.
Defined.

End Selector.

(** ** The VCCIO controller *)

Section Vccio.
Import Usb04.VccioCtrl.

Lemma usb_elaborate_returned pins platform log m :
  elaborate pins platform = (log, Ok m) ->
  Platform.vccio_voltage platform 0 <> None ->
  exists l0 l1 l2,
    _pwm_timer_limit platform 0 = ([], Ok l0) /\
    _pwm_timer_limit platform 1 = ([], Ok l1) /\
    _pwm_timer_limit platform 2 = ([], Ok l2) /\
    m = pwm_module pins l0 l1 l2.
Proof.
  unfold elaborate. intros H Hv.
  destruct (Platform.vccio_voltage platform 0) as [v0|] eqn:H0; [clear Hv|congruence].
  apply bind_returned in H as (k0 & l0 & k0' & E0 & H & ->).
  apply bind_returned in H as (k1 & l1 & k1' & E1 & H & ->).
  apply bind_returned in H as (k2 & l2 & k2' & E2 & H & ->).
  injection H as <- <-.
  assert (Hlog : forall i k l, _pwm_timer_limit platform i = (k, Ok l) -> k = []).
  { intros i k l. unfold _pwm_timer_limit.
    destruct (Platform.vccio_voltage platform i); [|discriminate].
    unfold lift. congruence. }
  rewrite (Hlog _ _ _ E0) in E0. rewrite (Hlog _ _ _ E1) in E1.
  rewrite (Hlog _ _ _ E2) in E2.
  exists l0, l1, l2. auto.
Qed.

(** C4, amended: a missing voltage on channel 0 is not an error.
    [elaborate] logs a warning and returns an empty module: no counter, no
    PWM output and no enable is generated, and nothing is raised.  When
    channel 0 is configured but channel 1 or 2 is not, computing that
    channel's threshold raises and no module is returned. *)
Theorem C4_missing_voltage pins platform :
  (Platform.vccio_voltage platform 0 = None ->
   elaborate pins platform
   = (["VCCIO configuration is required for ULPI USB to function."], Ok Module_new)) /\
  (forall i,
     Platform.vccio_voltage platform 0 <> None ->
     (i = 1 \/ i = 2)%nat ->
     Platform.vccio_voltage platform i = None ->
     exists e, snd (elaborate pins platform) = Raise e).
Proof.
  split.
  - apply usb_elaborate_unconfigured.
  - intros i H0 Hi Hn.
    destruct (Platform.vccio_voltage platform 0) as [v0|] eqn:E0; [|congruence].
    eapply usb_elaborate_missing; eauto.
Qed.

Lemma C4_missing_voltage_witness :
  let pins := {| pdm := Signal "pdm" 3; en := Signal "en" 1 |} in
  elaborate pins (ButterStickPlatform (fun _ => None))
  = (["VCCIO configuration is required for ULPI USB to function."], Ok Module_new) /\
  exists e,
    snd (elaborate pins
           (ButterStickPlatform (fun i => if decide (i = 2%nat) then None else Some 3.3%float)))
    = Raise e.
Proof.
  intros pins. split.
  - exact (proj1 (C4_missing_voltage pins (ButterStickPlatform (fun _ => None))) eq_refl).
  - apply (proj2 (C4_missing_voltage pins
                    (ButterStickPlatform
                       (fun i => if decide (i = 2%nat) then None else Some 3.3%float)))
             2%nat).
    + vm_compute. intros H. discriminate H.
    + right. reflexivity.
    + reflexivity.
Defined.

(** C4 as stated fails: with no voltage configured on any channel (the USB
    channel included) elaboration returns normally. *)
Lemma C4_no_error_counterexample :
  ~ (forall pins platform,
       (exists i, (i < 3)%nat /\ Platform.vccio_voltage platform i = None) ->
       exists e, snd (elaborate pins platform) = Raise e).
Proof.
  intros H.
  destruct (H {| pdm := Signal "pdm" 3; en := Signal "en" 1 |}
              (ButterStickPlatform (fun _ => None))) as [e He].
  - exists 2%nat. split; [lia|reflexivity].
  - discriminate He.
Qed.

(** C7: each PDM output is 1 on a tick exactly when the 14-bit counter is
    below the channel's threshold; the counter is the only register, it
    advances by one per tick modulo [2^14]; and over the [2^14] ticks
    that follow any state the output is high on exactly [t] ticks, for every
    threshold [0 <= t < 2^14].  This holds for the controller of
    [04_usb.py] with its computed thresholds and for those of [02_pmod.py]
    and [03_button.py] with their constant ones. *)
Theorem C7_pwm_output_and_duty pins platform log m (i : N) (rho : env) :
  (elaborate pins platform = (log, Ok m) /\ Platform.vccio_voltage platform 0 <> None) \/
  Pmod02.VccioCtrl.elaborate pins platform = (log, Ok m) \/
  Button03.VccioCtrl.elaborate pins platform = (log, Ok m) ->
  (i < 3)%N ->
  exists t,
    driver (d_comb m) (Bit (Sig (pdm pins)) i) = Some (Less (Sig pwm_timer) (Const t)) /\
    comb_value m rho (Bit (Sig (pdm pins)) i)
      = Some (if rho pwm_timer <? t then 1 else 0) /\
    d_sync m = [(Sig pwm_timer, Add (Sig pwm_timer) (Const 1))] /\
    sync_step m rho pwm_timer = (rho pwm_timer + 1) mod 2 ^ 14 /\
    (timer_in_range rho -> 0 <= t < 2 ^ 14 ->
     high_ticks m (Bit (Sig (pdm pins)) i) (Z.to_nat (2 ^ 14)) rho = t).
Proof.
  intros H Hi.
  assert (Hm : exists l0 l1 l2, m = pwm_module pins l0 l1 l2).
  { destruct H as [[H Hv] | [H | H]].
    - apply usb_elaborate_returned in H as (l0 & l1 & l2 & _ & _ & _ & ->); eauto.
    - rewrite pmod_elaborate in H. injection H as _ <-. eauto.
    - rewrite button_elaborate in H. injection H as _ <-. eauto. }
  destruct Hm as (l0 & l1 & l2 & ->).
  exists (nth_limit l0 l1 l2 i). split; [|split; [|split; [|split]]].
  - unfold pwm_module, d_comb, driver.
    assert (i = 0 \/ i = 1 \/ i = 2)%N as [-> | [-> | ->]] by lia;
      repeat (case_decide; simplify_eq); reflexivity.
  - apply pwm_pdm_value, Hi.
  - reflexivity.
  - apply pwm_timer_step.
  - intros Hr Ht. rewrite high_ticks_period by assumption.
    change (2 ^ 14) with 16384 in *. lia.
Qed.

Lemma C7_pwm_output_and_duty_witness :
  let pins := {| pdm := Signal "pdm" 3; en := Signal "en" 1 |} in
  let platform := ButterStickPlatform (fun _ => Some 3.3%float) in
  let m := pwm_module pins 1549 1549 1549 in
  let rho : env := fun _ => 5 in
  elaborate pins platform = ([], Ok m) /\
  exists t,
    driver (d_comb m) (Bit (Sig (pdm pins)) 2) = Some (Less (Sig pwm_timer) (Const t)) /\
    comb_value m rho (Bit (Sig (pdm pins)) 2)
      = Some (if rho pwm_timer <? t then 1 else 0) /\
    d_sync m = [(Sig pwm_timer, Add (Sig pwm_timer) (Const 1))] /\
    sync_step m rho pwm_timer = (rho pwm_timer + 1) mod 2 ^ 14 /\
    (timer_in_range rho -> 0 <= t < 2 ^ 14 ->
     high_ticks m (Bit (Sig (pdm pins)) 2) (Z.to_nat (2 ^ 14)) rho = t).
Proof.
  intros pins platform m rho. split; [reflexivity|].
  apply (C7_pwm_output_and_duty pins platform [] m 2 rho).
  - left. split; [reflexivity|vm_compute; intros H; discriminate H].
  - reflexivity.
Defined.

End Vccio.

(** ** The voltage-to-threshold formula *)

Section Threshold.
Import Usb04.VccioCtrl.

(** [limit_float * 2**14], before [int]. *)
Let product (v : float) : float := (limit_float v * 16384)%float.

Lemma finite_nonneg_finite x m e :
  Prim2SF x = S754_finite false m e -> nonneg_finite (Prim2SF x).
Proof. intros H. right. eauto. Qed.

(** For [0 < v1 <= v2 <= 3.546] every intermediate result is finite and
    non-negative, and the product does not increase with the voltage. *)
Lemma product_antitone v1 v2 :
  (0 <? v1)%float = true -> (v1 <=? v2)%float = true -> (v2 <=? 3.546)%float = true ->
  nonneg_finite (Prim2SF (product v1)) /\
  nonneg_finite (Prim2SF (product v2)) /\
  (val (product v2) <= val (product v1))%R.
Proof.
  intros H0 H12 H2c.
  destruct (float_range v1 v2 3.546 7984882139327889 (-51) eq_refl H0 H12 H2c)
    as (m1 & e1 & m2 & e2 & E1 & E2 & Hle1 & Hle2).
  assert (V1 : val v1 = F2R (Z.pos m1) e1) by (unfold val; rewrite E1; reflexivity).
  assert (V2 : val v2 = F2R (Z.pos m2) e2) by (unfold val; rewrite E2; reflexivity).
  rewrite <- V1, <- V2, <- val_3_546 in *.
  destruct (sub_step v1 m1 e1 E1 ltac:(lra)) as [Nx1 Rx1].
  destruct (sub_step v2 m2 e2 E2 ltac:(lra)) as [Nx2 Rx2].
  set (x1 := (3.546 - v1)%float) in *. set (x2 := (3.546 - v2)%float) in *.
  (* the difference *)
  assert (Hx : (val x2 <= val x1)%R).
  { destruct (Rle_lt_or_eq_dec _ _ Hle1) as [Hlt|Heq].
    - eapply rounds_to_mono; [exact Rx2|exact Rx1|lra].
    - assert (v1 = v2) as Hv.
      { apply nonneg_finite_val_eq; [eapply finite_nonneg_finite; eauto..|exact Heq]. }
      unfold x1, x2. rewrite Hv. lra. }
  assert (Hc : fmt (val 3.546)).
  { apply nonneg_finite_val. right. eexists _, _. reflexivity. }
  assert (Bx : forall v x, rounds_to (val 3.546 - val v) (val x) ->
                           (0 <= val v)%R -> (val x <= 4)%R).
  { intros v x Hr Hv. pose proof val_3_546_le_4.
    pose proof (rounds_to_le_fmt _ _ _ Hr Hc ltac:(lra)). lra. }
  assert (P1 : (0 <= val v1)%R).
  { rewrite V1. pose proof (SF2R_pos m1 e1) as Hp. cbn [SF2R cond_Zopp] in Hp. lra. }
  pose proof (Bx v1 x1 Rx1 P1) as Bx1.
  pose proof (Bx v2 x2 Rx2 ltac:(lra)) as Bx2.
  (* the quotient *)
  pose proof val_2_601_ge_1 as Hd.
  assert (Hq : (val (x2 / 2.601) <= val (x1 / 2.601))%R).
  { apply (step_mono (fun x => (x / 2.601)%float) (fun s => (s / val 2.601)%R)
             (fun _ => True)); try assumption; try exact I.
    - intros a Ha _. apply div_step, Ha.
    - intros s t Hst. unfold Rdiv. apply Rmult_lt_compat_r; [|exact Hst].
      apply Rinv_0_lt_compat. lra. }
  destruct (div_step x1 Nx1) as [Nq1 Rq1]. destruct (div_step x2 Nx2) as [Nq2 Rq2].
  set (q1 := (x1 / 2.601)%float) in *. set (q2 := (x2 / 2.601)%float) in *.
  assert (Bq : forall x q, nonneg_finite (Prim2SF x) ->
                 rounds_to (val x / val 2.601) (val q) -> (val x <= 4)%R -> (val q <= 4)%R).
  { intros x q Nx Hr Hx4. destruct (nonneg_finite_val x Nx) as (Fx & Hx0 & _).
    assert (val x / val 2.601 <= val x)%R.
    { assert (/ val 2.601 <= 1)%R.
      { rewrite <- Rinv_1. apply Rinv_le_contravar; lra. }
      unfold Rdiv. nra. }
    pose proof (rounds_to_le_fmt _ _ _ Hr Fx ltac:(lra)). lra. }
  pose proof (Bq x1 q1 Nx1 Rq1 Bx1) as Bq1.
  pose proof (Bq x2 q2 Nx2 Rq2 Bx2) as Bq2.
  (* the product *)
  destruct (mul_step q1 Nq1 Bq1) as [Np1 _]. destruct (mul_step q2 Nq2 Bq2) as [Np2 _].
  split; [exact Np1|]. split; [exact Np2|].
  apply (step_mono (fun q => (q * 16384)%float) (fun s => (s * 16384)%R)
           (fun q => (val q <= 4)%R)); try assumption.
  - intros a Ha Ha4. apply mul_step; assumption.
  - intros s t Hst. lra.
Qed.

(** [int] of a finite non-negative float is its floor. *)
Lemma py_int_nonneg p :
  nonneg_finite (Prim2SF p) ->
  exists t, py_int p = Ok t /\ py_floor p = Ok t /\ 0 <= t /\
            (IZR t <= val p < IZR t + 1)%R.
Proof.
  unfold py_int, py_floor, val. intros [E|(m & e & E)]; rewrite E.
  - exists 0. cbn [SF2R]. repeat split; try reflexivity; lra.
  - exists (Z.shiftl (Z.pos m) e). cbn [cond_Zopp SF2R].
    split; [reflexivity|]. split; [reflexivity|].
    split; [apply Z.shiftl_nonneg; lia|]. apply floor_shiftl.
Qed.

Lemma timer_limit_antitone v1 v2 :
  (0 <? v1)%float = true -> (v1 <=? v2)%float = true -> (v2 <=? 3.546)%float = true ->
  exists t1 t2,
    timer_limit_of_voltage v1 = Ok t1 /\
    timer_limit_of_voltage v2 = Ok t2 /\
    0 <= t2 <= t1.
Proof.
  intros H0 H12 H2c.
  destruct (product_antitone v1 v2 H0 H12 H2c) as (N1 & N2 & Hle).
  destruct (py_int_nonneg _ N1) as (t1 & E1 & _ & _ & Hf1).
  destruct (py_int_nonneg _ N2) as (t2 & E2 & _ & Hp2 & Hf2).
  exists t1, t2. split; [exact E1|]. split; [exact E2|]. split; [exact Hp2|].
  assert (IZR t2 < IZR t1 + 1)%R by lra.
  rewrite <- plus_IZR in H. apply lt_IZR in H. lia.
Qed.

End Threshold.

(** ** Voltages at or above the intercept *)

Lemma binary_round_aux_sign sx m e l :
  match binary_round_aux prec emax sx m e l with
  | S754_zero s | S754_finite s _ _ | S754_infinity s => s = sx
  | S754_nan => True
  end.
Proof.
  unfold binary_round_aux.
  destruct (shr_fexp prec emax m e l) as [mrs' e'].
  destruct (shr_fexp prec emax _ e' loc_Exact) as [mrs'' e''].
  destruct (shr_m mrs''); [reflexivity| |exact I].
  destruct (e'' <=? emax - prec); reflexivity.
Qed.

Lemma binary_round_aux_nonpos m e l : nonpos_SF (binary_round_aux prec emax true m e l).
Proof.
  pose proof (binary_round_aux_sign true m e l) as H.
  destruct (binary_round_aux prec emax true m e l); try subst; exact I.
Qed.

Lemma SFsub_nonpos mx ex my ey :
  (F2R (Z.pos mx) ex <= F2R (Z.pos my) ey)%R ->
  nonpos_SF (SFsub prec emax (S754_finite false mx ex) (S754_finite false my ey)).
Proof.
  intros Hle. cbn [SFsub cond_Zopp].
  pose proof (shl_align_spec mx ex (Z.min ex ey)) as [Hex Hmx].
  pose proof (shl_align_spec my ey (Z.min ex ey)) as [Hey Hmy].
  destruct (shl_align mx ex _) as [mx' ex']. destruct (shl_align my ey _) as [my' ey'].
  cbn [fst snd] in *.
  set (ez := Z.min ex ey) in *.
  assert (Hv : F2R (Z.pos mx' - Z.pos my') ez = (F2R (Z.pos mx) ex - F2R (Z.pos my) ey)%R).
  { rewrite <- (F2R_align (Z.pos mx) ex ez), <- (F2R_align (Z.pos my) ey ez) by lia.
    rewrite Hmx, Hmy. replace ex' with ez by lia. replace ey' with ez by lia.
    unfold F2R. rewrite minus_IZR. ring. }
  destruct (Z.pos mx' - Z.pos my') as [|m|m] eqn:EM; cbn [binary_normalize].
  - exact I.
  - exfalso. pose proof (SF2R_pos m ez) as Hp. cbn [SF2R cond_Zopp] in Hp. lra.
  - unfold binary_round. destruct (shl_align m ez _) as [mz ez'].
    apply binary_round_aux_nonpos.
Qed.

Lemma SFdiv_nonpos x md ed :
  nonpos_SF x -> nonpos_SF (SFdiv prec emax x (S754_finite false md ed)).
Proof.
  destruct x as [s|[]| |[] m e]; cbn [nonpos_SF SFdiv xorb]; intros H;
    try contradiction; try exact I.
  destruct (SFdiv_core_binary prec emax (Z.pos m) e (Z.pos md) ed) as [[q e'] l].
  apply binary_round_aux_nonpos.
Qed.

Lemma SFmul_nonpos x md ed :
  nonpos_SF x -> nonpos_SF (SFmul prec emax x (S754_finite false md ed)).
Proof.
  destruct x as [s|[]| |[] m e]; cbn [nonpos_SF SFmul xorb]; intros H;
    try contradiction; try exact I.
  apply binary_round_aux_nonpos.
Qed.

Lemma py_int_nonpos p t : nonpos_SF (Prim2SF p) -> py_int p = Ok t -> t <= 0.
Proof.
  unfold py_int. destruct (Prim2SF p) as [s|[]| |[] m e]; cbn [nonpos_SF];
    intros H E; try contradiction; try discriminate E; injection E as <-.
  - lia.
  - cbn [cond_Zopp]. pose proof (Z.shiftl_nonneg (Z.pos m) e). lia.
Qed.

Section Threshold2.
Import Usb04.VccioCtrl.

Lemma timer_limit_nonpos v t :
  (3.546 <=? v)%float = true -> timer_limit_of_voltage v = Ok t -> t <= 0.
Proof.
  intros Hle. apply py_int_nonpos. unfold limit_float.
  rewrite mul_spec, div_spec, sub_spec.
  change (Prim2SF 16384) with (S754_finite false 4503599627370496 (-38)).
  change (Prim2SF 2.601) with (S754_finite false 5856931315395330 (-51)).
  apply SFmul_nonpos, SFdiv_nonpos.
  rewrite leb_spec in Hle.
  change (Prim2SF 3.546) with (S754_finite false 7984882139327889 (-51)) in *.
  destruct (SFleb_from_finite _ _ _ Hle) as [E|(m & e & E)]; rewrite E in *.
  - exact I.
  - apply SFsub_nonpos. apply SFleb_finite_le; [reflexivity| |exact Hle].
    rewrite <- E. apply Prim2SF_valid.
Qed.

Lemma leb_positive a v ma ea :
  Prim2SF a = S754_finite false ma ea ->
  (a <=? v)%float = true -> (0 <? v)%float = true.
Proof.
  intros Ha. rewrite leb_spec, ltb_spec, Ha. intros H.
  destruct (SFleb_from_finite _ _ _ H) as [E|(m & e & E)]; rewrite E; reflexivity.
Qed.

Lemma py_floor_spec x n :
  py_floor x = Ok n -> (IZR n <= val x < IZR n + 1)%R.
Proof.
  unfold py_floor, val. destruct (Prim2SF x) as [s|s| |s m e]; intros E;
    try discriminate E; injection E as <-.
  - cbn [SF2R]. lra.
  - cbn [SF2R]. apply floor_shiftl.
Qed.

(** [int] truncates toward zero. *)
Lemma py_int_spec x t :
  py_int x = Ok t ->
  ((0 <= val x)%R -> (IZR t <= val x < IZR t + 1)%R) /\
  ((val x <= 0)%R -> (IZR t - 1 < val x <= IZR t)%R).
Proof.
  unfold py_int, val. destruct (Prim2SF x) as [s|s| |s m e]; intros E;
    try discriminate E; injection E as <-.
  - cbn [SF2R]. split; intros; lra.
  - pose proof (floor_shiftl (Z.pos m) e) as Hf.
    pose proof (SF2R_pos m e) as Hp. cbn [SF2R cond_Zopp] in Hp.
    destruct s; cbn [SF2R cond_Zopp].
    + assert (Hn : F2R (- Z.pos m) e = (- F2R (Z.pos m) e)%R).
      { unfold F2R. rewrite opp_IZR. ring. }
      rewrite Hn, opp_IZR. split; intros; lra.
    + split; intros; lra.
Qed.

End Threshold2.

(** ** Thresholds of the channels *)

Section Claims.
Import Usb04.VccioCtrl.

(** C3, amended: the threshold is [int(((3.546 - v) / 2.601) * 2**14)], the
    product truncated toward zero.  It is the floor of the product when
    the product is not negative, in particular for every voltage
    [0 < v <= 3.546], and its ceiling when the product is negative. *)
Theorem C3_threshold_truncates (v : float) (t : Z) :
  timer_limit_of_voltage v = Ok t ->
  let p := (limit_float v * 16384)%float in
  py_int p = Ok t /\
  ((0 <= val p)%R -> (IZR t <= val p < IZR t + 1)%R) /\
  ((val p <= 0)%R -> (IZR t - 1 < val p <= IZR t)%R) /\
  ((0 <? v)%float = true -> (v <=? 3.546)%float = true -> py_floor p = Ok t).
Proof.
  intros H p. split; [exact H|].
  destruct (py_int_spec p t H) as [Hf Hc].
  split; [exact Hf|]. split; [exact Hc|].
  intros H0 Hle.
  assert (Hvv : (v <=? v)%float = true).
  { rewrite leb_spec in *. rewrite ltb_spec in H0.
    change (Prim2SF 0) with (S754_zero false) in H0.
    apply SFltb_zero in H0 as [E|(m & e & E)]; rewrite E in *; [discriminate Hle|].
    unfold SFleb, SFcompare. rewrite Z.compare_refl.
    change (Pos.compare_cont Eq m m) with (Pos.compare m m).
    rewrite Pos.compare_refl. reflexivity. }
  destruct (product_antitone v v H0 Hvv Hle) as (N & _ & _).
  destruct (py_int_nonneg _ N) as (t' & E1 & E2 & _).
  fold p in E1, E2. unfold timer_limit_of_voltage in H. fold p in H.
  congruence.
Qed.

(** For 3.3 V the threshold is 1549. *)
Lemma C3_threshold_truncates_witness :
  timer_limit_of_voltage 3.3 = Ok 1549 /\
  py_floor (limit_float 3.3 * 16384) = Ok 1549.
Proof.
  split; [reflexivity|].
  exact (proj2 (proj2 (proj2 (C3_threshold_truncates 3.3 1549 eq_refl))) eq_refl eq_refl).
Defined.

(** C3 as stated (the floor for every voltage) fails above the intercept:
    for 3.6 V the code returns -340, the floor of the product is -341. *)
Lemma C3_floor_counterexample :
  ~ (forall v, timer_limit_of_voltage v = py_floor (limit_float v * 16384)).
Proof. intros H. specialize (H 3.6%float). vm_compute in H. discriminate H. Qed.

(** C6, amended: the stored threshold is the truncated product, neither
    rounded to nearest nor clamped.  It lies in 0..16383 for the voltages
    from 0.9451 V to 3.546 V, and not for every input voltage. *)
Theorem C6_threshold_range (v : float) :
  (0.9451 <=? v)%float = true -> (v <=? 3.546)%float = true ->
  exists t,
    timer_limit_of_voltage v = Ok t /\
    0 <= t <= 2 ^ 14 - 1 /\
    (IZR t <= val (limit_float v * 16384) < IZR t + 1)%R.
Proof.
  intros Hlo Hhi.
  destruct (timer_limit_antitone 0.9451 v eq_refl Hlo Hhi) as (t1 & t & E1 & E & Ht).
  assert (t1 = 16383) as -> by (vm_compute in E1; congruence).
  exists t. split; [exact E|]. split; [change (2 ^ 14) with 16384; lia|].
  apply (proj1 (py_int_spec _ t E)).
  destruct (product_antitone 0.9451 v eq_refl Hlo Hhi) as (_ & N & _).
  apply nonneg_finite_val, N.
Qed.

Lemma C6_threshold_range_witness :
  exists t,
    timer_limit_of_voltage 1.8 = Ok t /\
    0 <= t <= 2 ^ 14 - 1 /\
    (IZR t <= val (limit_float 1.8 * 16384) < IZR t + 1)%R.
Proof. exact (C6_threshold_range 1.8 eq_refl eq_refl). Defined.

(** C6 as stated fails: 0.5 V gives the threshold 19187, above 16383. *)
Lemma C6_clamp_counterexample :
  ~ (forall v t, timer_limit_of_voltage v = Ok t -> 0 <= t <= 2 ^ 14 - 1).
Proof.
  intros H. specialize (H 0.5%float 19187 eq_refl).
  change (2 ^ 14) with 16384 in H. lia.
Qed.

(** C9: for two channels whose voltages lie in the calibrated range, both
    thresholds are computed, and the channel with the higher voltage has
    the lower (or the same) threshold. *)
Theorem C9_threshold_antitone (platform : Platform.t) (i j : nat) (v1 v2 : float) :
  Platform.vccio_voltage platform i = Some v1 ->
  Platform.vccio_voltage platform j = Some v2 ->
  calibrated v1 -> calibrated v2 -> (v1 <=? v2)%float = true ->
  exists t1 t2,
    _pwm_timer_limit platform i = ([], Ok t1) /\
    _pwm_timer_limit platform j = ([], Ok t2) /\
    t2 <= t1.
Proof.
  intros Hi Hj [Hlo1 _] [_ Hhi2] H12.
  pose proof (leb_positive 0.945 v1 _ _ eq_refl Hlo1) as H0.
  destruct (timer_limit_antitone v1 v2 H0 H12 Hhi2) as (t1 & t2 & E1 & E2 & Ht).
  exists t1, t2. unfold _pwm_timer_limit. rewrite Hi, Hj, E1, E2.
  split; [reflexivity|]. split; [reflexivity|lia].
Qed.

Lemma C9_threshold_antitone_witness :
  let platform :=
    ButterStickPlatform (fun i => if decide (i = 2%nat) then Some 1.8%float else Some 3.3%float) in
  exists t1 t2,
    _pwm_timer_limit platform 2 = ([], Ok t1) /\
    _pwm_timer_limit platform 0 = ([], Ok t2) /\
    t2 <= t1.
Proof.
  intros platform.
  apply (C9_threshold_antitone platform 2 0 1.8 3.3);
    try reflexivity; split; reflexivity.
Defined.

End Claims.

Section Unclamped.
Import Usb04.VccioCtrl.

Lemma pwm_timer_limit_returned platform i l :
  _pwm_timer_limit platform i = ([], Ok l) ->
  exists v, Platform.vccio_voltage platform i = Some v /\ timer_limit_of_voltage v = Ok l.
Proof.
  unfold _pwm_timer_limit. destruct (Platform.vccio_voltage platform i) as [v|];
    [|discriminate].
  unfold lift. intros H. exists v. split; [reflexivity|congruence].
Qed.

(** C10: the comparator constant of a channel is the computed threshold
    itself, neither clamped nor truncated to 14 bits.  A threshold above
    [2^14 - 1] (which is what every voltage [0 < v <= 0.945] gives) makes the
    output 1 on every tick; a threshold that is zero or negative (which is
    what every voltage from 3.546 on gives) makes it 0 on every tick. *)
Theorem C10_threshold_not_clamped pins platform log m (i : N) (rho : env) :
  elaborate pins platform = (log, Ok m) ->
  Platform.vccio_voltage platform 0 <> None ->
  (i < 3)%N -> timer_in_range rho ->
  let out := Bit (Sig (pdm pins)) i in
  exists v t,
    Platform.vccio_voltage platform (N.to_nat i) = Some v /\
    timer_limit_of_voltage v = Ok t /\
    driver (d_comb m) out = Some (Less (Sig pwm_timer) (Const t)) /\
    (2 ^ 14 - 1 < t ->
     comb_value m rho out = Some 1 /\
     high_ticks m out (Z.to_nat (2 ^ 14)) rho = 2 ^ 14) /\
    (t <= 0 ->
     comb_value m rho out = Some 0 /\
     high_ticks m out (Z.to_nat (2 ^ 14)) rho = 0) /\
    ((0 <? v)%float = true -> (v <=? 0.945)%float = true -> 2 ^ 14 - 1 < t) /\
    ((3.546 <=? v)%float = true -> t <= 0).
Proof.
  intros H Hv Hi Hr out.
  apply usb_elaborate_returned in H as (l0 & l1 & l2 & E0 & E1 & E2 & ->); [|exact Hv].
  assert (Hl : _pwm_timer_limit platform (N.to_nat i) = ([], Ok (nth_limit l0 l1 l2 i))).
  { assert (i = 0 \/ i = 1 \/ i = 2)%N as [-> | [-> | ->]] by lia; assumption. }
  apply pwm_timer_limit_returned in Hl as (v & Ev & Et).
  set (t := nth_limit l0 l1 l2 i) in *.
  exists v, t. split; [exact Ev|]. split; [exact Et|].
  assert (Hval : comb_value (pwm_module pins l0 l1 l2) rho out
                 = Some (if rho pwm_timer <? t then 1 else 0)).
  { apply pwm_pdm_value, Hi. }
  assert (Hduty : high_ticks (pwm_module pins l0 l1 l2) out (Z.to_nat (2 ^ 14)) rho
                  = Z.max 0 (Z.min (2 ^ 14) t)).
  { apply high_ticks_period; assumption. }
  unfold timer_in_range in Hr. change (2 ^ 14) with 16384 in *.
  split; [|split; [|split; [|split]]].
  - unfold out, pwm_module, d_comb, driver, t.
    assert (i = 0 \/ i = 1 \/ i = 2)%N as [-> | [-> | ->]] by lia;
      repeat (case_decide; simplify_eq); reflexivity.
  - intros Ht. rewrite Hval, Hduty.
    destruct (Z.ltb_spec (rho pwm_timer) t); [|lia]. split; [reflexivity|lia].
  - intros Ht. rewrite Hval, Hduty.
    destruct (Z.ltb_spec (rho pwm_timer) t); [lia|]. split; [reflexivity|lia].
  - intros H0 Hle.
    destruct (timer_limit_antitone v 0.945 H0 Hle eq_refl) as (t1 & t2 & E & E' & Ht).
    assert (t2 = 16384) as -> by (vm_compute in E'; congruence).
    assert (t1 = t) as -> by congruence. lia.
  - intros Hge. exact (timer_limit_nonpos v t Hge Et).
Qed.

Lemma C10_threshold_not_clamped_witness :
  let pins := {| pdm := Signal "pdm" 3; en := Signal "en" 1 |} in
  let platform :=
    ButterStickPlatform (fun i => if decide (i = 2%nat) then Some 3.6%float else Some 0.5%float) in
  let m := pwm_module pins 19187 19187 (-340) in
  let rho : env := fun _ => 16383 in
  elaborate pins platform = ([], Ok m) /\
  comb_value m rho (Bit (Sig (pdm pins)) 0) = Some 1 /\
  high_ticks m (Bit (Sig (pdm pins)) 0) (Z.to_nat (2 ^ 14)) rho = 2 ^ 14 /\
  comb_value m rho (Bit (Sig (pdm pins)) 2) = Some 0 /\
  high_ticks m (Bit (Sig (pdm pins)) 2) (Z.to_nat (2 ^ 14)) rho = 0.
Proof.
  intros pins platform m rho.
  assert (He : elaborate pins platform = ([], Ok m)) by reflexivity.
  assert (Hv : Platform.vccio_voltage platform 0 <> None).
  { vm_compute. intros H. discriminate H. }
  assert (Hr : timer_in_range rho) by (unfold timer_in_range, rho; lia).
  split; [exact He|].
  destruct (C10_threshold_not_clamped pins platform [] m 0 rho He Hv eq_refl Hr)
    as (v0 & t0 & Ev0 & Et0 & _ & Hhigh & _ & _ & _).
  destruct (C10_threshold_not_clamped pins platform [] m 2 rho He Hv eq_refl Hr)
    as (v2 & t2 & Ev2 & Et2 & _ & _ & Hlow & _ & _).
  assert (v0 = 0.5%float) as -> by (vm_compute in Ev0; congruence).
  assert (v2 = 3.6%float) as -> by (vm_compute in Ev2; congruence).
  assert (t0 = 19187) as -> by (vm_compute in Et0; congruence).
  assert (t2 = -340) as -> by (vm_compute in Et2; congruence).
  destruct (Hhigh ltac:(change (2 ^ 14) with 16384; lia)) as [H1 H2].
  destruct (Hlow ltac:(lia)) as [H3 H4].
  auto.
Defined.

End Unclamped.

(** * Further properties of the sources *)

(** ** The VCCIO controllers: enable, carrier period, elaboration *)

Section Controllers.
Import Usb04.VccioCtrl.

(** Any of the three controllers, when it generates hardware, generates
    the counter with the three comparators and the enable. *)
Lemma controller_hardware pins platform log m :
  (elaborate pins platform = (log, Ok m) /\ Platform.vccio_voltage platform 0 <> None) \/
  Pmod02.VccioCtrl.elaborate pins platform = (log, Ok m) \/
  Button03.VccioCtrl.elaborate pins platform = (log, Ok m) ->
  exists l0 l1 l2, m = pwm_module pins l0 l1 l2.
Proof.
  intros [[H Hv] | [H | H]].
  - apply usb_elaborate_returned in H as (l0 & l1 & l2 & _ & _ & _ & ->); eauto.
  - rewrite pmod_elaborate in H. injection H as _ <-. eauto.
  - rewrite button_elaborate in H. injection H as _ <-. eauto.
Qed.

(** The regulator enable is driven to 1 on every tick by each controller
    that generates hardware; the controller of [04_usb.py] leaves it
    undriven when channel 0 has no voltage. *)
Theorem vccio_enable_asserted pins platform log m (rho : env) :
  ((elaborate pins platform = (log, Ok m) /\ Platform.vccio_voltage platform 0 <> None) \/
   Pmod02.VccioCtrl.elaborate pins platform = (log, Ok m) \/
   Button03.VccioCtrl.elaborate pins platform = (log, Ok m) ->
   (0 < signal_width (en pins))%N ->
   comb_value m rho (Sig (en pins)) = Some 1) /\
  (elaborate pins platform = (log, Ok m) ->
   Platform.vccio_voltage platform 0 = None ->
   comb_value m rho (Sig (en pins)) = None).
Proof.
  split.
  - intros H Hw. apply controller_hardware in H as (l0 & l1 & l2 & ->).
    apply pwm_en_value, Hw.
  - intros H Hn. rewrite (usb_elaborate_unconfigured pins platform Hn) in H.
    injection H as _ <-. reflexivity.
Qed.

Lemma vccio_enable_asserted_witness :
  let pins := {| pdm := Signal "pdm" 3; en := Signal "en" 1 |} in
  comb_value (pwm_module pins 1549 1549 1549) (fun _ => 0) (Sig (en pins)) = Some 1 /\
  comb_value Module_new (fun _ => 0) (Sig (en pins)) = None.
Proof.
  intros pins. split.
  - apply (proj1 (vccio_enable_asserted pins (ButterStickPlatform (fun _ => Some 3.3%float))
                    [] (pwm_module pins 1549 1549 1549) (fun _ => 0))).
    + left. split; [reflexivity|]. vm_compute. intros H. discriminate H.
    + reflexivity.
  - apply (proj2 (vccio_enable_asserted pins (ButterStickPlatform (fun _ => None))
                    ["VCCIO configuration is required for ULPI USB to function."]
                    Module_new (fun _ => 0))); reflexivity.
Defined.

Lemma mod_wrap (c n : Z) :
  0 <= c < 2 ^ 14 -> 0 < n < 2 ^ 14 -> (c + n) mod 2 ^ 14 <> c.
Proof.
  intros Hc Hn. change (2 ^ 14) with 16384 in *.
  destruct (Z_lt_le_dec (c + n) 16384) as [Hlt|Hge].
  - rewrite Z.mod_small by lia. lia.
  - replace (c + n) with (c + n - 16384 + 1 * 16384) by lia.
    rewrite Z_mod_plus_full, Z.mod_small by lia. lia.
Qed.

(** The carrier counter has period exactly [2^14]: it wraps from
    16383 to 0, is back at its value after [2^14] ticks and not earlier,
    and every PDM output repeats with that period. *)
Theorem pwm_carrier_period pins platform log m (rho : env) :
  (elaborate pins platform = (log, Ok m) /\ Platform.vccio_voltage platform 0 <> None) \/
  Pmod02.VccioCtrl.elaborate pins platform = (log, Ok m) \/
  Button03.VccioCtrl.elaborate pins platform = (log, Ok m) ->
  timer_in_range rho ->
  (rho pwm_timer = 2 ^ 14 - 1 -> sync_step m rho pwm_timer = 0) /\
  run m (Z.to_nat (2 ^ 14)) rho pwm_timer = rho pwm_timer /\
  (forall n, 0 < n < 2 ^ 14 -> run m (Z.to_nat n) rho pwm_timer <> rho pwm_timer) /\
  (forall i, (i < 3)%N ->
     comb_value m (run m (Z.to_nat (2 ^ 14)) rho) (Bit (Sig (pdm pins)) i)
     = comb_value m rho (Bit (Sig (pdm pins)) i)).
Proof.
  intros H Hr. apply controller_hardware in H as (l0 & l1 & l2 & ->).
  unfold timer_in_range in Hr.
  assert (Hrun : forall n, 0 < n ->
            run (pwm_module pins l0 l1 l2) (Z.to_nat n) rho pwm_timer
            = (rho pwm_timer + n) mod 2 ^ 14).
  { intros n Hn. destruct (pwm_run_timer pins l0 l1 l2 (Z.to_nat n) rho) as [E|E]; [|lia].
    rewrite E, Z2Nat.id by lia. reflexivity. }
  assert (Hfull : run (pwm_module pins l0 l1 l2) (Z.to_nat (2 ^ 14)) rho pwm_timer
                  = rho pwm_timer).
  { rewrite Hrun by (change (2 ^ 14) with 16384; lia).
    rewrite <- (Z.mul_1_l (2 ^ 14)) at 1.
    rewrite Z_mod_plus_full. apply Z.mod_small, Hr. }
  split; [|split; [exact Hfull|split]].
  - intros E. rewrite pwm_timer_step, E.
    replace (2 ^ 14 - 1 + 1) with (2 ^ 14) by lia. apply Z_mod_same_full.
  - intros n Hn. rewrite Hrun by lia. apply mod_wrap; assumption.
  - intros i Hi. rewrite !pwm_pdm_value by exact Hi. rewrite Hfull. reflexivity.
Qed.

Lemma pwm_carrier_period_witness :
  let pins := {| pdm := Signal "pdm" 3; en := Signal "en" 1 |} in
  let m := pwm_module pins 1638 1638 11468 in
  let rho : env := fun _ => 16383 in
  sync_step m rho pwm_timer = 0 /\
  run m (Z.to_nat (2 ^ 14)) rho pwm_timer = 16383.
Proof.
  intros pins m rho.
  assert (Hr : timer_in_range rho) by (unfold timer_in_range, rho; lia).
  destruct (pwm_carrier_period pins (ButterStickPlatform (fun _ => None)) [] m rho
              (or_intror (or_introl eq_refl)) Hr) as (H1 & H2 & _).
  split; [apply H1; reflexivity|exact H2].
Defined.

End Controllers.

Section ControllerVoltages.
Import Usb04.VccioCtrl.

(** A voltage between 0.9451 V and 3.546 V on each of the three channels is
    enough for elaboration to succeed without a warning; the thresholds
    are the computed ones, each in 0..16383, and each output is high on
    exactly its threshold's number of ticks of every period. *)
Theorem usb_elaborate_in_range pins platform (v0 v1 v2 : float) :
  Platform.vccio_voltage platform 0 = Some v0 ->
  Platform.vccio_voltage platform 1 = Some v1 ->
  Platform.vccio_voltage platform 2 = Some v2 ->
  (forall v, v = v0 \/ v = v1 \/ v = v2 ->
     (0.9451 <=? v)%float = true /\ (v <=? 3.546)%float = true) ->
  exists t0 t1 t2,
    elaborate pins platform = ([], Ok (pwm_module pins t0 t1 t2)) /\
    timer_limit_of_voltage v0 = Ok t0 /\
    timer_limit_of_voltage v1 = Ok t1 /\
    timer_limit_of_voltage v2 = Ok t2 /\
    forall (i : N) (rho : env),
      (i < 3)%N -> timer_in_range rho ->
      0 <= nth_limit t0 t1 t2 i <= 2 ^ 14 - 1 /\
      high_ticks (pwm_module pins t0 t1 t2) (Bit (Sig (pdm pins)) i)
        (Z.to_nat (2 ^ 14)) rho
      = nth_limit t0 t1 t2 i.
Proof.
  intros E0 E1 E2 Hv.
  assert (Ht : forall v, v = v0 \/ v = v1 \/ v = v2 ->
                 exists t, timer_limit_of_voltage v = Ok t /\ 0 <= t <= 16383).
  { intros v Hin. destruct (Hv v Hin) as [Hlo Hhi].
    destruct (timer_limit_antitone 0.9451 v eq_refl Hlo Hhi) as (t1 & t & T1 & T & Hle).
    assert (t1 = 16383) as -> by (vm_compute in T1; congruence).
    exists t. split; [exact T|lia]. }
  destruct (Ht v0 ltac:(auto)) as (t0 & T0 & B0).
  destruct (Ht v1 ltac:(auto)) as (t1 & T1 & B1).
  destruct (Ht v2 ltac:(auto)) as (t2 & T2 & B2).
  exists t0, t1, t2.
  split; [eapply usb_elaborate_configured; eassumption|].
  split; [exact T0|]. split; [exact T1|]. split; [exact T2|].
  intros i rho Hi Hr.
  assert (Hb : 0 <= nth_limit t0 t1 t2 i <= 16383).
  { assert (i = 0 \/ i = 1 \/ i = 2)%N as [-> | [-> | ->]] by lia; assumption. }
  change (2 ^ 14 - 1) with 16383. split; [exact Hb|].
  rewrite high_ticks_period by assumption. change (2 ^ 14) with 16384. lia.
Qed.

Lemma usb_elaborate_in_range_witness :
  let pins := {| pdm := Signal "pdm" 3; en := Signal "en" 1 |} in
  let platform :=
    ButterStickPlatform (fun i => if decide (i = 2%nat) then Some 1.8%float else Some 3.3%float) in
  elaborate pins platform = ([], Ok (pwm_module pins 1549 1549 10998)).
Proof.
  intros pins platform.
  destruct (usb_elaborate_in_range pins platform 3.3 3.3 1.8 eq_refl eq_refl eq_refl)
    as (t0 & t1 & t2 & E & T0 & T1 & T2 & _).
  - intros v [-> | [-> | ->]]; split; reflexivity.
  - rewrite E. vm_compute in T0, T1, T2. congruence.
Defined.

(** A voltage that is not a number, or infinite, on channel 0 aborts
    elaboration: [int] raises [ValueError] on a NaN and [OverflowError] on an
    infinity, whatever the other channels are set to. *)
Theorem usb_elaborate_nonfinite pins platform (v : float) :
  Platform.vccio_voltage platform 0 = Some v ->
  (v = nan -> exists msg, elaborate pins platform = ([], Raise (ValueError msg))) /\
  (v = infinity \/ v = neg_infinity ->
   exists msg, elaborate pins platform = ([], Raise (OverflowError msg))).
Proof.
  intros E0. unfold elaborate, _pwm_timer_limit. rewrite E0. split.
  - intros ->. eexists. reflexivity.
  - intros [-> | ->]; eexists; reflexivity.
Qed.

Lemma usb_elaborate_nonfinite_witness :
  let pins := {| pdm := Signal "pdm" 3; en := Signal "en" 1 |} in
  (exists msg, elaborate pins (ButterStickPlatform (fun _ => Some nan))
               = ([], Raise (ValueError msg))) /\
  (exists msg, elaborate pins (ButterStickPlatform (fun _ => Some infinity))
               = ([], Raise (OverflowError msg))).
Proof.
  intros pins. split.
  - exact (proj1 (usb_elaborate_nonfinite pins (ButterStickPlatform (fun _ => Some nan))
                    nan eq_refl) eq_refl).
  - exact (proj2 (usb_elaborate_nonfinite pins (ButterStickPlatform (fun _ => Some infinity))
                    infinity eq_refl) (or_introl eq_refl)).
Defined.

Lemma SFleb_of_le m1 e1 m2 e2 :
  valid_binary (S754_finite false m1 e1) = true ->
  valid_binary (S754_finite false m2 e2) = true ->
  (F2R (Z.pos m1) e1 <= F2R (Z.pos m2) e2)%R ->
  SFleb (S754_finite false m1 e1) (S754_finite false m2 e2) = true.
Proof.
  intros H1 H2 Hle. unfold SFleb, SFcompare.
  destruct (Z.compare_spec e1 e2) as [->|Hlt|Hgt].
  - change (Pos.compare_cont Eq m1 m2) with (Pos.compare m1 m2).
    destruct (Pos.compare_spec m1 m2) as [->|Hl|Hg]; try reflexivity.
    assert (F2R (Z.pos m2) e2 < F2R (Z.pos m1) e2)%R by (apply F2R_lt; lia). lra.
  - reflexivity.
  - pose proof (valid_exponent_le _ _ _ _ H2 H1 Hgt). lra.
Qed.

(** [a <= b <= c] gives [a <= c] when [a] is positive and [c] finite. *)
Lemma leb_trans_pos a b c mc ec :
  Prim2SF c = S754_finite false mc ec ->
  (0 <? a)%float = true -> (a <=? b)%float = true -> (b <=? c)%float = true ->
  (a <=? c)%float = true.
Proof.
  intros Hc H0 Hab Hbc.
  destruct (float_range a b c mc ec Hc H0 Hab Hbc)
    as (ma & ea & mb & eb & Ea & Eb & H1 & H2).
  rewrite leb_spec, Ea, Hc. apply SFleb_of_le.
  - apply (Prim2SF_valid_finite _ _ _ Ea).
  - apply (Prim2SF_valid_finite _ _ _ Hc).
  - lra.
Qed.

(** Within the 1.8 V .. 3.3 V that the source allows the USB channel, its
    threshold lies between 1549 and 10998: the output is never stuck, it
    is high on that many ticks of every period. *)
Theorem usb_channel_duty pins platform log m (v : float) (rho : env) :
  elaborate pins platform = (log, Ok m) ->
  Platform.vccio_voltage platform 0 <> None ->
  Platform.vccio_voltage platform 2 = Some v ->
  (1.8 <=? v)%float = true -> (v <=? 3.3)%float = true ->
  timer_in_range rho ->
  exists t,
    timer_limit_of_voltage v = Ok t /\
    1549 <= t <= 10998 /\
    high_ticks m (Bit (Sig (pdm pins)) 2) (Z.to_nat (2 ^ 14)) rho = t.
Proof.
  intros H Hv0 E2 Hlo Hhi Hr.
  assert (H0 : (0 <? v)%float = true) by (eapply leb_positive; [|exact Hlo]; reflexivity).
  assert (Hc : (v <=? 3.546)%float = true).
  { eapply (leb_trans_pos v 3.3 3.546); [reflexivity|exact H0|exact Hhi|reflexivity]. }
  destruct (timer_limit_antitone 1.8 v eq_refl Hlo Hc) as (ta & t & Ta & T & Hle1).
  assert (ta = 10998) as -> by (vm_compute in Ta; congruence).
  destruct (timer_limit_antitone v 3.3 H0 Hhi eq_refl) as (t' & tb & T' & Tb & Hle2).
  assert (tb = 1549) as -> by (vm_compute in Tb; congruence).
  assert (t' = t) as -> by congruence.
  exists t. split; [exact T|]. split; [lia|].
  apply usb_elaborate_returned in H as (l0 & l1 & l2 & _ & _ & L2 & ->); [|exact Hv0].
  apply pwm_timer_limit_returned in L2 as (v' & E2' & T2).
  assert (v' = v) as -> by congruence. assert (l2 = t) as -> by congruence.
  rewrite high_ticks_period by (try assumption; reflexivity).
  cbn [nth_limit]. change (2 ^ 14) with 16384. lia.
Qed.

Lemma usb_channel_duty_witness :
  let pins := {| pdm := Signal "pdm" 3; en := Signal "en" 1 |} in
  let platform := ButterStickPlatform (fun _ => Some 2.5%float) in
  exists m t,
    elaborate pins platform = ([], Ok m) /\
    1549 <= t <= 10998 /\
    high_ticks m (Bit (Sig (pdm pins)) 2) (Z.to_nat (2 ^ 14)) (fun _ => 0) = t.
Proof.
  intros pins platform.
  assert (Hr : timer_in_range (fun _ => 0)) by (unfold timer_in_range; lia).
  eexists _. 
  destruct (usb_channel_duty pins platform [] _ 2.5 (fun _ => 0) eq_refl
              ltac:(vm_compute; intros E; discriminate E) eq_refl eq_refl eq_refl Hr)
    as (t & _ & Hb & Hd).
  exists t. split; [reflexivity|]. split; [exact Hb|exact Hd].
Defined.

End ControllerVoltages.

(** ** The clock domain generator: failures, frame, selection *)

Section Generator.
Import Usb04.LunaECP5DomainGenerator.

(** A successful [create_submodules], in full. *)
Lemma create_submodules_success self m0 platform log self' m :
  create_submodules self m0 platform = (log, Ok (self', m)) ->
  exists clk f,
    String.eqb (selected_clock_name self platform) "OSCG" = false /\
    Platform.request platform (selected_clock_name self platform) = Ok clk /\
    validated_frequency self platform = Some f /\
    supported_frequency f = true /\
    log = [] /\
    m = {| d_comb := d_comb m0 ++ pll_resets;
           d_sync := d_sync m0;
           submodules := submodules m0 ++ [EHXPLLL clk (expected_clkfb_div f)] |} /\
    self' = {| clock_name := clock_name self;
               clock_frequency := clock_frequency self;
               clock_frequencies :=
                 Some (merge_clock_frequencies
                         (Platform.DEFAULT_CLOCK_FREQUENCIES_MHZ platform)
                         (clock_frequencies self));
               _clock_options :=
                 {[ 60 := _clk_60MHz; 120 := _clk_120MHz; 240 := _clk_240MHz ]} |}.
Proof.
  unfold create_submodules, validated_frequency, selected_clock_name.
  destruct (String.eqb _ "OSCG") eqn:Eo.
  - intros H. exfalso. revert H. cbn. discriminate.
  - destruct (Platform.request platform _) as [clk|e] eqn:Er; [|discriminate].
    rewrite bind_lift_ok, bind_ok.
    destruct (if truthy_str (clock_name self) then clock_frequency self
              else Some (Platform.default_clk_frequency platform)) as [f|] eqn:Ef;
      [|discriminate].
    rewrite lookup_pll_params_spec.
    destruct (supported_frequency f) eqn:Es; [|discriminate].
    rewrite bind_ok. unfold getitem. rewrite lookup_singleton_eq, !bind_ok.
    intros H. injection H as <- <- <-.
    exists clk, f.
    split; [reflexivity|]. split; [reflexivity|]. split; [reflexivity|].
    split; [exact Es|]. split; [reflexivity|]. split; reflexivity.
Qed.

(** The internal oscillator never gets as far as the PLL: whenever the
    selected clock is "OSCG", [create_submodules] logs its two warnings
    and raises [ValueError], on every platform. *)
Theorem oscillator_path_always_raises self m0 platform :
  selected_clock_name self platform = "OSCG" ->
  create_submodules self m0 platform
  = ([ "Using FPGA-internal oscillator for an approximately 62MHz.";
       "USB communication won't work for f_OSC != 60MHz." ],
     Raise (ValueError "Unsupported clock frequency")).
Proof.
  unfold selected_clock_name, create_submodules. intros ->. reflexivity.
Qed.

Lemma oscillator_path_always_raises_witness :
  exists log,
    create_submodules (__init__ (Some {[ "usb" := 60 ]}) (Some "OSCG")) Module_new
      (ButterStickPlatform (fun _ => Some 3.3%float))
    = (log, Raise (ValueError "Unsupported clock frequency")).
Proof.
  eexists.
  exact (oscillator_path_always_raises (__init__ (Some {[ "usb" := 60 ]}) (Some "OSCG"))
           Module_new (ButterStickPlatform (fun _ => Some 3.3%float)) eq_refl).
Defined.

(** When the platform cannot provide the selected clock, the error of
    [platform.request] is the error of [create_submodules]; the frequency is
    not looked at. *)
Theorem clock_request_failure_propagates self m0 platform (e : exn) :
  String.eqb (selected_clock_name self platform) "OSCG" = false ->
  Platform.request platform (selected_clock_name self platform) = Raise e ->
  create_submodules self m0 platform = ([], Raise e).
Proof.
  unfold selected_clock_name, create_submodules. intros -> ->. reflexivity.
Qed.

Lemma clock_request_failure_propagates_witness :
  let bare : Platform.t :=
    {| Platform.DEFAULT_CLOCK_FREQUENCIES_MHZ := DEFAULT_CLOCK_FREQUENCIES_MHZ;
       Platform.default_clk := "clk30";
       Platform.default_clk_frequency := 30000000;
       Platform.request := fun name => Raise (ResourceError name);
       Platform.vccio_voltage := fun _ => None |} in
  create_submodules (__init__ None None) Module_new bare
  = ([], Raise (ResourceError "clk30")).
Proof.
  intros bare.
  exact (clock_request_failure_propagates (__init__ None None) Module_new bare
           (ResourceError "clk30") eq_refl eq_refl).
Defined.

(** A successful [create_submodules] only adds: the statements and
    submodules the module had are kept in place, nothing is added to the
    clocked statements, exactly one instance is appended (the PLL, fed by
    the requested clock and by its own 240 MHz output, with the three
    clock outputs and the lock), and the two resets are appended to the
    combinational statements.  Nothing is logged. *)
Theorem create_submodules_frame self m0 platform log self' m :
  create_submodules self m0 platform = (log, Ok (self', m)) ->
  log = [] /\
  d_sync m = d_sync m0 /\
  d_comb m = d_comb m0 ++ pll_resets /\
  clock_name self' = clock_name self /\
  clock_frequency self' = clock_frequency self /\
  exists pll clk,
    submodules m = submodules m0 ++ [pll] /\
    inst_type pll = "EHXPLLL" /\
    Platform.request platform (selected_clock_name self platform) = Ok clk /\
    In ("CLKI", Sig clk) (inst_inputs pll) /\
    In ("CLKFB", Sig _clk_240MHz) (inst_inputs pll) /\
    inst_outputs pll
      = [("CLKOP", _clk_240MHz); ("CLKOS", _clk_120MHz); ("CLKOS2", _clk_60MHz);
         ("LOCK", _pll_lock)].
Proof.
  intros H.
  destruct (create_submodules_success _ _ _ _ _ _ H)
    as (clk & f & _ & Er & _ & _ & -> & -> & ->).
  split; [reflexivity|]. split; [reflexivity|]. split; [reflexivity|].
  split; [reflexivity|]. split; [reflexivity|].
  exists (EHXPLLL clk (expected_clkfb_div f)), clk.
  split; [reflexivity|]. split; [reflexivity|]. split; [exact Er|].
  split; [left; reflexivity|]. split; [right; left; reflexivity|].
  reflexivity.
Qed.

Lemma create_submodules_frame_witness :
  let self := __init__ None None in
  let platform := ButterStickPlatform (fun _ => Some 3.3%float) in
  let m0 := add_sync (add_comb Module_new [(Sig (Signal "a" 1), Const 1)])
              [(Sig (Signal "b" 1), Const 0)] in
  exists self' m,
    create_submodules self m0 platform = ([], Ok (self', m)) /\
    d_sync m = d_sync m0 /\ d_comb m = d_comb m0 ++ pll_resets.
Proof.
  intros self platform m0.
  destruct (create_submodules self m0 platform) as [log [[self' m]|e]] eqn:E;
    [|vm_compute in E; discriminate E].
  destruct (create_submodules_frame self m0 platform log self' m E)
    as (-> & Hs & Hc & _).
  exists self', m. split; [reflexivity|]. split; [exact Hs|exact Hc].
Defined.

(** The reference frequency times the feedback divider is the frequency
    of the 240 MHz tap (the input divider being 1): this holds for the 30 MHz
    and the 60 MHz entries of the table; with the 62 MHz entry the tap named
    240 MHz runs at 248 MHz.  No other frequency gets a PLL. *)
Theorem pll_feedback_product self m0 platform log self' m :
  create_submodules self m0 platform = (log, Ok (self', m)) ->
  exists pll f d,
    last (submodules m) = Some pll /\
    validated_frequency self platform = Some f /\
    In ("CLKFB_DIV", d) (inst_params pll) /\
    In ("CLKI_DIV", 1) (inst_params pll) /\
    (f = 30000000 \/ f = 60000000 \/ f = 62000000) /\
    (f <> 62000000 -> f * d = 240 * 1000000) /\
    (f = 62000000 -> f * d = 248 * 1000000).
Proof.
  intros H.
  destruct (create_submodules_success _ _ _ _ _ _ H)
    as (clk & f & _ & _ & Hf & Hs & _ & -> & _).
  exists (EHXPLLL clk (expected_clkfb_div f)), f, (expected_clkfb_div f).
  split; [cbn [submodules]; apply last_snoc|].
  split; [exact Hf|].
  split; [cbn; tauto|]. split; [cbn; tauto|].
  unfold supported_frequency in Hs. apply bool_decide_eq_true in Hs.
  split; [exact Hs|].
  unfold expected_clkfb_div.
  split; intros ?; case_decide; lia.
Qed.

Lemma pll_feedback_product_witness :
  let self := __init__ None (Some "clk62") in
  let self := {| clock_name := clock_name self; clock_frequency := Some 62000000;
                 clock_frequencies := clock_frequencies self;
                 _clock_options := _clock_options self |} in
  let platform := ButterStickPlatform (fun _ => None) in
  exists pll,
    last (submodules (snd (default (self, Module_new)
                             (returned (create_submodules self Module_new platform)))))
      = Some pll /\
    In ("CLKFB_DIV", 4) (inst_params pll) /\ 62000000 * 4 = 248 * 1000000.
Proof.
  intros self0 self platform.
  destruct (create_submodules self Module_new platform) as [log [[self' m]|e]] eqn:E;
    [|vm_compute in E; discriminate E].
  destruct (pll_feedback_product self Module_new platform log self' m E)
    as (pll & f & d & Hl & Hf & Hd & _ & _ & _ & H62).
  vm_compute in Hf. injection Hf as <-.
  exists pll. split; [exact Hl|].
  specialize (H62 eq_refl). assert (d = 4) as -> by lia.
  split; [exact Hd|reflexivity].
Defined.

(** The domain frequencies play no part in [create_submodules]: two
    generators that differ only in their [clock_frequencies] log the same,
    fail the same, and describe the same hardware.  In particular a domain
    frequency that is no tap is not rejected here. *)
Theorem domain_frequencies_not_validated self1 self2 m0 platform :
  clock_name self1 = clock_name self2 ->
  clock_frequency self1 = clock_frequency self2 ->
  fst (create_submodules self1 m0 platform) = fst (create_submodules self2 m0 platform) /\
  raised (create_submodules self1 m0 platform)
    = raised (create_submodules self2 m0 platform) /\
  snd <$> returned (create_submodules self1 m0 platform)
    = snd <$> returned (create_submodules self2 m0 platform).
Proof.
  intros Hn Hf. unfold create_submodules. rewrite <- Hn, <- Hf.
  destruct (String.eqb _ "OSCG").
  - split; [reflexivity|]. split; reflexivity.
  - destruct (Platform.request platform _) as [clk|e].
    + rewrite !bind_lift_ok, !bind_ok.
      destruct (lookup_pll_params _) as [l [pp|e]].
      * unfold getitem, mbind, py_bind, bind. cbn [fst snd].
        destruct (pp !! "CLKFB_DIV") as [d|].
        -- split; [reflexivity|]. split; reflexivity.
        -- split; [reflexivity|]. split; reflexivity.
      * split; [reflexivity|]. split; reflexivity.
    + split; [reflexivity|]. split; reflexivity.
Qed.

Lemma domain_frequencies_not_validated_witness :
  let platform := ButterStickPlatform (fun _ => None) in
  snd <$> returned (create_submodules (__init__ (Some {[ "usb" := 7 ]}) None)
                      Module_new platform)
  = snd <$> returned (create_submodules (__init__ None None) Module_new platform).
Proof.
  intros platform.
  exact (proj2 (proj2 (domain_frequencies_not_validated
                         (__init__ (Some {[ "usb" := 7 ]}) None) (__init__ None None)
                         Module_new platform eq_refl eq_refl))).
Defined.

(** The merge of the domain frequencies ([copy] then [update]): without
    overrides (none given, or an empty mapping) the defaults are kept as
    they are; the merged mapping has the keys of both; overrides that
    cover every default replace them altogether; merging the result in
    again changes nothing. *)
Theorem merge_clock_frequencies_shape (defaults : gmap string Z)
    (overrides : option (gmap string Z)) :
  (overrides = None \/ overrides = Some ∅ ->
   merge_clock_frequencies defaults overrides = defaults) /\
  dom (merge_clock_frequencies defaults overrides)
    = dom defaults ∪ dom (default ∅ overrides) /\
  (forall o, overrides = Some o -> dom defaults ⊆ dom o ->
             merge_clock_frequencies defaults overrides = o) /\
  merge_clock_frequencies defaults
    (Some (merge_clock_frequencies defaults overrides))
  = merge_clock_frequencies defaults overrides.
Proof.
  assert (Hcover : forall (d o : gmap string Z),
             dom d ⊆ dom o -> merge_clock_frequencies d (Some o) = o).
  { intros d o Hsub. apply map_eq. intros k.
    rewrite merge_clock_frequencies_lookup. simpl.
    destruct (o !! k) eqn:Ek; [reflexivity|].
    apply not_elem_of_dom in Ek. apply not_elem_of_dom.
    intros Hk. apply Ek, Hsub, Hk. }
  assert (Hdom : dom (merge_clock_frequencies defaults overrides)
                 = dom defaults ∪ dom (default ∅ overrides)).
  { unfold merge_clock_frequencies, truthy_dict.
    destruct overrides as [o|]; simpl.
    - case_bool_decide as He; simpl.
      + subst o. rewrite dom_empty_L, (right_id_L ∅ (∪)). reflexivity.
      + rewrite dom_union_L. apply (comm_L (∪)).
    - rewrite dom_empty_L, (right_id_L ∅ (∪)). reflexivity. }
  split; [|split; [exact Hdom|split]].
  - intros [-> | ->]; reflexivity.
  - intros o -> Hsub. apply Hcover, Hsub.
  - apply Hcover. rewrite Hdom. apply union_subseteq_l.
Qed.

Lemma merge_clock_frequencies_shape_witness :
  merge_clock_frequencies DEFAULT_CLOCK_FREQUENCIES_MHZ
    (Some {[ "fast" := 120; "sync" := 60; "usb" := 60 ]})
  = {[ "fast" := 120; "sync" := 60; "usb" := 60 ]}.
Proof.
  apply (proj1 (proj2 (proj2 (merge_clock_frequencies_shape
                                DEFAULT_CLOCK_FREQUENCIES_MHZ
                                (Some {[ "fast" := 120; "sync" := 60; "usb" := 60 ]}))))
           _ eq_refl).
  unfold DEFAULT_CLOCK_FREQUENCIES_MHZ.
  rewrite !dom_insert_L, !dom_singleton_L. reflexivity.
Defined.

(** What the three [generate_*_clock] methods do after a successful
    [create_submodules]. *)
Lemma generate_clock_after_create self m0 platform log self' m domain :
  create_submodules self m0 platform = (log, Ok (self', m)) ->
  domain ∈ ["fast"; "sync"; "usb"] ->
  generate_clock domain self' m platform
  = match merge_clock_frequencies (Platform.DEFAULT_CLOCK_FREQUENCIES_MHZ platform)
            (clock_frequencies self) !! domain with
    | None => raise (KeyError domain)
    | Some f =>
        match tap f with
        | Some clk => mret clk
        | None => raise (KeyError (pretty f))
        end
    end.
Proof.
  intros H Hd.
  destruct (create_submodules_success _ _ _ _ _ _ H)
    as (clk & f & _ & _ & _ & _ & _ & _ & ->).
  assert (Hg : forall s, generate_clock domain s m platform
                 = (f' ← clock_frequency_of s domain; clock_option s f')).
  { intros s. unfold generate_clock. rewrite !elem_of_cons, elem_of_nil in Hd.
    destruct Hd as [-> | [-> | [-> | []]]]; reflexivity. }
  rewrite Hg. unfold clock_frequency_of, getitem. cbn [clock_frequencies].
  destruct (merge_clock_frequencies _ _ !! domain) as [f'|]; [|reflexivity].
  rewrite bind_ok, clock_option_spec by reflexivity.
  unfold tap. repeat case_decide; reflexivity.
Qed.

(** A domain that neither the platform's defaults nor the overrides give a
    frequency makes its [generate_*_clock] raise [KeyError] with the
    domain's name, although [create_submodules] succeeded. *)
Theorem generate_clock_missing_domain self m0 platform log self' m domain :
  create_submodules self m0 platform = (log, Ok (self', m)) ->
  domain ∈ ["fast"; "sync"; "usb"] ->
  Platform.DEFAULT_CLOCK_FREQUENCIES_MHZ platform !! domain = None ->
  clock_frequencies self ≫= (fun o => o !! domain) = None ->
  generate_clock domain self' m platform = ([], Raise (KeyError domain)).
Proof.
  intros H Hd Hp Ho.
  rewrite (generate_clock_after_create _ _ _ _ _ _ _ H Hd).
  rewrite merge_clock_frequencies_lookup, Ho, Hp. reflexivity.
Qed.

Lemma generate_clock_missing_domain_witness :
  let platform : Platform.t :=
    {| Platform.DEFAULT_CLOCK_FREQUENCIES_MHZ := {[ "usb" := 60 ]};
       Platform.default_clk := "clk30";
       Platform.default_clk_frequency := 30000000;
       Platform.request := fun name => Ok (Signal name 1);
       Platform.vccio_voltage := fun _ => None |} in
  let self := __init__ (Some {[ "sync" := 120 ]}) None in
  exists self' m,
    create_submodules self Module_new platform = ([], Ok (self', m)) /\
    generate_clock "fast" self' m platform = ([], Raise (KeyError "fast")).
Proof.
  intros platform self. eexists _, _. split; [reflexivity|].
  apply (generate_clock_missing_domain self Module_new platform [] _ _ "fast" eq_refl).
  - set_solver.
  - reflexivity.
  - reflexivity.
Defined.

(** Two domains are driven by the same PLL output exactly when they are
    given the same frequency. *)
Theorem domains_share_a_tap self m0 platform log self' m d1 d2 c1 c2 :
  create_submodules self m0 platform = (log, Ok (self', m)) ->
  d1 ∈ ["fast"; "sync"; "usb"] -> d2 ∈ ["fast"; "sync"; "usb"] ->
  generate_clock d1 self' m platform = ([], Ok c1) ->
  generate_clock d2 self' m platform = ([], Ok c2) ->
  let merged := merge_clock_frequencies (Platform.DEFAULT_CLOCK_FREQUENCIES_MHZ platform)
                  (clock_frequencies self) in
  (c1 = c2 <-> merged !! d1 = merged !! d2) /\
  c1 <> _pll_lock /\
  exists f, merged !! d1 = Some f /\ tap f = Some c1.
Proof.
  intros H H1 H2 G1 G2 merged.
  rewrite (generate_clock_after_create _ _ _ _ _ _ _ H H1) in G1.
  rewrite (generate_clock_after_create _ _ _ _ _ _ _ H H2) in G2.
  fold merged in G1, G2.
  destruct (merged !! d1) as [f1|]; [|discriminate G1].
  destruct (merged !! d2) as [f2|]; [|discriminate G2].
  unfold tap in *.
  repeat case_decide; subst; try discriminate G1; try discriminate G2;
    injection G1 as <-; injection G2 as <-;
    (split; [split; [intros E; first [reflexivity | discriminate E]
                    | intros E; first [reflexivity | discriminate E]]
            | split; [discriminate | eexists; split; reflexivity]]).
Qed.

Lemma domains_share_a_tap_witness :
  let self := __init__ (Some {[ "sync" := 60 ]}) None in
  let platform := ButterStickPlatform (fun _ => None) in
  exists self' m c,
    create_submodules self Module_new platform = ([], Ok (self', m)) /\
    generate_clock "sync" self' m platform = ([], Ok c) /\
    generate_clock "usb" self' m platform = ([], Ok c).
Proof.
  intros self platform. eexists _, _, _. split; [reflexivity|].
  split; [reflexivity|].
  pose proof (domains_share_a_tap self Module_new platform [] _ _ "sync" "usb"
                _clk_60MHz _clk_60MHz eq_refl ltac:(set_solver) ltac:(set_solver)
                eq_refl eq_refl) as [_ _].
  reflexivity.
Defined.

End Generator.

(** ** Loops that collect requests *)

Lemma bind_assoc {A B C} (c : py A) (f : A -> py B) (g : B -> py C) :
  ((c ≫= f) ≫= g) = (c ≫= fun a => f a ≫= g).
Proof.
  unfold mbind, py_bind, bind. destruct c as [l [a|e]]; [|reflexivity].
  destruct (f a) as [l' [b|e']]; [|reflexivity].
  destruct (g b) as [l'' r]. rewrite app_assoc. reflexivity.
Qed.

Lemma bind_ext {A B} (c : py A) (f g : A -> py B) :
  (forall a, f a = g a) -> (c ≫= f) = (c ≫= g).
Proof.
  intros H. unfold mbind, py_bind, bind. destruct c as [l [a|e]]; [|reflexivity].
  rewrite H. reflexivity.
Qed.

Lemma for_each_app {A S} (l1 l2 : list A) (body : A -> S -> py S) (s : S) :
  for_each (l1 ++ l2) body s = (s' ← for_each l1 body s; for_each l2 body s').
Proof.
  revert s. induction l1 as [|a l1 IH]; intros s; cbn [for_each app].
  - rewrite bind_ok. reflexivity.
  - rewrite bind_assoc. apply bind_ext. intros s'. apply IH.
Qed.

Lemma for_each_pairs {A B S} (a : A) (l2 : list B) (body : A -> B -> S -> py S) (s : S) :
  for_each (map (pair a) l2) (fun ab s => body (fst ab) (snd ab) s) s
  = for_each l2 (body a) s.
Proof.
  revert s. induction l2 as [|b l2 IH]; intros s; cbn [for_each map fst snd].
  - reflexivity.
  - apply bind_ext. intros s'. apply IH.
Qed.

Lemma for_each_nested {A B S} (l1 : list A) (l2 : list B)
    (body : A -> B -> S -> py S) (s : S) :
  for_each l1 (fun a s => for_each l2 (body a) s) s
  = for_each (list_prod l1 l2) (fun ab s => body (fst ab) (snd ab) s) s.
Proof.
  revert s. induction l1 as [|a l1 IH]; intros s; cbn [for_each list_prod].
  - reflexivity.
  - rewrite for_each_app, for_each_pairs. apply bind_ext. intros s'. apply IH.
Qed.

Section Requests.
Context {A : Type} (g : A -> result signal).

Let body (a : A) (leds : list signal) : py (list signal) :=
  led ← lift (g a); mret (leds ++ [led]).

Lemma for_each_request_ok (l : list A) (xs leds0 : list signal) :
  Forall2 (fun a x => g a = Ok x) l xs ->
  for_each l body leds0 = ([], Ok (leds0 ++ xs)).
Proof.
  intros H. revert leds0. induction H as [|a x l xs Ha _ IH]; intros leds0.
  - cbn [for_each]. rewrite app_nil_r. reflexivity.
  - cbn [for_each]. change (body ?a ?l0) with (led ← lift (g a); mret (l0 ++ [led])). rewrite Ha, bind_lift_ok, bind_ok, IH.
    rewrite <- app_assoc. reflexivity.
Qed.

Lemma for_each_request_raise (l1 l2 : list A) (a : A) (e : exn) (leds0 : list signal) :
  Forall (fun b => exists x, g b = Ok x) l1 ->
  g a = Raise e ->
  for_each (l1 ++ a :: l2) body leds0 = ([], Raise e).
Proof.
  intros H Ha. revert leds0. induction H as [|b l1 [x Hb] _ IH]; intros leds0.
  - cbn [for_each app]. change (body ?a ?l0) with (led ← lift (g a); mret (l0 ++ [led])). rewrite Ha. reflexivity.
  - cbn [for_each app]. change (body ?a ?l0) with (led ← lift (g a); mret (l0 ++ [led])). rewrite Hb, bind_lift_ok, bind_ok. apply IH.
Qed.

Lemma for_each_request_inv (l : list A) (leds0 r : list signal) (log : list string) :
  for_each l body leds0 = (log, Ok r) ->
  log = [] /\ exists xs, r = leds0 ++ xs /\ Forall2 (fun a x => g a = Ok x) l xs.
Proof.
  revert leds0 log. induction l as [|a l IH]; intros leds0 log; cbn [for_each].
  - intros H. injection H as <- <-. split; [reflexivity|].
    exists []. rewrite app_nil_r. split; [reflexivity|constructor].
  - change (body ?a ?l0) with (led ← lift (g a); mret (l0 ++ [led])). destruct (g a) as [x|e] eqn:Ha; [|discriminate].
    rewrite bind_lift_ok, bind_ok. intros H.
    destruct (IH _ _ H) as (-> & xs & -> & Hxs). split; [reflexivity|].
    exists (x :: xs). rewrite <- app_assoc. split; [reflexivity|].
    constructor; assumption.
Qed.

End Requests.

Lemma map_seq_split {A} (f : nat -> A) (k n : nat) :
  (k < n)%nat ->
  map f (seq 0 n) = map f (seq 0 k) ++ f k :: map f (seq (S k) (n - S k)).
Proof.
  intros H. replace n with (k + S (n - S k))%nat at 1 by lia.
  rewrite seq_app, map_app. reflexivity.
Qed.

(** ** The LED chaser of 02_pmod.py *)

Section ShiftyMachine.
Import Shifty.

Lemma shifter_after_step (t : Z) :
  0 <= t ->
  (if shifter_after t =? 0 then 1 mod 2 ^ 32
   else if (t + 1) mod 2 ^ 23 =? 0 then Z.shiftl (shifter_after t) 1 mod 2 ^ 32
   else shifter_after t) = shifter_after (t + 1).
Proof.
  intros Ht. unfold shifter_after.
  change (2 ^ 23) with 8388608. change (1 mod 2 ^ 32) with 1.
  set (a := t / 8388608). set (r := t mod 8388608).
  assert (Hq : 0 <= a mod 32 < 32) by (apply Z.mod_pos_bound; lia).
  assert (Hr : 0 <= r < 8388608) by (apply Z.mod_pos_bound; lia).
  assert (Et : t = 8388608 * a + r) by (apply Z.div_mod; lia).
  assert (Ha : 0 <= a) by (apply Z.div_pos; lia).
  destruct (Z.eq_dec r 8388607) as [Er|Er].
  - (* the counter wraps *)
    assert (E1 : (t + 1) / 8388608 = a + 1).
    { symmetry. apply (Z.div_unique _ _ _ 0); lia. }
    assert (E2 : (t + 1) mod 8388608 = 0).
    { symmetry. apply (Z.mod_unique _ _ (a + 1)); lia. }
    rewrite E1, E2. rewrite Er. cbn [Z.eqb].
    destruct (Z.ltb_spec (a mod 32) 31) as [Hlt|Hge].
    + assert (E3 : (a + 1) mod 32 = a mod 32 + 1).
      { pose proof (Z.div_mod a 32 ltac:(lia)) as Ea.
        symmetry. apply (Z.mod_unique _ _ (a / 32)); lia. }
      rewrite E3.
      assert (Hp : 0 < 2 ^ (a mod 32 + 1)) by (apply Z.pow_pos_nonneg; lia).
      destruct (Z.eqb_spec (2 ^ (a mod 32 + 1)) 0) as [E0|_]; [lia|].
      rewrite Z.shiftl_mul_pow2 by lia. rewrite <- Z.pow_add_r by lia.
      destruct (Z.ltb_spec (a mod 32 + 1) 31) as [Hlt'|Hge'].
      * rewrite Z.mod_small; [f_equal; lia|].
        split; [apply Z.pow_nonneg; lia|apply Z.pow_lt_mono_r; lia].
      * assert (a mod 32 = 30) as -> by lia. reflexivity.
    + assert (E3 : (a + 1) mod 32 = 0).
      { pose proof (Z.div_mod a 32 ltac:(lia)) as Ea.
        symmetry. apply (Z.mod_unique _ _ (a / 32 + 1)); lia. }
      rewrite E3. reflexivity.
  - (* the counter does not wrap *)
    assert (E1 : (t + 1) / 8388608 = a).
    { symmetry. apply (Z.div_unique _ _ _ (r + 1)); lia. }
    assert (E2 : (t + 1) mod 8388608 = r + 1).
    { symmetry. apply (Z.mod_unique _ _ a); lia. }
    rewrite E1, E2.
    destruct (Z.eqb_spec (r + 1) 0) as [?|_]; [lia|].
    destruct (Z.ltb_spec (a mod 32) 31) as [Hlt|Hge].
    + assert (Hp : 0 < 2 ^ (a mod 32 + 1)) by (apply Z.pow_pos_nonneg; lia).
      destruct (Z.eqb_spec (2 ^ (a mod 32 + 1)) 0) as [E0|_]; [lia|].
      destruct (Z.eqb_spec (r + 1) 0); [lia|reflexivity].
    + destruct (Z.eqb_spec r 0) as [E0|N0]; reflexivity.
Qed.

Lemma after_closed_form (d : Design) (t : nat) :
  length (leds d) = 32%nat ->
  after d (S t)
  = {| counter := (Z.of_nat t + 1) mod 2 ^ 23; shifter := shifter_after (Z.of_nat t) |}.
Proof.
  intros Hn. induction t as [|t IH].
  - unfold after. cbn [Nat.iter]. unfold step, reset. rewrite Hn. reflexivity.
  - change (after d (S (S t))) with (step d (after d (S t))).
    rewrite IH. unfold step.
    cbn [counter shifter]. rewrite Hn.
    change (Z.of_nat 32) with 32.
    rewrite Z.add_mod_idemp_l by lia.
    replace (Z.of_nat (S t)) with (Z.of_nat t + 1) by lia.
    f_equal. apply shifter_after_step. lia.
Qed.

Lemma pow2_testbit (k i : Z) : 0 <= k -> 0 <= i -> Z.testbit (2 ^ k) i = bool_decide (k = i).
Proof.
  intros Hk Hi. case_bool_decide as E.
  - subst. apply Z.pow2_bits_true. lia.
  - apply Z.pow2_bits_false. congruence.
Qed.

Lemma shifty_requests_flat (platform : Board.t) :
  elaborate platform
  = (leds ← for_each (map led_request (seq 0 32))
               (fun ab leds =>
                  led ← lift (Board.request_pin platform (fst ab) (snd ab));
                  mret (leds ++ [led])) [];
     vccio_ctrl ← lift (Board.request_vccio_ctrl platform 0);
     mret {| leds := leds; vccio_ctrl := vccio_ctrl |}).
Proof.
  unfold elaborate.
  rewrite (for_each_nested _ _
             (fun pmod pin leds =>
                led ← lift (Board.request_pin platform pmod pin);
                mret (leds ++ [led]))).
  reflexivity.
Qed.

Lemma shifty_elaborate_inv (platform : Board.t) log d :
  elaborate platform = (log, Ok d) ->
  log = [] /\
  Forall2 (fun ab x => Board.request_pin platform (fst ab) (snd ab) = Ok x)
    (map led_request (seq 0 32)) (leds d) /\
  Board.request_vccio_ctrl platform 0 = Ok (vccio_ctrl d).
Proof.
  rewrite shifty_requests_flat. intros H.
  apply bind_returned in H as (l1 & xs & l2 & H1 & H2 & ->).
  apply (for_each_request_inv
           (fun ab => Board.request_pin platform (fst ab) (snd ab))) in H1
    as (-> & ys & -> & Hys).
  destruct (Board.request_vccio_ctrl platform 0) as [v|e]; [|discriminate H2].
  rewrite bind_lift_ok in H2. injection H2 as <- <-.
  split; [reflexivity|]. split; [exact Hys|reflexivity].
Qed.

Lemma shifty_elaborate_length (platform : Board.t) log d :
  elaborate platform = (log, Ok d) -> length (leds d) = 32%nat.
Proof.
  intros H. apply shifty_elaborate_inv in H as (_ & H & _).
  apply Forall2_length in H. rewrite <- H. reflexivity.
Qed.

(** [Shifty.elaborate] asks the platform for the 32 LEDs in the order of
    their index (LED [k] is pin [k mod 8] of the [k / 8]-th PMOD) and then
    for the VCCIO control pins.  If all 33 requests succeed it returns the
    32 LEDs in that order and logs nothing; otherwise it raises the error
    of the first request that fails. *)
Theorem shifty_elaborate_requests (platform : Board.t) :
  let req k := Board.request_pin platform (fst (led_request k)) (snd (led_request k)) in
  (forall log d,
     elaborate platform = (log, Ok d) ->
     log = [] /\ length (leds d) = 32%nat /\
     (forall k x, leds d !! k = Some x -> req k = Ok x) /\
     Board.request_vccio_ctrl platform 0 = Ok (vccio_ctrl d)) /\
  (forall k e,
     (k < 32)%nat -> (forall j, (j < k)%nat -> exists x, req j = Ok x) ->
     req k = Raise e ->
     elaborate platform = ([], Raise e)) /\
  (forall e,
     (forall j, (j < 32)%nat -> exists x, req j = Ok x) ->
     Board.request_vccio_ctrl platform 0 = Raise e ->
     elaborate platform = ([], Raise e)) /\
  (forall xs v,
     length xs = 32%nat -> (forall k x, xs !! k = Some x -> req k = Ok x) ->
     Board.request_vccio_ctrl platform 0 = Ok v ->
     elaborate platform = ([], Ok {| leds := xs; vccio_ctrl := v |})).
Proof.
  intros req.
  assert (Hall : forall xs,
            length xs = 32%nat -> (forall k x, xs !! k = Some x -> req k = Ok x) ->
            Forall2 (fun ab x => Board.request_pin platform (fst ab) (snd ab) = Ok x)
              (map led_request (seq 0 32)) xs).
  { intros xs Hlen Hxs. apply Forall2_same_length_lookup_2.
    - rewrite length_map, length_seq, Hlen. reflexivity.
    - intros k ab x Hab Hx. rewrite list_lookup_fmap in Hab.
      destruct (seq 0 32 !! k) as [k'|] eqn:Ek; [|discriminate Hab].
      apply lookup_seq in Ek as [-> _]. injection Hab as <-.
      apply (Hxs _ _ Hx). }
  assert (Hsome : forall n, (n <= 32)%nat ->
            (forall j, (j < n)%nat -> exists x, req j = Ok x) ->
            exists xs, length xs = n /\
              Forall2 (fun ab x => Board.request_pin platform (fst ab) (snd ab) = Ok x)
                (map led_request (seq 0 n)) xs).
  { induction n as [|n IH]; intros Hn Hj.
    - exists []. split; [reflexivity|constructor].
    - destruct IH as (xs & Hlen & Hxs); [lia|intros j ?; apply Hj; lia|].
      destruct (Hj n ltac:(lia)) as [x Hx].
      exists (xs ++ [x]). split; [rewrite length_app, Hlen; cbn; lia|].
      rewrite seq_S, map_app. apply Forall2_app; [exact Hxs|].
      constructor; [exact Hx|constructor]. }
  split; [|split; [|split]].
  - intros log d H. pose proof (shifty_elaborate_length _ _ _ H) as Hlen.
    apply shifty_elaborate_inv in H as (-> & Hl & Hv).
    split; [reflexivity|]. split; [exact Hlen|]. split; [|exact Hv].
    intros k x Hx.
    destruct (Forall2_lookup_r _ _ _ _ _ Hl Hx) as (ab & Hab & Hreq).
    rewrite list_lookup_fmap in Hab.
    destruct (seq 0 32 !! k) as [k'|] eqn:Ek; [|discriminate Hab].
    apply lookup_seq in Ek as [-> _]. injection Hab as <-. exact Hreq.
  - intros k e Hk Hj He. rewrite shifty_requests_flat.
    rewrite (map_seq_split led_request k 32 Hk).
    rewrite (for_each_request_raise
               (fun ab => Board.request_pin platform (fst ab) (snd ab)) _ _ _ e).
    + reflexivity.
    + destruct (Hsome k ltac:(lia) Hj) as (xs & _ & Hxs).
      clear -Hxs. induction Hxs; constructor; eauto.
    + exact He.
  - intros e Hj He. rewrite shifty_requests_flat.
    destruct (Hsome 32%nat ltac:(lia) Hj) as (xs & _ & Hxs).
    rewrite (for_each_request_ok
               (fun ab => Board.request_pin platform (fst ab) (snd ab)) _ _ _ Hxs).
    rewrite He. reflexivity.
  - intros xs v Hlen Hxs Hv. rewrite shifty_requests_flat.
    rewrite (for_each_request_ok
               (fun ab => Board.request_pin platform (fst ab) (snd ab)) _ _ _
               (Hall xs Hlen Hxs)).
    rewrite Hv. reflexivity.
Qed.

Lemma shifty_elaborate_requests_witness :
  let platform : Board.t :=
    {| Board.request_pin := fun name number =>
         if decide (name = "led_2a" /\ 3 <= number)
         then Raise (ResourceError (name +:+ "#" +:+ pretty number))
         else Ok (Signal (name +:+ "#" +:+ pretty number) 1);
       Board.request_rgb_led := fun _ => Raise (ResourceError "rgb_led");
       Board.request_vccio_ctrl := fun _ => Raise (ResourceError "vccio_ctrl") |} in
  elaborate platform = ([], Raise (ResourceError "led_2a#3")).
Proof.
  intros platform.
  apply (proj1 (proj2 (shifty_elaborate_requests platform)) 19%nat).
  - lia.
  - intros j Hj.
    do 19 (destruct j as [|j]; [eexists; reflexivity|]). lia.
  - reflexivity.
Defined.

(** At most one LED is lit on any tick after reset, whatever the number of
    LEDs. *)
Theorem shifty_at_most_one_led (d : Design) (ticks i j : nat) :
  led_o d (after d ticks) i = true ->
  led_o d (after d ticks) j = true ->
  i = j.
Proof.
  assert (Hinv : shifter (after d ticks) = 0
                 \/ exists k, 0 <= k /\ shifter (after d ticks) = 2 ^ k).
  { induction ticks as [|t IH].
    - right. exists 0. split; [lia|reflexivity].
    - change (after d (S t)) with (step d (after d t)).
      set (n := Z.of_nat (length (leds d))).
      assert (Hn : 0 <= n) by lia.
      assert (Hpow : forall k, 0 <= k ->
                2 ^ k mod 2 ^ n = 0 \/ 2 ^ k mod 2 ^ n = 2 ^ k).
      { intros k Hk. destruct (Z.lt_ge_cases k n) as [Hlt|Hge].
        - right. apply Z.mod_small. split; [apply Z.pow_nonneg; lia|].
          apply Z.pow_lt_mono_r; lia.
        - left. replace k with (n + (k - n)) by lia.
          rewrite Z.pow_add_r by lia. rewrite Z.mul_comm. apply Z.mod_mul.
          apply Z.pow_nonzero; lia. }
      unfold step. cbn [shifter]. fold n.
      destruct (Z.eqb_spec (shifter (after d t)) 0) as [E0|N0].
      + destruct (Hpow 0 ltac:(lia)) as [H|H]; change (2 ^ 0) with 1 in H.
        * left. exact H.
        * right. exists 0. split; [lia|exact H].
      + destruct IH as [?|(k & Hk & Ek)]; [contradiction|].
        destruct (counter (after d t) =? 0).
        * rewrite Ek, Z.shiftl_mul_pow2, <- Z.pow_add_r by lia.
          destruct (Hpow (k + 1) ltac:(lia)) as [H|H].
          -- left. exact H.
          -- right. exists (k + 1). split; [lia|exact H].
        * right. exists k. split; assumption. }
  unfold led_o. destruct Hinv as [-> | (k & Hk & ->)].
  - rewrite Z.bits_0. discriminate.
  - rewrite !pow2_testbit by lia. intros Hi Hj.
    apply bool_decide_eq_true in Hi, Hj. lia.
Qed.

Lemma shifty_at_most_one_led_witness :
  let d := {| leds := replicate 32 (Signal "led" 1);
              vccio_ctrl := {| pdm := Signal "pdm" 3; en := Signal "en" 1 |} |} in
  led_o d (after d 5) 1 = true /\ led_o d (after d 5) 0 <> true.
Proof.
  intros d. split; [reflexivity|].
  intros H. pose proof (shifty_at_most_one_led d 5 0 1 H eq_refl) as E.
  discriminate E.
Defined.

(** The schedule of the chaser this design builds: on every tick the
    counter is the number of ticks modulo [2^23] and the LED that is lit is
    the one [lit_led] names: LED 0 at reset, then the LEDs 1 to 31 for
    [2^23] ticks each, one tick with no LED, LED 0 for [2^23 - 1] ticks, and
    so on. *)
Theorem shifty_led_schedule (platform : Board.t) log d (ticks index : nat) :
  elaborate platform = (log, Ok d) ->
  counter (after d ticks) = Z.of_nat ticks mod 2 ^ 23 /\
  led_o d (after d ticks) index
  = bool_decide (lit_led (Z.of_nat ticks) = Some (Z.of_nat index)).
Proof.
  intros H. apply shifty_elaborate_length in H.
  destruct ticks as [|t].
  - split; [reflexivity|]. unfold led_o, lit_led, after, reset.
    cbn [Nat.iter shifter].
    change (Z.of_nat 0 =? 0) with true. cbn match.
    change (Z.testbit _ (Z.of_nat index)) with (Z.testbit (2 ^ 0) (Z.of_nat index)).
    rewrite pow2_testbit by lia.
    apply bool_decide_ext. split; [intros <-; reflexivity|intros E; injection E; lia].
  - rewrite (after_closed_form d t H). cbn [counter].
    split; [f_equal; lia|].
    unfold led_o, lit_led, shifter_after. cbn [shifter].
    destruct (Z.eqb_spec (Z.of_nat (S t)) 0) as [?|_]; [lia|].
    replace (Z.of_nat (S t) - 1) with (Z.of_nat t) by lia.
    set (q := (Z.of_nat t / 2 ^ 23) mod 32).
    assert (Hq : 0 <= q < 32) by (apply Z.mod_pos_bound; lia).
    destruct (q <? 31).
    + rewrite pow2_testbit by lia. apply bool_decide_ext.
      split; [intros <-; reflexivity|intros E; injection E; lia].
    + destruct (Z.of_nat t mod 2 ^ 23 =? 0).
      * rewrite Z.bits_0. symmetry. apply bool_decide_eq_false. discriminate.
      * change (Z.testbit 1) with (Z.testbit (2 ^ 0)).
        rewrite pow2_testbit by lia. apply bool_decide_ext.
        split; [intros <-; reflexivity|intros E; injection E; lia].
Qed.

Lemma shifty_led_schedule_witness :
  let platform : Board.t :=
    {| Board.request_pin := fun name number => Ok (Signal (name +:+ "#" +:+ pretty number) 1);
       Board.request_rgb_led := fun _ => Raise (ResourceError "rgb_led");
       Board.request_vccio_ctrl := fun _ =>
         Ok {| pdm := Signal "pdm" 3; en := Signal "en" 1 |} |} in
  exists d,
    elaborate platform = ([], Ok d) /\
    led_o d (after d 5) 1 = true /\ led_o d (after d 5) 0 = false.
Proof.
  intros platform. eexists. split; [reflexivity|].
  split.
  - exact (proj2 (shifty_led_schedule platform [] _ 5 1 eq_refl)).
  - exact (proj2 (shifty_led_schedule platform [] _ 5 0 eq_refl)).
Defined.

(** The chaser repeats every [2^28] ticks, and is back in its reset state
    after the first [2^28]. *)
Theorem shifty_period (platform : Board.t) log d (ticks : nat) :
  elaborate platform = (log, Ok d) ->
  after d (ticks + Z.to_nat (2 ^ 28)) = after d ticks /\
  after d (Z.to_nat (2 ^ 28)) = reset d.
Proof.
  intros H. apply shifty_elaborate_length in H.
  assert (Hone : after d (Z.to_nat (2 ^ 28)) = reset d).
  { change (2 ^ 28) with (Z.succ 268435455).
    rewrite Z2Nat.inj_succ by (intros E; discriminate E).
    rewrite (after_closed_form d _ H).
    rewrite Z2Nat.id by (intros E; discriminate E). reflexivity. }
  split; [|exact Hone].
  revert Hone. generalize (Z.to_nat (2 ^ 28)). intros n Hone.
  unfold after in *. rewrite Nat.iter_add, Hone. reflexivity.
Qed.

Lemma shifty_period_witness :
  let platform : Board.t :=
    {| Board.request_pin := fun name number => Ok (Signal (name +:+ "#" +:+ pretty number) 1);
       Board.request_rgb_led := fun _ => Raise (ResourceError "rgb_led");
       Board.request_vccio_ctrl := fun _ =>
         Ok {| pdm := Signal "pdm" 3; en := Signal "en" 1 |} |} in
  exists d,
    elaborate platform = ([], Ok d) /\ after d (Z.to_nat (2 ^ 28)) = reset d.
Proof.
  intros platform. eexists. split; [reflexivity|].
  exact (proj2 (shifty_period platform [] _ 0 eq_refl)).
Defined.

End ShiftyMachine.

(** ** The PMOD adapter of 02_pmod.py *)

Section Adapter.
Import SygyzyPmodAdapter.

Lemma string_app_cons (x : Ascii.ascii) (a b : string) :
  String x a +:+ b = String x (a +:+ b).
Proof. reflexivity. Qed.

Lemma string_app_nil_l (a : string) : "" +:+ a = a.
Proof. reflexivity. Qed.

Lemma string_app_assoc (a b c : string) : (a +:+ b) +:+ c = a +:+ (b +:+ c).
Proof.
  induction a as [|x a IH]; [reflexivity|].
  rewrite !string_app_cons, IH. reflexivity.
Qed.

Lemma string_app_nil_r (a : string) : a +:+ "" = a.
Proof.
  induction a as [|x a IH]; [reflexivity|].
  rewrite string_app_cons, IH. reflexivity.
Qed.

Lemma printable_app (a b : string) : printable a -> printable b -> printable (a +:+ b).
Proof.
  unfold printable. intros Ha Hb. induction a as [|x a IH]; [exact Hb|].
  rewrite string_app_cons. cbn [String.list_ascii_of_string] in *.
  apply Forall_cons in Ha as [Hx Ha]. constructor; [exact Hx|apply IH, Ha].
Qed.

Lemma printable_no_space (x : Ascii.ascii) :
  (33 <= Ascii.nat_of_ascii x <= 126)%nat -> is_space x = false.
Proof.
  intros H. unfold is_space. cbv zeta.
  destruct (Nat.leb_spec 9 (Ascii.nat_of_ascii x)),
           (Nat.leb_spec (Ascii.nat_of_ascii x) 13),
           (Nat.leb_spec 28 (Ascii.nat_of_ascii x)),
           (Nat.leb_spec (Ascii.nat_of_ascii x) 32); cbn; first [reflexivity | lia].
Qed.

Lemma split_from_word (cur w rest : string) :
  printable w ->
  split_from cur (w +:+ " " +:+ rest)
  = if decide (cur +:+ w = "") then split_from "" rest
    else (cur +:+ w) :: split_from "" rest.
Proof.
  unfold printable. revert cur. induction w as [|x w IH]; intros cur Hw.
  - rewrite string_app_nil_l, string_app_cons, string_app_nil_l, string_app_nil_r.
    reflexivity.
  - cbn [String.list_ascii_of_string] in Hw. apply Forall_cons in Hw as [Hx Hw].
    rewrite string_app_cons. cbn [split_from]. rewrite (printable_no_space x Hx).
    rewrite (IH _ Hw), string_app_assoc, string_app_cons, string_app_nil_l.
    reflexivity.
Qed.

Lemma split_words (ws : list string) :
  Forall (fun w => printable w /\ w <> "") ws ->
  split (fold_right (fun w acc => w +:+ " " +:+ acc) "" ws) = ws.
Proof.
  unfold split. induction 1 as [|w ws [Hw Hne] _ IH]; cbn [fold_right].
  - reflexivity.
  - rewrite (split_from_word "" w _ Hw), string_app_nil_l.
    case_decide; [contradiction|]. rewrite IH. reflexivity.
Qed.

Lemma pin_string_spec (name : string) (pins : list string) (init : string) :
  fold_left (fun pin_str pin => pin_str +:+ (name +:+ ":" +:+ pin +:+ " ")) pins init
  = init +:+ fold_right (fun w acc => w +:+ " " +:+ acc) ""
               (map (fun pin => name +:+ ":" +:+ pin) pins).
Proof.
  revert init. induction pins as [|pin pins IH]; intros init; cbn [fold_left map fold_right].
  - rewrite string_app_nil_r. reflexivity.
  - rewrite IH, !string_app_assoc, !string_app_cons, !string_app_nil_l.
    reflexivity.
Qed.

Lemma connectors_spec (self : t) :
  connectors self
  = map (fun pp =>
           {| conn_name := fst pp; conn_number := 0;
              conn_io := fold_right (fun w acc => w +:+ " " +:+ acc) ""
                           (map (fun pin => syzygy_name self +:+ ":" +:+ pin) (snd pp)) |})
      pmod_pins.
Proof.
  unfold connectors.
  assert (H : forall l init,
            fold_left
              (fun connectors '(pmod, pins) =>
                 let pin_str :=
                   fold_left
                     (fun pin_str pin =>
                        pin_str +:+ (syzygy_name self +:+ ":" +:+ pin +:+ " "))
                     pins "" in
                 connectors ++ [ {| conn_name := pmod; conn_number := 0;
                                    conn_io := pin_str |} ]) l init
            = init ++ map (fun pp =>
                 {| conn_name := fst pp; conn_number := 0;
                    conn_io := fold_right (fun w acc => w +:+ " " +:+ acc) ""
                      (map (fun pin => syzygy_name self +:+ ":" +:+ pin) (snd pp)) |}) l).
  { induction l as [|[pmod pins] l IH]; intros init; cbn [fold_left map].
    - rewrite app_nil_r. reflexivity.
    - rewrite IH, <- app_assoc. cbv zeta. rewrite pin_string_spec. reflexivity. }
  apply (H pmod_pins []).
Qed.

Lemma pin_entry_not_placeholder (name pin : string) : name +:+ ":" +:+ pin <> "-".
Proof.
  destruct name as [|x name]; [discriminate|].
  rewrite string_app_cons. destruct name; [|rewrite string_app_cons]; discriminate.
Qed.

Lemma pmod_pins_printable :
  Forall (fun pp => Forall printable (snd pp)) pmod_pins.
Proof.
  unfold pmod_pins, printable.
  repeat first [ apply Forall_nil_2 | apply Forall_cons_2
               | progress cbn [snd String.list_ascii_of_string]
               | (split; apply Nat.leb_le; reflexivity) ].
Qed.

Lemma connector_tokens (self : t) (pmod : string) (pins : list string) :
  printable (syzygy_name self) ->
  Forall printable pins ->
  split (fold_right (fun w acc => w +:+ " " +:+ acc) ""
           (map (fun pin => syzygy_name self +:+ ":" +:+ pin) pins))
  = map (fun pin => syzygy_name self +:+ ":" +:+ pin) pins.
Proof.
  intros Hn Hp. apply split_words. apply Forall_map.
  induction Hp as [|pin pins Hpin _ IH]; constructor; [|exact IH].
  split.
  - apply printable_app; [exact Hn|].
    rewrite string_app_cons, string_app_nil_l. unfold printable in *.
    cbn [String.list_ascii_of_string]. constructor; [split; apply Nat.leb_le; reflexivity|exact Hpin].
  - intros E. destruct (syzygy_name self); discriminate E.
Qed.

(** Splitting the pin string of a connector at whitespace gives back the
    twelve pins of its PMOD in order, each prefixed with the name of the
    SYZYGY port and a colon, whenever that name has no space in it.  The
    placeholders come back as [name:-], so that no entry is the bare
    placeholder ["-"].  There is one connector per PMOD, numbered 0. *)
Theorem connector_pin_strings (self : t) :
  printable (syzygy_name self) ->
  map (fun c => (conn_name c, conn_number c, split (conn_io c))) (connectors self)
  = map (fun pp => (fst pp, 0, map (fun pin => syzygy_name self +:+ ":" +:+ pin) (snd pp)))
      pmod_pins /\
  forall c, c ∈ connectors self ->
            length (split (conn_io c)) = 12%nat /\ "-" ∉ split (conn_io c).
Proof.
  intros Hn.
  assert (Hc : forall c, c ∈ connectors self ->
            exists pp, pp ∈ pmod_pins /\ conn_name c = fst pp /\ conn_number c = 0 /\
              split (conn_io c)
              = map (fun pin => syzygy_name self +:+ ":" +:+ pin) (snd pp)).
  { intros c Hin. rewrite connectors_spec in Hin.
    apply list_elem_of_fmap in Hin as (pp & -> & Hpp).
    exists pp. split; [exact Hpp|]. split; [reflexivity|]. split; [reflexivity|].
    cbn [conn_io]. apply (connector_tokens self (fst pp)); [exact Hn|].
    pose proof pmod_pins_printable as Hall.
    rewrite Forall_forall in Hall. apply Hall. exact Hpp. }
  split.
  - rewrite connectors_spec, map_map. apply map_ext_in. intros pp Hpp.
    cbn [conn_name conn_number conn_io]. f_equal.
    apply (connector_tokens self (fst pp)); [exact Hn|].
    pose proof pmod_pins_printable as Hall.
    rewrite Forall_forall in Hall. apply Hall. apply list_elem_of_In. exact Hpp.
  - intros c Hin. destruct (Hc c Hin) as (pp & Hpp & _ & _ & ->).
    split.
    + rewrite length_map. unfold pmod_pins in Hpp.
      rewrite !elem_of_cons, elem_of_nil in Hpp.
      destruct Hpp as [-> | [-> | [-> | [-> | []]]]]; reflexivity.
    + intros Hd. apply list_elem_of_fmap in Hd as (pin & Hd & _).
      symmetry in Hd. exact (pin_entry_not_placeholder _ _ Hd).
Qed.

Lemma connector_pin_strings_witness :
  map (fun c => (conn_name c, conn_number c, length (split (conn_io c))))
    (connectors {| syzygy_name := "syzygy_0" |})
  = [("pmod_1a", 0, 12%nat); ("pmod_1b", 0, 12%nat);
     ("pmod_2a", 0, 12%nat); ("pmod_2b", 0, 12%nat)].
Proof.
  assert (Hp : printable "syzygy_0").
  { unfold printable.
    repeat first [ apply Forall_nil_2 | apply Forall_cons_2
                 | progress cbn [String.list_ascii_of_string]
                 | (split; apply Nat.leb_le; reflexivity) ]. }
  pose proof (proj1 (connector_pin_strings {| syzygy_name := "syzygy_0" |} Hp)) as H.
  apply (f_equal (map (fun x => (fst (fst x), snd (fst x), length (snd x))))) in H.
  rewrite !map_map in H. cbn [fst snd] in H. rewrite H. reflexivity.
Defined.

(** Every LED that [Shifty] requests is declared by [_pmod], and on a
    pin that is wired: the entry with the LED's number in the [pins] string
    of its PMOD names pin [j + 1] (connector pins count from 1) of a
    connector that [connectors] returns, and the [j]-th entry of that
    connector's pin string is one of the SYZYGY pins [S..], not a
    placeholder. *)
Theorem led_pins_are_connected (self : t) (k : nat) :
  printable (syzygy_name self) ->
  (k < 32)%nat ->
  exists pins_str token c j plat,
    (fst (led_request k), pins_str) ∈ _pmod /\
    split pins_str !! Z.to_nat (snd (led_request k)) = Some token /\
    c ∈ connectors self /\
    token = conn_name c +:+ "_" +:+ pretty (conn_number c) +:+ ":"
            +:+ pretty (Z.of_nat (S j)) /\
    split (conn_io c) !! j = Some plat /\
    plat <> syzygy_name self +:+ ":-" /\
    exists pin, plat = syzygy_name self +:+ ":S" +:+ pin.
Proof.
  intros Hn Hk.
  set (h := fun pp : string * list string =>
              {| conn_name := fst pp; conn_number := 0;
                 conn_io := fold_right (fun w acc => w +:+ " " +:+ acc) ""
                   (map (fun pin => syzygy_name self +:+ ":" +:+ pin) (snd pp)) |}).
  set (pp := nth (k / 8) pmod_pins ("", [])).
  set (j := if (k mod 8 <? 4)%nat then (k mod 8)%nat else (k mod 8 + 2)%nat).
  exists (snd (nth (k / 8) _pmod ("", ""))),
         (nth (k mod 8) (split (snd (nth (k / 8) _pmod ("", "")))) ""),
         (h pp), j,
         (syzygy_name self +:+ ":" +:+ nth j (snd pp) "").
  assert (Hpp : pmod_pins !! (k / 8)%nat = Some pp /\ Forall printable (snd pp)).
  { pose proof pmod_pins_printable as Hall. rewrite Forall_forall in Hall.
    assert (H : pmod_pins !! (k / 8)%nat = Some pp).
    { subst pp. do 32 (destruct k as [|k]; [reflexivity|]). lia. }
    split; [exact H|]. apply Hall.
    apply (list_elem_of_lookup_2 _ _ _ H). }
  destruct Hpp as [Hpp Hprint].
  split; [|split; [|split; [|split; [|split; [|split]]]]].
  - apply (list_elem_of_lookup_2 _ (k / 8)).
    do 32 (destruct k as [|k]; [reflexivity|]). lia.
  - do 32 (destruct k as [|k]; [reflexivity|]). lia.
  - rewrite connectors_spec. fold h. apply list_elem_of_fmap_2.
    apply (list_elem_of_lookup_2 _ _ _ Hpp).
  - subst pp j. cbn [h conn_name conn_number].
    do 32 (destruct k as [|k]; [reflexivity|]). lia.
  - cbn [h conn_io]. rewrite (connector_tokens self (fst pp) _ Hn Hprint).
    rewrite list_lookup_fmap. subst pp j.
    do 32 (destruct k as [|k]; [reflexivity|]). lia.
  - intros E. apply (inj (String.append (syzygy_name self))) in E.
    subst pp j. revert E.
    do 32 (destruct k as [|k]; [discriminate|]). lia.
  - subst pp j.
    do 32 (destruct k as [|k]; [eexists; reflexivity|]). lia.
Qed.

Lemma led_pins_are_connected_witness :
  let self := {| syzygy_name := "syzygy_0" |} in
  exists pins_str token c j plat,
    ("led_1b", pins_str) ∈ _pmod /\
    split pins_str !! 6%nat = Some token /\
    c ∈ connectors self /\
    token = conn_name c +:+ "_" +:+ pretty (conn_number c) +:+ ":"
            +:+ pretty (Z.of_nat (S j)) /\
    split (conn_io c) !! j = Some plat /\
    plat <> "syzygy_0:-" /\
    exists pin, plat = "syzygy_0:S" +:+ pin.
Proof.
  intros self.
  assert (Hp : printable "syzygy_0").
  { unfold printable.
    repeat first [ apply Forall_nil_2 | apply Forall_cons_2
                 | progress cbn [String.list_ascii_of_string]
                 | (split; apply Nat.leb_le; reflexivity) ]. }
  exact (led_pins_are_connected self 14 Hp ltac:(lia)).
Defined.

End Adapter.

(** ** The button design of 03_button.py *)

Section Buttons.

(** [Button.elaborate] describes wires only: the program line follows
    button 0 and LED 0 follows button 1 on every tick, the blue LED is
    on, the red and the green LED are not driven, there is no register and
    no submodule, and nothing is logged.  (The outputs are distinct
    signals.) *)
Theorem button_wiring (platform : Board.t) log m :
  Button.elaborate platform = (log, Ok m) ->
  exists btn0 btn1 prog led0 rgb,
    Board.request_pin platform "button" 0 = Ok btn0 /\
    Board.request_pin platform "button" 1 = Ok btn1 /\
    Board.request_pin platform "program" 0 = Ok prog /\
    Board.request_pin platform "led" 0 = Ok led0 /\
    Board.request_rgb_led platform 0 = Ok rgb /\
    log = [] /\ d_sync m = [] /\ submodules m = [] /\
    (forall rho n, run m n rho = rho) /\
    forall rho,
      comb_value m rho (Sig prog) = Some (rho btn0 mod 2 ^ Z.of_N (signal_width prog)) /\
      (led0 <> prog ->
       comb_value m rho (Sig led0) = Some (rho btn1 mod 2 ^ Z.of_N (signal_width led0))) /\
      (Board.b rgb <> prog -> Board.b rgb <> led0 ->
       (0 < signal_width (Board.b rgb))%N ->
       comb_value m rho (Sig (Board.b rgb)) = Some 1) /\
      (forall s, s <> prog -> s <> led0 -> s <> Board.b rgb ->
                 comb_value m rho (Sig s) = None).
Proof.
  unfold Button.elaborate.
  destruct (Board.request_pin platform "button" 0) as [btn0|e]; [|discriminate].
  rewrite bind_lift_ok.
  destruct (Board.request_pin platform "button" 1) as [btn1|e]; [|discriminate].
  rewrite bind_lift_ok.
  destruct (Board.request_pin platform "program" 0) as [prog|e]; [|discriminate].
  rewrite bind_lift_ok.
  destruct (Board.request_pin platform "led" 0) as [led0|e]; [|discriminate].
  rewrite bind_lift_ok.
  destruct (Board.request_rgb_led platform 0) as [rgb|e]; [|discriminate].
  rewrite bind_lift_ok. intros H. injection H as <- <-.
  exists btn0, btn1, prog, led0, rgb.
  do 5 (split; [reflexivity|]).
  split; [reflexivity|]. split; [reflexivity|]. split; [reflexivity|].
  split.
  - intros rho n. revert rho. induction n as [|n IH]; intros rho; [reflexivity|].
    cbn [run]. rewrite IH. reflexivity.
  - intros rho. unfold comb_value, add_comb, Module_new. cbn [d_comb app driver].
    split; [|split; [|split]].
    + rewrite decide_True by reflexivity. reflexivity.
    + intros N1. rewrite decide_False by congruence.
      rewrite decide_True by reflexivity. reflexivity.
    + intros N1 N2 Hw. rewrite !decide_False by congruence.
      rewrite decide_True by reflexivity. cbn [eval width].
      f_equal. apply Z.mod_small. split; [lia|].
      apply (Z.pow_lt_mono_r 2 0); lia.
    + intros s N1 N2 N3. rewrite !decide_False by congruence. reflexivity.
Qed.

Lemma button_wiring_witness :
  let platform : Board.t :=
    {| Board.request_pin := fun name number => Ok (Signal (name +:+ "#" +:+ pretty number) 1);
       Board.request_rgb_led := fun _ =>
         Ok {| Board.r := Signal "r" 1; Board.g := Signal "g" 1; Board.b := Signal "b" 1 |};
       Board.request_vccio_ctrl := fun _ => Raise (ResourceError "vccio_ctrl") |} in
  exists m,
    Button.elaborate platform = ([], Ok m) /\
    comb_value m (fun s => if decide (s = Signal "button#0" 1) then 1 else 0)
      (Sig (Signal "program#0" 1)) = Some 1.
Proof.
  intros platform. eexists. split; [reflexivity|].
  destruct (button_wiring platform [] _ eq_refl)
    as (btn0 & btn1 & prog & led0 & rgb & H0 & _ & H2 & _ & _ & _ & _ & _ & _ & Hw).
  injection H0 as <-. injection H2 as <-.
  exact (proj1 (Hw (fun s => if decide (s = Signal "button#0" 1) then 1 else 0))).
Defined.

End Buttons.

(** ** The generator as the sources construct it *)

Section Constructed.
Import Usb04.LunaECP5DomainGenerator.

(** A generator constructed with a clock signal name never gets a PLL:
    the constructor leaves the clock frequency unset, so that
    [create_submodules] raises [ValueError] for the name "OSCG" and, for any
    other non-empty name, the error of the request or else [TypeError]
    (from the division in the error message).  Only the platform's default
    clock can succeed. *)
Theorem named_clock_never_succeeds (frequencies : option (gmap string Z))
    (name : string) (m0 : Module) (platform : Platform.t) :
  name <> "" ->
  let c := create_submodules (__init__ frequencies (Some name)) m0 platform in
  returned c = None /\
  (name = "OSCG" -> raised c = Some (ValueError "Unsupported clock frequency")) /\
  (name <> "OSCG" ->
   (forall e, Platform.request platform name = Raise e -> c = ([], Raise e)) /\
   (forall clk, Platform.request platform name = Ok clk ->
      c = ([], Raise (TypeError
                        "unsupported operand type(s) for /: 'NoneType' and 'float'")))).
Proof.
  intros Hne c. subst c.
  assert (Ht : truthy_str (Some name) = true).
  { unfold truthy_str. destruct (String.eqb_spec name ""); [contradiction|reflexivity]. }
  unfold create_submodules. cbn [clock_name clock_frequency __init__].
  rewrite Ht. change (default "" (Some name)) with name.
  destruct (String.eqb_spec name "OSCG") as [Eo|No].
  - split; [reflexivity|]. split; [intros _; reflexivity|contradiction].
  - destruct (Platform.request platform name) as [clk|e] eqn:Er.
    + rewrite bind_lift_ok, bind_ok.
      split; [reflexivity|]. split; [contradiction|].
      intros _. split; [discriminate|]. intros clk' _. reflexivity.
    + split; [reflexivity|]. split; [contradiction|].
      intros _. split; [|discriminate]. intros e' E. injection E as <-. reflexivity.
Qed.

Lemma named_clock_never_succeeds_witness :
  create_submodules (__init__ None (Some "clk30")) Module_new
    (ButterStickPlatform (fun _ => None))
  = ([], Raise (TypeError "unsupported operand type(s) for /: 'NoneType' and 'float'")).
Proof.
  assert (H1 : "clk30" <> "") by discriminate.
  assert (H2 : "clk30" <> "OSCG") by discriminate.
  pose proof (named_clock_never_succeeds None "clk30" Module_new
                (ButterStickPlatform (fun _ => None)) H1) as H.
  cbv zeta in H. destruct H as (_ & _ & H).
  exact (proj2 (H H2) (Signal "clk30" 1) eq_refl).
Defined.

(** On the ButterStick platform, a generator constructed without a clock
    name and with domain frequencies taken from 60, 120 and 240 always
    works: [create_submodules] succeeds silently and each of the three
    [generate_*_clock] returns the tap of the frequency of its domain, the
    override if there is one and the platform's default otherwise. *)
Theorem butterstick_clocks_resolve (overrides : option (gmap string Z))
    (vccio_voltage : nat -> option float) :
  (forall k v, overrides ≫= (fun o => o !! k) = Some v -> v = 60 \/ v = 120 \/ v = 240) ->
  let platform := ButterStickPlatform vccio_voltage in
  exists self' m,
    create_submodules (__init__ overrides None) Module_new platform = ([], Ok (self', m)) /\
    forall domain, domain ∈ ["fast"; "sync"; "usb"] ->
      exists f c,
        generate_clock domain self' m platform = ([], Ok c) /\
        tap f = Some c /\
        f = default (default 0 (Platform.DEFAULT_CLOCK_FREQUENCIES_MHZ platform !! domain))
              (overrides ≫= (fun o => o !! domain)).
Proof.
  intros Hov platform.
  destruct (create_submodules (__init__ overrides None) Module_new platform)
    as [log [[self' m]|e]] eqn:E.
  - pose proof E as E'.
    apply create_submodules_success in E' as (_ & _ & _ & _ & _ & _ & -> & _ & _).
    exists self', m. split; [reflexivity|]. intros domain Hd.
    rewrite (generate_clock_after_create _ _ _ _ _ _ _ E Hd).
    rewrite merge_clock_frequencies_lookup. cbn [clock_frequencies __init__].
    destruct (overrides ≫= (fun o => o !! domain)) as [v|] eqn:Ev.
    + exists v. cbn [default].
      destruct (Hov _ _ Ev) as [-> | [-> | ->]];
        (eexists; split; [reflexivity|split; reflexivity]).
    + rewrite !elem_of_cons, elem_of_nil in Hd.
      destruct Hd as [-> | [-> | [-> | []]]];
        [exists 240|exists 120|exists 60];
        (eexists; split; [reflexivity|split; reflexivity]).
  - exfalso.
    rewrite (create_submodules_default _ _ _ (Signal "clk30" 1)) in E
      by reflexivity.
    discriminate E.
Qed.

Lemma butterstick_clocks_resolve_witness :
  let platform := ButterStickPlatform (fun _ => Some 3.3%float) in
  exists self' m c,
    create_submodules (__init__ (Some {[ "sync" := 60 ]}) None) Module_new platform
    = ([], Ok (self', m)) /\
    generate_clock "sync" self' m platform = ([], Ok c) /\ tap 60 = Some c.
Proof.
  intros platform.
  destruct (butterstick_clocks_resolve (Some {[ "sync" := 60 ]}) (fun _ => Some 3.3%float))
    as (self' & m & Hc & Hg).
  { intros k v H. cbn in H. apply lookup_singleton_Some in H as [_ <-]. left. reflexivity. }
  destruct (Hg "sync" ltac:(set_solver)) as (f & c & Hgen & Htap & Hf).
  exists self', m, c. split; [exact Hc|]. split; [exact Hgen|].
  rewrite <- Htap, Hf. reflexivity.
Defined.

End Constructed.
